(** * vs_opc: a PLC gateway — tag store, REST surface and reconnect engine

    A shallow embedding of [vs_opc/tag_store.py], [vs_opc/api.py],
    [vs_opc/models.py] and of the reconnect and health parts of
    [vs_opc/plc_gateway_server.py], with the properties of the
    specification stated over it.

    Conventions.
    - Python exceptions are values: a computation yields [Ret v] or
      [Raise e], and code with side effects runs in a state monad whose
      state survives an exception, as Python's does.
    - Python text is modelled as ASCII text ([string]).
    - Seconds (time stamps, delays) are exact rationals; the only
      products the gateway forms are by powers of two, which a binary64
      performs exactly.  The conversion of a Python [int] to [float] that
      precedes such a product is modelled with its [OverflowError]. *)

From Stdlib Require Import ZArith QArith Qminmax Lia List String Ascii Bool.
From Stdlib Require Import DecimalN.
From Stdlib Require Import SpecFloat.
From stdpp Require Import gmap strings.

Local Open Scope string_scope.
Local Open Scope Z_scope.

(** ** Python results: values and exceptions *)

Module Py.

Inductive exn_class :=
| TypeError | ValueError | AttributeError | KeyError | OverflowError
| InvalidOperation | DecimalOverflow | RuntimeError.

Record exn := Exn { exn_class_of : exn_class; exn_msg : string }.

Inductive pyres (A : Type) :=
| Ret (a : A)
| Raise (e : exn).
Arguments Ret {A} a.
Arguments Raise {A} e.

Definition bind {A B} (r : pyres A) (k : A -> pyres B) : pyres B :=
  match r with
  | Ret a => k a
  | Raise e => Raise e
  end.

(** [try: r  except Exception as e: h e] *)
Definition try_except {A} (r : pyres A) (h : exn -> pyres A) : pyres A :=
  match r with
  | Ret a => Ret a
  | Raise e => h e
  end.

Definition returns {A} (r : pyres A) : bool :=
  match r with Ret _ => true | Raise _ => false end.

(** State that survives exceptions. *)
Definition M (S A : Type) := S -> S * pyres A.

Definition mret {S A} (a : A) : M S A := fun s => (s, Ret a).
Definition mraise {S A} (e : exn) : M S A := fun s => (s, Raise e).
Definition mbind {S A B} (m : M S A) (k : A -> M S B) : M S B :=
  fun s => match m s with
           | (s', Ret a) => k a s'
           | (s', Raise e) => (s', Raise e)
           end.
Definition mtry {S A} (m : M S A) (h : exn -> M S A) : M S A :=
  fun s => match m s with
           | (s', Ret a) => (s', Ret a)
           | (s', Raise e) => h e s'
           end.
Definition lift {S A} (r : pyres A) : M S A := fun s => (s, r).

(** [wp m Q E s]: run from [s], [m] ends in a state satisfying [Q] with
    its result, or raises into a state satisfying [E]. *)
Definition wp {S A} (m : M S A) (Q : A -> S -> Prop) (E : exn -> S -> Prop)
    (s : S) : Prop :=
  match m s with
  | (s', Ret a) => Q a s'
  | (s', Raise e) => E e s'
  end.
Definition mget {S} : M S S := fun s => (s, Ret s).
Definition mmodify {S} (f : S -> S) : M S unit := fun s => (f s, Ret tt).

End Py.
Export Py.

Declare Scope py_scope.
Delimit Scope py_scope with py.
Notation "x <- m ;; k" := (mbind m (fun x => k))
  (at level 62, m at next level, right associativity) : py_scope.
Notation "m ;;; k" := (mbind m (fun _ => k))
  (at level 62, right associativity) : py_scope.

(** ** Text: ASCII characters and digit strings *)

Module Text.

Definition chars := list ascii.

Definition code (c : ascii) : N := N_of_ascii c.

Definition is_digit (c : ascii) : bool :=
  (48 <=? code c)%N && (code c <=? 57)%N.

Definition digit_val (c : ascii) : N := (code c - 48)%N.

(** The ASCII characters [str.strip()] removes. *)
Definition is_space (c : ascii) : bool :=
  ((9 <=? code c)%N && (code c <=? 13)%N)
  || ((28 <=? code c)%N && (code c <=? 32)%N).

Definition lower_char (c : ascii) : ascii :=
  if (65 <=? code c)%N && (code c <=? 90)%N
  then ascii_of_N (code c + 32)
  else c.

Definition lower (s : chars) : chars := map lower_char s.

Fixpoint drop_while (p : ascii -> bool) (s : chars) : chars :=
  match s with
  | c :: r => if p c then drop_while p r else s
  | [] => []
  end.

(** [s.strip()] *)
Definition strip (s : chars) : chars :=
  rev (drop_while is_space (rev (drop_while is_space s))).

(** [s.replace("_", "")] *)
Definition remove_underscores (s : chars) : chars :=
  List.filter (fun c => negb (Ascii.eqb c "_")) s.

(** The longest prefix of digits, and what follows it. *)
Fixpoint span_digits (s : chars) : chars * chars :=
  match s with
  | c :: r =>
      if is_digit c
      then let '(d, rest) := span_digits r in (c :: d, rest)
      else ([], s)
  | [] => ([], [])
  end.

(** The number a digit string denotes ([int(s)] for digits only). *)
Definition digits_value (s : chars) : N :=
  fold_left (fun acc c => (10 * acc + digit_val c)%N) s 0%N.

Fixpoint of_uint (u : Decimal.uint) : chars :=
  match u with
  | Decimal.Nil => []
  | Decimal.D0 u => "0"%char :: of_uint u
  | Decimal.D1 u => "1"%char :: of_uint u
  | Decimal.D2 u => "2"%char :: of_uint u
  | Decimal.D3 u => "3"%char :: of_uint u
  | Decimal.D4 u => "4"%char :: of_uint u
  | Decimal.D5 u => "5"%char :: of_uint u
  | Decimal.D6 u => "6"%char :: of_uint u
  | Decimal.D7 u => "7"%char :: of_uint u
  | Decimal.D8 u => "8"%char :: of_uint u
  | Decimal.D9 u => "9"%char :: of_uint u
  end.

(** [str(n)] for a natural number: no leading zeros, ["0"] for zero. *)
Definition of_N (n : N) : chars := of_uint (N.to_uint n).

(** [str(z)] for a Python int. *)
Definition of_Z (z : Z) : chars :=
  if (z <? 0)%Z then "-"%char :: of_N (Z.abs_N z) else of_N (Z.abs_N z).

(** [len(str(n))] *)
Definition ndigits (n : N) : Z := Z.of_nat (length (of_N n)).

Definition zeros (n : Z) : chars := repeat "0"%char (Z.to_nat n).

Fixpoint startswith (p s : chars) : bool :=
  match p, s with
  | [], _ => true
  | a :: p', b :: s' => Ascii.eqb a b && startswith p' s'
  | _ :: _, [] => false
  end.

(** [sub in s] *)
Fixpoint contains (sub s : chars) : bool :=
  startswith sub s ||
  match s with
  | [] => false
  | _ :: r => contains sub r
  end.

Definition eqb (a b : chars) : bool :=
  String.eqb (string_of_list_ascii a) (string_of_list_ascii b).

Definition txt (s : string) : chars := list_ascii_of_string s.
Definition str (s : chars) : string := string_of_list_ascii s.

(** An optional sign: [true] for ["-"]. *)
Definition take_sign (s : chars) : bool * chars :=
  match s with
  | c :: r =>
      if Ascii.eqb c "-" then (true, r)
      else if Ascii.eqb c "+" then (false, r)
      else (false, s)
  | [] => (false, [])
  end.

(** The numeric literal shared by [Decimal(...)] and [float(...)]:
    digits, an optional point and digits, an optional exponent, at
    least one digit before the exponent, nothing after.  The result is
    the digits of the integer and fractional parts and the exponent. *)
Definition scan_exponent (s : chars) : option Z :=
  match s with
  | [] => Some 0%Z
  | c :: r =>
      if Ascii.eqb (lower_char c) "e" then
        let '(neg, r1) := take_sign r in
        match span_digits r1 with
        | (d :: ds, []) =>
            let v := Z.of_N (digits_value (d :: ds)) in
            Some (if neg then (- v)%Z else v)
        | _ => None
        end
      else None
  end.

Definition scan_number (s : chars) : option (chars * chars * Z) :=
  let '(ip, r1) := span_digits s in
  let '(fp, r2) :=
    match r1 with
    | c :: r => if Ascii.eqb c "." then span_digits r else ([], r1)
    | [] => ([], [])
    end in
  match ip, fp with
  | [], [] => None
  | _, _ =>
      match scan_exponent r2 with
      | Some e => Some (ip, fp, e)
      | None => None
      end
  end.

End Text.

(** ** Python floats (binary64) *)

Module Float.

Definition float := spec_float.

Definition prec : Z := 53.
Definition emax : Z := 1024.

Definition zero : float := S754_zero false.
Definition one : float := S754_finite false (2 ^ 52) (-52).
Definition nan : float := S754_nan.
Definition inf (neg : bool) : float := S754_infinity neg.

(** [x == y] *)
Definition eqb (x y : float) : bool := SFeqb x y.

(** [bool(x)] *)
Definition truthy (x : float) : bool :=
  match x with S754_zero _ => false | _ => true end.

(** [float(z)] for a Python int rounds to nearest-even; when the rounded
    magnitude would reach [2^1024] CPython raises
    [OverflowError: int too large to convert to float]. *)
Definition int_overflow_bound : Z := 2 ^ 1024 - 2 ^ 970.

Definition of_int (z : Z) : pyres float :=
  if int_overflow_bound <=? Z.abs z
  then Raise (Exn OverflowError "int too large to convert to float")
  else Ret (binary_normalize prec emax z 0 false).

(** The binary64 nearest to [p / q] ([0 <= p], [0 < q]), ties to even;
    an infinity when the quotient is out of range. *)
Definition of_ratio (neg : bool) (p q : Z) : float :=
  if p =? 0 then S754_zero neg
  else
    let k := Z.max 0 (56 + Z.log2 q - Z.log2 p) in
    let n := p * 2 ^ k in
    let m := n / q in
    let r := n mod q in
    let l := if r =? 0 then loc_Exact else loc_Inexact (2 * r ?= q) in
    binary_round_aux prec emax neg m (- k) l.

(** The exact value of a finite float. *)
Definition to_Q (x : float) : option Q :=
  match x with
  | S754_zero _ => Some 0%Q
  | S754_finite s m e =>
      let n := if s then Z.neg m else Z.pos m in
      Some (if 0 <=? e then inject_Z (n * 2 ^ e)
            else Qmake n (2 ^ Z.to_pos (- e)))
  | _ => None
  end.

(** [int(x)]: truncation toward zero. *)
Definition to_int (x : float) : pyres Z :=
  match x with
  | S754_zero _ => Ret 0
  | S754_finite s m e =>
      let a := if 0 <=? e then Z.pos m * 2 ^ e else Z.pos m / 2 ^ (- e) in
      Ret (if s then - a else a)
  | S754_infinity _ =>
      Raise (Exn OverflowError "cannot convert float infinity to integer")
  | S754_nan =>
      Raise (Exn ValueError "cannot convert float NaN to integer")
  end.

(** *** [repr(x)]: the shortest digit string that reads back as [x] *)

(** [floor(log10 (p / q))] for [0 < p], [0 < q]. *)
Fixpoint scale_up (fuel : nat) (p q : Z) (j : Z) : Z :=
  match fuel with
  | O => j
  | S fuel' => if q <=? p then j else scale_up fuel' (10 * p) q (j - 1)
  end.

Definition floor_log10 (p q : Z) : Z :=
  if q <=? p then Text.ndigits (Z.to_N (p / q)) - 1
  else scale_up 400 p q 0.

(** Comparison of [d * 10^k] with [x / dn]. *)
Definition cmp_scaled (d k x dn : Z) : comparison :=
  if 0 <=? k then (d * 10 ^ k * dn ?= x)
  else (d * dn ?= x * 10 ^ (- k)).

Fixpoint strip_zeros (fuel : nat) (d k : Z) : Z * Z :=
  match fuel with
  | O => (d, k)
  | S fuel' =>
      if (d mod 10 =? 0) && negb (d =? 0)
      then strip_zeros fuel' (d / 10) (k + 1)
      else (d, k)
  end.

(** The digits [d] and decimal exponent [k] of the shortest decimal
    [d * 10^k] that rounds to the float [m * 2^e], the one closest to it
    among those of that length. *)
Fixpoint shortest_from (fuel : nat) (n : Z) (m : positive) (e : Z) : Z * Z :=
  let u := if 0 <=? e then 2 ^ e else 1 in
  let den := if 0 <=? e then 1 else 2 ^ (- e) in
  let num := Z.pos m * u in
  let dn := 4 * den in
  let v := 4 * num in
  let boundary := (Z.pos m =? 2 ^ 52) && (-1074 <? e) in
  let lo := v - (if boundary then u else 2 * u) in
  let hi := v + 2 * u in
  let closed := Z.even (Z.pos m) in
  let inside d k :=
    match cmp_scaled d k lo dn, cmp_scaled d k hi dn with
    | Gt, Lt => true
    | Eq, Lt | Gt, Eq => closed
    | _, _ => false
    end in
  let k := floor_log10 num den - n + 1 in
  let d_lo := if 0 <=? k then num / (den * 10 ^ k)
              else (num * 10 ^ (- k)) / den in
  let d_hi := d_lo + 1 in
  match inside d_lo k, inside d_hi k with
  | true, false => strip_zeros 20 d_lo k
  | false, true => strip_zeros 20 d_hi k
  | true, true =>
      match cmp_scaled (d_lo + d_hi) k (2 * v) dn with
      | Gt => strip_zeros 20 d_lo k
      | Lt => strip_zeros 20 d_hi k
      | Eq => strip_zeros 20 (if Z.even d_lo then d_lo else d_hi) k
      end
  | false, false =>
      match fuel with
      | O => strip_zeros 20 d_lo k
      | S fuel' => shortest_from fuel' (n + 1) m e
      end
  end.

Definition shortest (m : positive) (e : Z) : Z * Z := shortest_from 17 1 m e.

(** The exponent of the scientific form: a sign and two digits at least. *)
Definition repr_exponent (x : Z) : Text.chars :=
  let a := Text.of_N (Z.abs_N x) in
  ("e"%char :: (if x <? 0 then "-"%char else "+"%char)
     :: (if Z.abs x <? 10 then "0"%char :: a else a))%list.

Definition repr_finite (m : positive) (e : Z) : Text.chars :=
  let '(d, k) := shortest m e in
  let ds := Text.of_N (Z.to_N d) in
  let n := Z.of_nat (length ds) in
  let decpt := k + n in
  (if (decpt <=? -4) || (16 <? decpt) then
     match ds with
     | [] => []
     | c :: [] => c :: repr_exponent (decpt - 1)
     | c :: r => c :: "."%char :: r ++ repr_exponent (decpt - 1)
     end
   else if decpt <=? 0 then
     "0"%char :: "."%char :: Text.zeros (- decpt) ++ ds
   else if n <=? decpt then
     ds ++ Text.zeros (decpt - n) ++ [ "."%char; "0"%char ]
   else
     firstn (Z.to_nat decpt) ds ++ "."%char :: skipn (Z.to_nat decpt) ds)%list.

Definition repr (x : float) : Text.chars :=
  match x with
  | S754_zero s => Text.txt (if s then "-0.0" else "0.0")
  | S754_infinity s => Text.txt (if s then "-inf" else "inf")
  | S754_nan => Text.txt "nan"
  | S754_finite s m e =>
      if s then "-"%char :: repr_finite m e else repr_finite m e
  end.

(** The float nearest to [c * 10^x]. *)
Definition of_decimal (neg : bool) (c : N) (x : Z) : float :=
  if 0 <=? x then of_ratio neg (Z.of_N c * 10 ^ x) 1
  else of_ratio neg (Z.of_N c) (10 ^ (- x)).

(** In [float(s)] an underscore must stand between two digits. *)
Fixpoint underscores_ok (prev_digit : bool) (s : Text.chars) : bool :=
  match s with
  | [] => true
  | c :: r =>
      if Ascii.eqb c "_" then
        prev_digit
        && match r with
           | c' :: _ => Text.is_digit c'
           | [] => false
           end
        && underscores_ok false r
      else underscores_ok (Text.is_digit c) r
  end.

(** [float(s)] for a string. *)
Definition of_string (s : Text.chars) : pyres float :=
  let bad := Raise (Exn ValueError
               ("could not convert string to float: " ++ Text.str s)) in
  let t := Text.strip s in
  if negb (underscores_ok false t) then bad
  else
    let '(neg, body) := Text.take_sign (Text.remove_underscores t) in
    let low := Text.lower body in
    if Text.eqb low (Text.txt "inf") || Text.eqb low (Text.txt "infinity")
    then Ret (inf neg)
    else if Text.eqb low (Text.txt "nan") then Ret nan
    else
      match Text.scan_number body with
      | Some (ip, fp, e) =>
          Ret (of_decimal neg (Text.digits_value (ip ++ fp)%list)
                          (e - Z.of_nat (length fp)))
      | None => bad
      end.

End Float.

(** ** Python's [decimal.Decimal] under the default context

    [prec=28], [rounding=ROUND_HALF_EVEN], [Emin=-999999], [Emax=999999],
    [capitals=1], [clamp=0], traps [InvalidOperation], [DivisionByZero]
    and [Overflow].  A finite decimal is a sign, a coefficient and an
    exponent; trailing zeros of the coefficient are significant. *)

Module PyDecimal.

Import Text.

Inductive Dec :=
| Finite (sign : bool) (coeff : N) (exp : Z)
| Infinity (sign : bool)
| NaN (sign : bool) (signaling : bool) (payload : N).

Definition prec : Z := 28.
Definition Emax : Z := 999999.
Definition Emin : Z := -999999.
Definition Etiny : Z := Emin - prec + 1.
Definition Etop : Z := Emax - prec + 1.

Definition invalid (msg : string) : exn := Exn InvalidOperation msg.

Definition is_nan (d : Dec) : bool :=
  match d with NaN _ _ _ => true | _ => false end.

Definition is_zero (d : Dec) : bool :=
  match d with Finite _ c _ => (c =? 0)%N | _ => false end.

Definition sign_of (d : Dec) : bool :=
  match d with Finite s _ _ | Infinity s | NaN s _ _ => s end.

(** [bool(d)] *)
Definition truthy (d : Dec) : bool := negb (is_zero d).

(** *** [Decimal(s)] for a string *)

Definition all_digits (s : chars) : bool := forallb is_digit s.

Definition of_string (s : chars) : pyres Dec :=
  let bad := Raise (invalid "[<class 'decimal.ConversionSyntax'>]") in
  let '(neg, body) := take_sign (remove_underscores (strip s)) in
  let low := lower body in
  if Text.eqb low (txt "inf") || Text.eqb low (txt "infinity")
  then Ret (Infinity neg)
  else if startswith (txt "nan") low then
    let diag := skipn 3 body in
    if all_digits diag then Ret (NaN neg false (digits_value diag)) else bad
  else if startswith (txt "snan") low then
    let diag := skipn 4 body in
    if all_digits diag then Ret (NaN neg true (digits_value diag)) else bad
  else
    match scan_number body with
    | Some (ip, fp, e) =>
        Ret (Finite neg (digits_value (ip ++ fp)%list)
                    (e - Z.of_nat (length fp)))
    | None => bad
    end.

(** [Decimal(z)] for a Python int. *)
Definition of_int (z : Z) : Dec := Finite (z <? 0) (Z.abs_N z) 0.

(** *** [str(d)] *)

Definition signed_exponent (x : Z) : chars :=
  (if x <? 0 then "-"%char else "+"%char) :: of_N (Z.abs_N x).

Definition sign_chars (s : bool) : chars := if s then ["-"%char] else [].

Definition to_string (d : Dec) : chars :=
  match d with
  | Infinity s => (sign_chars s ++ txt "Infinity")%list
  | NaN s sig p =>
      (sign_chars s ++ txt (if sig then "sNaN" else "NaN")
         ++ (if (p =? 0)%N then [] else of_N p))%list
  | Finite s c e =>
      let ds := of_N c in
      let len := Z.of_nat (length ds) in
      let leftdigits := e + len in
      let dotplace :=
        if (e <=? 0) && (-6 <? leftdigits) then leftdigits else 1 in
      let '(intpart, fracpart) :=
        if dotplace <=? 0 then
          (["0"%char], ("."%char :: zeros (- dotplace) ++ ds)%list)
        else if len <=? dotplace then
          ((ds ++ zeros (dotplace - len))%list, [])
        else
          (firstn (Z.to_nat dotplace) ds,
           "."%char :: skipn (Z.to_nat dotplace) ds) in
      let ex :=
        if leftdigits =? dotplace then []
        else "E"%char :: signed_exponent (leftdigits - dotplace) in
      (sign_chars s ++ intpart ++ fracpart ++ ex)%list
  end.

(** *** Rounding *)

Inductive rounding := ROUND_HALF_EVEN | ROUND_HALF_UP.

(** The coefficient [c] with its last [k] digits rounded away
    ([0 < k]); a coefficient shorter than [k] digits rounds to zero. *)
Definition round_div (mode : rounding) (c : N) (k : Z) : N :=
  let p := (10 ^ Z.to_N k)%N in
  let q := (c / p)%N in
  let r := (c mod p)%N in
  let up :=
    match mode with
    | ROUND_HALF_UP => (p <=? 2 * r)%N
    | ROUND_HALF_EVEN => (p <? 2 * r)%N || ((p =? 2 * r)%N && N.odd q)
    end in
  if up then (q + 1)%N else q.

(** [d._rescale(exp, rounding)] for a finite [d] *)
Definition rescale (s : bool) (c : N) (e : Z) (exp : Z) (mode : rounding)
  : Dec :=
  if (c =? 0)%N then Finite s 0 exp
  else if exp <=? e then Finite s (c * 10 ^ Z.to_N (e - exp)) exp
  else Finite s (round_div mode c (exp - e)) exp.

Definition fix_nan (s sig : bool) (p : N) : Dec :=
  NaN s sig (p mod 10 ^ Z.to_N prec).

(** [d._fix(context)]: round to the precision and exponent range. *)
Definition ctx_fix (d : Dec) : pyres Dec :=
  match d with
  | NaN s sig p => Ret (fix_nan s sig p)
  | Infinity _ => Ret d
  | Finite s c e =>
      if (c =? 0)%N then Ret (Finite s 0 (Z.min (Z.max e Etiny) Emax))
      else
        let exp_min := ndigits c + e - prec in
        if Etop <? exp_min
        then Raise (Exn DecimalOverflow "above Emax")
        else
          let exp_min := Z.max exp_min Etiny in
          if e <? exp_min then
            let coeff := round_div ROUND_HALF_EVEN c (exp_min - e) in
            let '(coeff, exp_min) :=
              if prec <? ndigits coeff
              then ((coeff / 10)%N, exp_min + 1)
              else (coeff, exp_min) in
            if Etop <? exp_min
            then Raise (Exn DecimalOverflow "above Emax")
            else Ret (Finite s coeff exp_min)
          else Ret d
  end.

(** [a._check_nans(b, context)]: a signalling NaN raises, a quiet one is
    the result. *)
Definition check_nans (a b : Dec) : option (pyres Dec) :=
  match a, b with
  | NaN _ true _, _ => Some (Raise (invalid "sNaN"))
  | _, NaN _ true _ => Some (Raise (invalid "sNaN"))
  | NaN s sig p, _ => Some (Ret (fix_nan s sig p))
  | _, NaN s sig p => Some (Ret (fix_nan s sig p))
  | _, _ => None
  end.

(** *** [a * b] *)
Definition mul (a b : Dec) : pyres Dec :=
  match check_nans a b with
  | Some r => r
  | None =>
      match a, b with
      | Finite sa ca ea, Finite sb cb eb =>
          ctx_fix (Finite (xorb sa sb) (ca * cb) (ea + eb))
      | Infinity sa, _ =>
          if is_zero b then Raise (invalid "(+-)INF * 0")
          else Ret (Infinity (xorb sa (sign_of b)))
      | _, Infinity sb =>
          if is_zero a then Raise (invalid "0 * (+-)INF")
          else Ret (Infinity (xorb (sign_of a) sb))
      | _, _ => Ret a
      end
  end.

(** *** [a + b] *)

(** [_normalize(op1, op2, prec)]: the operand of larger exponent is
    brought to the exponent of the other; an operand too small to
    matter is first replaced by a one at a harmless exponent. *)
Definition normalize (c1 : N) (e1 : Z) (c2 : N) (e2 : Z) : N * N * Z :=
  let tmp_first := negb (e1 <? e2) in
  let '(tc, te, oc, oe) :=
    if tmp_first then (c1, e1, c2, e2) else (c2, e2, c1, e1) in
  let exp := te + Z.min (-1) (ndigits tc - prec - 2) in
  let '(oc, oe) :=
    if ndigits oc + oe - 1 <? exp then (1%N, exp) else (oc, oe) in
  let tc := (tc * 10 ^ Z.to_N (te - oe))%N in
  if tmp_first then (tc, oc, oe) else (oc, tc, oe).

Definition add (a b : Dec) : pyres Dec :=
  match check_nans a b with
  | Some r => r
  | None =>
      match a, b with
      | Infinity sa, Infinity sb =>
          if Bool.eqb sa sb then Ret a else Raise (invalid "-INF + INF")
      | Infinity _, _ => Ret a
      | _, Infinity _ => Ret b
      | Finite sa ca ea, Finite sb cb eb =>
          let exp := Z.min ea eb in
          if (ca =? 0)%N && (cb =? 0)%N then ctx_fix (Finite (sa && sb) 0 exp)
          else if (ca =? 0)%N then
            ctx_fix (rescale sb cb eb (Z.max exp (eb - prec - 1)) ROUND_HALF_EVEN)
          else if (cb =? 0)%N then
            ctx_fix (rescale sa ca ea (Z.max exp (ea - prec - 1)) ROUND_HALF_EVEN)
          else
            let '(n1, n2, e) := normalize ca ea cb eb in
            if Bool.eqb sa sb then ctx_fix (Finite sa (n1 + n2) e)
            else if (n1 =? n2)%N then ctx_fix (Finite false 0 exp)
            else if (n1 <? n2)%N then ctx_fix (Finite sb (n2 - n1) e)
            else ctx_fix (Finite sa (n1 - n2) e)
      | _, _ => Ret a
      end
  end.

Definition adjusted (c : N) (e : Z) : Z := e + ndigits c - 1.

(** *** [a.quantize(q, rounding=mode)] *)
Definition quantize (a q : Dec) (mode : rounding) : pyres Dec :=
  match check_nans a q with
  | Some r => r
  | None =>
      match a, q with
      | Infinity _, Infinity _ => Ret a
      | Finite s c e, Finite _ _ qe =>
          if negb ((Etiny <=? qe) && (qe <=? Emax)) then
            Raise (invalid "target exponent out of bounds in quantize")
          else if (c =? 0)%N then ctx_fix (Finite s 0 qe)
          else if Emax <? adjusted c e then
            Raise (invalid "exponent of quantize result too large for current context")
          else if prec <? adjusted c e - qe + 1 then
            Raise (invalid "quantize result has too many digits for current context")
          else
            match rescale s c e qe mode with
            | Finite s' c' e' =>
                if Emax <? adjusted c' e' then
                  Raise (invalid "exponent of quantize result too large for current context")
                else if prec <? ndigits c' then
                  Raise (invalid "quantize result has too many digits for current context")
                else ctx_fix (Finite s' c' e')
            | other => Ret other
            end
      | _, _ => Raise (invalid "quantize with one INF")
      end
  end.

(** *** [a.scaleb(n)] for a Python int [n] *)
Definition scaleb (a : Dec) (n : Z) : pyres Dec :=
  match check_nans a (of_int n) with
  | Some r => r
  | None =>
      let lim := 2 * (Emax + prec) in
      if negb ((- lim <=? n) && (n <=? lim)) then Raise (invalid "scaleb")
      else
        match a with
        | Finite s c e => ctx_fix (Finite s c (e + n))
        | _ => Ret a
        end
  end.

(** *** [a.to_integral_value()] *)
Definition to_integral_value (a : Dec) : pyres Dec :=
  match a with
  | NaN _ true _ => Raise (invalid "sNaN")
  | NaN s sig p => Ret (fix_nan s sig p)
  | Infinity _ => Ret a
  | Finite s c e =>
      if 0 <=? e then Ret a else Ret (rescale s c e 0 ROUND_HALF_EVEN)
  end.

(** The signed integer [n] with [a = n * 10^x] for the smaller exponent
    [x] of two finite decimals. *)
Definition scaled_value (s : bool) (c : N) (e : Z) (x : Z) : Z :=
  let n := Z.of_N c * 10 ^ (e - x) in
  if s then - n else n.

(** *** [a == b] *)
Definition eq (a b : Dec) : pyres bool :=
  match check_nans a b with
  | Some (Raise e) => Raise e
  | Some (Ret _) => Ret false
  | None =>
      match a, b with
      | Finite sa ca ea, Finite sb cb eb =>
          let x := Z.min ea eb in
          Ret (scaled_value sa ca ea x =? scaled_value sb cb eb x)
      | Infinity sa, Infinity sb => Ret (Bool.eqb sa sb)
      | _, _ => Ret false
      end
  end.

(** *** [int(a)]: truncation toward zero *)
Definition to_int (a : Dec) : pyres Z :=
  match a with
  | NaN _ _ _ => Raise (Exn ValueError "cannot convert NaN to integer")
  | Infinity _ =>
      Raise (Exn OverflowError "cannot convert Infinity to integer")
  | Finite s c e =>
      let n := if 0 <=? e then Z.of_N c * 10 ^ e
               else Z.of_N c / 10 ^ (- e) in
      Ret (if s then - n else n)
  end.

(** *** [float(a)] *)
Definition to_float (a : Dec) : pyres Float.float :=
  match a with
  | NaN _ true _ =>
      Raise (Exn ValueError "cannot convert signaling NaN to float")
  | NaN _ false _ => Ret Float.nan
  | Infinity s => Ret (Float.inf s)
  | Finite s c e => Ret (Float.of_decimal s c e)
  end.

(** The exact value of a finite decimal. *)
Definition to_Q (a : Dec) : option Q :=
  match a with
  | Finite s c e =>
      let n := if s then (- Z.of_N c)%Z else Z.of_N c in
      Some (if 0 <=? e then inject_Z (n * 10 ^ e)
            else Qmake n (10 ^ Z.to_pos (- e)))
  | _ => None
  end.

End PyDecimal.

(** ** Python values

    The values that reach the tag store and the REST handlers: what
    [json] decodes a request body to, and [Decimal]s stored by Python
    callers. *)

Module PyVal.

Import Text.

#[local] Set Warnings "-register-all".
Inductive pyval :=
| VNone
| VBool (b : bool)
| VInt (z : Z)
| VFloat (f : Float.float)
| VDecimal (d : PyDecimal.Dec)
| VStr (s : string)
| VList (l : list pyval)
| VDict (kvs : list (string * pyval)).

Definition type_name (v : pyval) : string :=
  match v with
  | VNone => "NoneType"
  | VBool _ => "bool"
  | VInt _ => "int"
  | VFloat _ => "float"
  | VDecimal _ => "decimal.Decimal"
  | VStr _ => "str"
  | VList _ => "list"
  | VDict _ => "dict"
  end.

Definition is_None (v : pyval) : bool :=
  match v with VNone => true | _ => false end.

(** [isinstance(v, bool)], [isinstance(v, str)], ... *)
Definition is_bool (v : pyval) : bool :=
  match v with VBool _ => true | _ => false end.
Definition is_str (v : pyval) : bool :=
  match v with VStr _ => true | _ => false end.
Definition is_list (v : pyval) : bool :=
  match v with VList _ => true | _ => false end.
Definition is_dict (v : pyval) : bool :=
  match v with VDict _ => true | _ => false end.
Definition is_Decimal (v : pyval) : bool :=
  match v with VDecimal _ => true | _ => false end.

(** [bool(v)] *)
Definition truthy (v : pyval) : bool :=
  match v with
  | VNone => false
  | VBool b => b
  | VInt z => negb (z =? 0)
  | VFloat f => Float.truthy f
  | VDecimal d => PyDecimal.truthy d
  | VStr s => negb (String.eqb s "")
  | VList l => match l with [] => false | _ => true end
  | VDict kvs => match kvs with [] => false | _ => true end
  end.

(** [a or b] *)
Definition py_or (a b : pyval) : pyval := if truthy a then a else b.

(** *** [repr] and [str] *)

Definition hex_digit (n : N) : ascii :=
  if (n <? 10)%N then ascii_of_N (48 + n) else ascii_of_N (87 + n).

Definition repr_char (quote : ascii) (c : ascii) : chars :=
  if Ascii.eqb c "\" then [ "\"%char; "\"%char ]
  else if Ascii.eqb c quote then [ "\"%char; c ]
  else if (code c =? 10)%N then [ "\"%char; "n"%char ]
  else if (code c =? 13)%N then [ "\"%char; "r"%char ]
  else if (code c =? 9)%N then [ "\"%char; "t"%char ]
  else if (code c <? 32)%N || (code c =? 127)%N
  then [ "\"%char; "x"%char; hex_digit (code c / 16); hex_digit (code c mod 16) ]
  else [ c ].

Definition has_char (c : ascii) (s : chars) : bool :=
  existsb (Ascii.eqb c) s.

(** [repr(s)] for a string: single quotes unless the text has a single
    quote and no double quote. *)
Definition double_quote : ascii := ascii_of_N 34.

Definition repr_str (s : chars) : chars :=
  let q := if has_char "'"%char s && negb (has_char double_quote s)
           then double_quote else "'"%char in
  (q :: flat_map (repr_char q) s ++ [ q ])%list.

Fixpoint join (sep : chars) (l : list chars) : chars :=
  match l with
  | [] => []
  | [ x ] => x
  | x :: r => (x ++ sep ++ join sep r)%list
  end.

Fixpoint py_repr (v : pyval) : chars :=
  match v with
  | VNone => txt "None"
  | VBool b => txt (if b then "True" else "False")
  | VInt z => of_Z z
  | VFloat f => Float.repr f
  | VDecimal d =>
      (txt "Decimal('" ++ PyDecimal.to_string d ++ txt "')")%list
  | VStr s => repr_str (txt s)
  | VList l =>
      ("["%char :: join (txt ", ") (map py_repr l) ++ [ "]"%char ])%list
  | VDict kvs =>
      ("{"%char
         :: join (txt ", ")
              (map (fun '(k, x) =>
                      (repr_str (txt k) ++ txt ": " ++ py_repr x)%list) kvs)
         ++ [ "}"%char ])%list
  end.

(** [str(v)].  (CPython's optional limit on the length of int-to-text
    conversions is a run-time setting outside this model.) *)
Definition py_str (v : pyval) : chars :=
  match v with
  | VStr s => txt s
  | VDecimal d => PyDecimal.to_string d
  | _ => py_repr v
  end.

(** *** [float(v)] *)
Definition py_float (v : pyval) : pyres Float.float :=
  match v with
  | VFloat f => Ret f
  | VInt z => Float.of_int z
  | VBool b => Ret (if b then Float.one else Float.zero)
  | VStr s => Float.of_string (txt s)
  | VDecimal d => PyDecimal.to_float d
  | _ => Raise (Exn TypeError
                 ("float() argument must be a string or a real number, not '"
                    ++ type_name v ++ "'"))
  end.

(** *** [int(v)] *)
Definition int_of_string (s : chars) : pyres Z :=
  let bad := Raise (Exn ValueError
               ("invalid literal for int() with base 10: "
                  ++ str (repr_str s))) in
  let t := strip s in
  if negb (Float.underscores_ok false t) then bad
  else
    let '(neg, body) := take_sign (remove_underscores t) in
    match body with
    | [] => bad
    | _ =>
        if forallb is_digit body
        then let n := Z.of_N (digits_value body) in
             Ret (if neg then - n else n)
        else bad
    end.

Definition py_int (v : pyval) : pyres Z :=
  match v with
  | VInt z => Ret z
  | VBool b => Ret (if b then 1 else 0)
  | VFloat f => Float.to_int f
  | VDecimal d => PyDecimal.to_int d
  | VStr s => int_of_string (txt s)
  | _ => Raise (Exn TypeError
                 ("int() argument must be a string, a bytes-like object or a real number, not '"
                    ++ type_name v ++ "'"))
  end.

(** *** Equality and hashing, as dictionaries use them *)

(** The numbers of the numeric tower compare by exact value. *)
Inductive number :=
| NumFinite (q : Q)
| NumInfinite (neg : bool).

Definition number_of (v : pyval) : option number :=
  match v with
  | VBool b => Some (NumFinite (if b then 1 else 0)%Q)
  | VInt z => Some (NumFinite (inject_Z z))
  | VFloat (S754_infinity s) => Some (NumInfinite s)
  | VFloat f => option_map NumFinite (Float.to_Q f)
  | VDecimal (PyDecimal.Infinity s) => Some (NumInfinite s)
  | VDecimal d => option_map NumFinite (PyDecimal.to_Q d)
  | _ => None
  end.

Definition number_eqb (a b : number) : bool :=
  match a, b with
  | NumFinite x, NumFinite y => Qeq_bool x y
  | NumInfinite s, NumInfinite t => Bool.eqb s t
  | _, _ => false
  end.

(** [a == b] with a key on one side (a [NaN] equals nothing). *)
Definition py_eqb (a b : pyval) : bool :=
  match a, b with
  | VNone, VNone => true
  | VStr s, VStr t => String.eqb s t
  | _, _ =>
      match number_of a, number_of b with
      | Some x, Some y => number_eqb x y
      | _, _ => false
      end
  end.

(** [hash(k)] succeeds. *)
Definition hashable (k : pyval) : pyres unit :=
  match k with
  | VList _ | VDict _ =>
      Raise (Exn TypeError ("unhashable type: '" ++ type_name k ++ "'"))
  | VDecimal (PyDecimal.NaN _ true _) =>
      Raise (Exn TypeError "Cannot hash a signaling NaN value.")
  | _ => Ret tt
  end.

(** *** Dictionaries: insertion-ordered association lists *)

Definition pydict (V : Type) := list (pyval * V).

Fixpoint dict_lookup {V} (k : pyval) (d : pydict V) : option V :=
  match d with
  | [] => None
  | (k', v) :: r => if py_eqb k' k then Some v else dict_lookup k r
  end.

(** [d[k] = v]: an existing key keeps its place (and its key object). *)
Fixpoint dict_store {V} (k : pyval) (v : V) (d : pydict V) : pydict V :=
  match d with
  | [] => [ (k, v) ]
  | (k', v') :: r =>
      if py_eqb k' k then (k', v) :: r else (k', v') :: dict_store k v r
  end.

(** [d.pop(k, None)] *)
Fixpoint dict_remove {V} (k : pyval) (d : pydict V) : pydict V :=
  match d with
  | [] => []
  | (k', v') :: r => if py_eqb k' k then r else (k', v') :: dict_remove k r
  end.

(** [d.get(k)] *)
Definition dict_get {V} (k : pyval) (d : pydict V) : pyres (option V) :=
  Py.bind (hashable k) (fun _ => Ret (dict_lookup k d)).

(** [d[k] = v] *)
Definition dict_set {V} (k : pyval) (v : V) (d : pydict V)
  : pyres (pydict V) :=
  Py.bind (hashable k) (fun _ => Ret (dict_store k v d)).

(** *** Decoded JSON objects *)

Fixpoint field (kvs : list (string * pyval)) (k : string) : option pyval :=
  match kvs with
  | [] => None
  | (k', v) :: r => if String.eqb k' k then Some v else field r k
  end.

(** [t.get(k, default)]: only a dict has [get]. *)
Definition py_get (t : pyval) (k : string) (default : pyval) : pyres pyval :=
  match t with
  | VDict kvs => Ret (match field kvs k with Some v => v | None => default end)
  | _ => Raise (Exn AttributeError
                 ("'" ++ type_name t ++ "' object has no attribute 'get'"))
  end.

(** [s.lower()]: only a string has [lower]. *)
Definition py_lower (v : pyval) : pyres chars :=
  match v with
  | VStr s => Ret (lower (txt s))
  | _ => Raise (Exn AttributeError
                 ("'" ++ type_name v ++ "' object has no attribute 'lower'"))
  end.

End PyVal.

(** ** [models.py] *)

Module Models.

Import PyVal.

(** The dataclass [Tag].  A dataclass does not check its field types:
    the REST handlers store what the request carried. *)
Record Tag := mkTag {
  tag_id : pyval;
  name : pyval;
  plc_id : pyval;
  address : pyval;
  data_type : pyval;
  group_id : pyval;
  project_id : pyval;
  scale_mul : pyval;
  scale_add : pyval;
  decimals : pyval;
  writable : pyval;
  description : pyval;
  enabled : pyval;
  client_visible : pyval
}.

End Models.

(** ** [tag_store.py] *)

Module TagStore.

Import Text PyVal Models.

Record TagStore := mkStore {
  _tags : pydict Tag;
  _values : pydict pyval
}.

(** [TagStore()] *)
Definition empty : TagStore := mkStore [] [].

Local Open Scope py_scope.

Definition set_tag (k : pyval) (t : Tag) : M TagStore unit :=
  fun ts => match dict_set k t (_tags ts) with
            | Ret d => (mkStore d (_values ts), Ret tt)
            | Raise e => (ts, Raise e)
            end.

Definition set_raw (k : pyval) (v : pyval) : M TagStore unit :=
  fun ts => match dict_set k v (_values ts) with
            | Ret d => (mkStore (_tags ts) d, Ret tt)
            | Raise e => (ts, Raise e)
            end.

(** The default of [add_tag] for a lower-cased data type. *)
Definition default_value (dt : chars) : pyval :=
  if startswith (txt "bool") dt then VBool false
  else if contains (txt "int") dt then VInt 0
  else VFloat Float.zero.

(** [add_tag(tag, initial_value=None)] *)
Definition add_tag (tag : Tag) (initial_value : pyval) : M TagStore unit :=
  set_tag (tag_id tag) tag ;;;
  if negb (is_None initial_value) then set_raw (tag_id tag) initial_value
  else
    dt <- lift (if truthy (data_type tag) then py_lower (data_type tag)
                else Ret []) ;;
    set_raw (tag_id tag) (default_value dt).

(** [remove_tag(tag_id)] *)
Definition remove_tag (tag_id : pyval) : M TagStore unit :=
  fun ts => match hashable tag_id with
            | Raise e => (ts, Raise e)
            | Ret _ =>
                (mkStore (dict_remove tag_id (_tags ts))
                         (dict_remove tag_id (_values ts)), Ret tt)
            end.

(** [set_value(tag_id, value)] *)
Definition set_value (tag_id : pyval) (value : pyval) : M TagStore unit :=
  set_raw tag_id value.

(** [get_raw_value(tag_id)] *)
Definition get_raw_value (tag_id : pyval) (ts : TagStore) : pyres pyval :=
  Py.bind (dict_get tag_id (_values ts))
          (fun o => Ret (match o with Some v => v | None => VNone end)).

(** [get_tag(tag_id)] *)
Definition get_tag (tag_id : pyval) (ts : TagStore) : pyres (option Tag) :=
  dict_get tag_id (_tags ts).

(** [clear_tags()] *)
Definition clear_tags : M TagStore unit := fun _ => (empty, Ret tt).

(** [snapshot()['tags']]: the raw value of every tag. *)
Definition snapshot (ts : TagStore) : pydict pyval :=
  map (fun '(k, _) =>
         (k, match dict_lookup k (_values ts) with Some v => v | None => VNone end))
      (_tags ts).

(** [list_tags()], as the list of tags in insertion order. *)
Definition list_tags (ts : TagStore) : list Tag := map snd (_tags ts).

(** [Decimal(str(v))] *)
Definition decimal_of (v : pyval) : pyres PyDecimal.Dec :=
  PyDecimal.of_string (py_str v).

(** [d.quantize(Decimal(1).scaleb(-int(dec)), rounding=ROUND_HALF_UP)] *)
Definition quantize_to (d : PyDecimal.Dec) (dec : pyval)
  : pyres PyDecimal.Dec :=
  Py.bind (py_int dec) (fun n =>
  Py.bind (PyDecimal.scaleb (PyDecimal.of_int 1) (- n)) (fun quant =>
  PyDecimal.quantize d quant PyDecimal.ROUND_HALF_UP)).

(** [isinstance(raw, bool) or str(tag.data_type).lower().startswith('bool')]
    (the [try] around it has nothing to catch: [str] of these values
    does not raise). *)
Definition is_boolean (tag : Tag) (raw : pyval) : bool :=
  is_bool raw || startswith (txt "bool") (lower (py_str (data_type tag))).

(** [try: float(v)  except Exception: default] *)
Definition float_or (v : pyval) (default : Float.float) : Float.float :=
  match py_float v with
  | Ret f => f
  | Raise _ => default
  end.

(** The branch [if mul == 1.0 and add == 0.0] of [get_value]: the raw
    value as a decimal, quantized when [decimals] is set; the raw value
    itself when anything fails. *)
Definition get_unscaled (tag : Tag) (raw : pyval) : pyres pyval :=
  let dec := decimals tag in
  try_except
    (Py.bind (decimal_of raw) (fun d =>
     if negb (is_None dec)
     then Py.bind (quantize_to d dec) (fun q => Ret (VDecimal q))
     else Ret (VDecimal d)))
    (fun _ => Ret raw).

(** The scaling branch of [get_value]. *)
Definition get_scaled (tag : Tag) (mul add : Float.float) (raw : pyval)
  : pyres pyval :=
  try_except
    (Py.bind (decimal_of raw) (fun num =>
     Py.bind (PyDecimal.of_string (Float.repr mul)) (fun dec_mul =>
     Py.bind (PyDecimal.of_string (Float.repr add)) (fun dec_add =>
     Py.bind (PyDecimal.mul num dec_mul) (fun prod =>
     Py.bind (PyDecimal.add prod dec_add) (fun scaled =>
     let dec := decimals tag in
     if negb (is_None dec)
     then try_except
            (Py.bind (quantize_to scaled dec) (fun q => Ret (VDecimal q)))
            (fun _ => Ret (VDecimal scaled))
     else Ret (VDecimal scaled)))))))
    (fun _ => Ret raw).

(** [get_value(tag_id)] *)
Definition get_value (tag_id : pyval) (ts : TagStore) : pyres pyval :=
  Py.bind (dict_get tag_id (_values ts)) (fun raw_o =>
  Py.bind (dict_get tag_id (_tags ts)) (fun tag_o =>
  match raw_o with
  | None | Some VNone => Ret VNone
  | Some raw =>
      match tag_o with
      | None => Ret raw
      | Some tag =>
          if is_boolean tag raw then Ret raw
          else
            let mul := float_or (scale_mul tag) Float.one in
            let add := float_or (scale_add tag) Float.zero in
            if Float.eqb mul Float.one && Float.eqb add Float.zero
            then get_unscaled tag raw
            else get_scaled tag mul add raw
      end
  end)).

(** The raw value under a string id, [None] when there is none. *)
Definition raw_value (tag_id : string) (ts : TagStore) : pyval :=
  match dict_lookup (VStr tag_id) (_values ts) with
  | Some v => v
  | None => VNone
  end.

End TagStore.

(** ** [api.py]: the REST handlers over the tag store

    A handler takes the decoded request and runs on the store attached to
    the blueprint; an exception that escapes it is Flask's 500. *)

Module Api.

Import Text PyVal Models TagStore.

Local Open Scope py_scope.

Record response := mkResponse {
  status : Z;
  body : pyval
}.

(** [_convert] of [_json_response]: a [Decimal] becomes an int when it
    equals its integral value, else a float, else its text; mappings
    and lists are converted element by element. *)
Definition convert_decimal (d : PyDecimal.Dec) : pyval :=
  let integral :=
    Py.bind (PyDecimal.to_integral_value d) (fun i =>
    Py.bind (PyDecimal.eq d i) (fun same =>
    if same then Py.bind (PyDecimal.to_int d) (fun z => Ret (Some (VInt z)))
    else Ret None)) in
  match try_except integral (fun _ => Ret None) with
  | Ret (Some v) => v
  | _ =>
      match PyDecimal.to_float d with
      | Ret f => VFloat f
      | Raise _ => VStr (str (PyDecimal.to_string d))
      end
  end.

Fixpoint _convert (o : pyval) : pyval :=
  match o with
  | VDecimal d => convert_decimal d
  | VDict kvs => VDict (map (fun '(k, v) => (k, _convert v)) kvs)
  | VList l => VList (map _convert l)
  | _ => o
  end.

(** [_json_response(obj, status)]: the object handed to [json.dumps]. *)
Definition _json_response (obj : pyval) (status : Z) : response :=
  mkResponse status (_convert obj).

(** [jsonify(obj), status] *)
Definition jsonify (obj : pyval) (status : Z) : response :=
  mkResponse status obj.

Definition error_body (msg : string) : pyval := VDict [ ("error", VStr msg) ].

(** [item in container] and [container[item]] for the string ['tags'] *)
Definition py_contains (container : pyval) (item : string) : pyres bool :=
  match container with
  | VDict kvs => Ret (bool_decide (is_Some (field kvs item)))
  | VList l => Ret (existsb (py_eqb (VStr item)) l)
  | VStr s => Ret (contains (txt item) (txt s))
  | _ => Raise (Exn TypeError
                 ("argument of type '" ++ type_name container
                    ++ "' is not iterable"))
  end.

Definition py_getitem (container : pyval) (item : string) : pyres pyval :=
  match container with
  | VDict kvs =>
      match field kvs item with
      | Some v => Ret v
      | None => Raise (Exn KeyError item)
      end
  | VList _ =>
      Raise (Exn TypeError "list indices must be integers or slices, not str")
  | VStr _ =>
      Raise (Exn TypeError "string indices must be integers, not 'str'")
  | _ => Raise (Exn TypeError
                 ("'" ++ type_name container ++ "' object is not subscriptable"))
  end.

(** [for t in tags] *)
Definition py_iter (v : pyval) : pyres (list pyval) :=
  match v with
  | VList l => Ret l
  | VDict kvs => Ret (map (fun '(k, _) => VStr k) kvs)
  | VStr s => Ret (map (fun c => VStr (String c EmptyString)) (txt s))
  | _ => Raise (Exn TypeError
                 ("'" ++ type_name v ++ "' object is not iterable"))
  end.

(** The call [Tag(tag_id=t.get('tag_id') or t.get('name'), ...)] shared
    by [add_tag] and [import_tags]. *)
Definition tag_of_payload (t : pyval) : pyres Tag :=
  Py.bind (py_get t "tag_id" VNone) (fun a =>
  Py.bind (if truthy a then Ret a else py_get t "name" VNone) (fun tid =>
  Py.bind (py_get t "tag_id" VNone) (fun d =>
  Py.bind (py_get t "name" d) (fun nm =>
  Py.bind (py_get t "plc_id" (VStr "plc_1")) (fun plc =>
  Py.bind (py_get t "address" (VStr "")) (fun addr =>
  Py.bind (py_get t "data_type" (VStr "Double")) (fun dt =>
  Py.bind (py_get t "group_id" (VStr "default")) (fun grp =>
  Py.bind (py_get t "description" VNone) (fun desc =>
  Py.bind (py_get t "project_id" VNone) (fun proj =>
  Py.bind (py_get t "scale_mul" (VFloat Float.one)) (fun m =>
  Py.bind (py_float m) (fun mul =>
  Py.bind (py_get t "scale_add" (VFloat Float.zero)) (fun a' =>
  Py.bind (py_float a') (fun add =>
  Py.bind (py_get t "writable" (VBool false)) (fun w =>
  Py.bind (py_get t "enabled" (VBool true)) (fun en =>
  Py.bind (py_get t "client_visible" (VList [])) (fun cv =>
  Ret (mkTag tid nm plc addr dt grp proj (VFloat mul) (VFloat add) VNone
             (VBool (truthy w)) desc (VBool (truthy en)) cv)
  ))))))))))))))))).

(** One turn of the loops: build the tag and add it to the store. *)
Definition create_one (t : pyval) : M TagStore pyval :=
  tag <- lift (tag_of_payload t) ;;
  iv <- lift (py_get t "initial_value" VNone) ;;
  TagStore.add_tag tag iv ;;;
  mret (tag_id tag).

Fixpoint add_tag_loop (tags : list pyval) (created : list pyval)
  : M TagStore response :=
  match tags with
  | [] => mret (_json_response (VDict [ ("created", VList created) ]) 201)
  | t :: rest =>
      fun ts =>
        match create_one t ts with
        | (ts', Ret tid) => add_tag_loop rest (created ++ [ tid ])%list ts'
        | (ts', Raise e) => (ts', Ret (jsonify (error_body (exn_msg e)) 400))
        end
  end.

(** [POST /api/v1/tags] *)
Definition add_tag (request_json : pyval) : M TagStore response :=
  let payload := py_or request_json (VDict []) in
  batch <- lift (py_contains payload "tags") ;;
  tags <- lift (if batch then Py.bind (py_getitem payload "tags") py_iter
                else Ret [ payload ]) ;;
  add_tag_loop tags [].

(** [_validate_tag_payload(d)] *)
Definition _validate_tag_payload (d : pyval) : bool * string :=
  match d with
  | VDict kvs =>
      let get k := match field kvs k with Some v => v | None => VNone end in
      let tag_id := py_or (get "tag_id") (get "name") in
      if negb (truthy tag_id) || negb (is_str tag_id)
      then (false, "tag_id or name is required and must be a string")
      else
        let dt := py_or (get "data_type") (VStr "Double") in
        if negb (is_str dt) then (false, "data_type must be a string")
        else (true, "")
  | _ => (false, "tag must be an object")
  end.

Fixpoint import_loop (tags : list pyval) (created : list pyval)
  : M TagStore response :=
  match tags with
  | [] => mret (_json_response (VDict [ ("imported", VList created) ]) 200)
  | t :: rest =>
      match _validate_tag_payload t with
      | (false, msg) => mret (jsonify (error_body msg) 400)
      | (true, _) =>
          tid <- create_one t ;;
          import_loop rest (created ++ [ tid ])%list
      end
  end.

(** [request.args.get('replace_all', 'false').lower() in ('1', 'true', 'yes')] *)
Definition replace_all_of (arg : option string) : bool :=
  let v := lower (txt (match arg with Some a => a | None => "false" end)) in
  Text.eqb v (txt "1") || Text.eqb v (txt "true") || Text.eqb v (txt "yes").

(** [PUT /api/v1/tags/import] *)
Definition import_tags (replace_all : option string) (request_json : pyval)
  : M TagStore response :=
  let payload := py_or request_json (VDict []) in
  tags <- lift (py_get payload "tags" VNone) ;;
  match tags with
  | VList l =>
      (if replace_all_of replace_all then clear_tags else mret tt) ;;;
      import_loop l []
  | _ => mret (_json_response (error_body "tags must be a list") 400)
  end.

(** [GET /api/v1/tags/<tag_id>] *)
Definition get_tag (tag_id : string) (ts : TagStore) : pyres response :=
  Py.bind (TagStore.get_tag (VStr tag_id) ts) (fun tag_o =>
  match tag_o with
  | None => Ret (_json_response (error_body "not found") 404)
  | Some tag =>
      Py.bind (get_value (Models.tag_id tag) ts) (fun val =>
      Py.bind (try_except (get_raw_value (Models.tag_id tag) ts)
                          (fun _ => Ret VNone)) (fun raw =>
      let out_val :=
        if is_Decimal raw && is_Decimal val then VStr (str (py_str val))
        else val in
      Ret (_json_response
             (VDict [ ("tag", VDict [
                ("tag_id", Models.tag_id tag);
                ("name", name tag);
                ("plc_id", plc_id tag);
                ("address", address tag);
                ("data_type", data_type tag);
                ("group_id", group_id tag);
                ("description", description tag);
                ("enabled", enabled tag);
                ("project_id", project_id tag);
                ("scale_mul", scale_mul tag);
                ("scale_add", scale_add tag);
                ("writable", writable tag);
                ("client_visible", client_visible tag);
                ("value", out_val) ]) ]) 200)))
  end).


End Api.

(** ** The reconnect engine and the health table ([plc_gateway_server.py]) *)

Module Gateway.

Local Open Scope Q_scope.

(** [RECONNECT_BASE], [RECONNECT_MAX]: module globals read from the
    environment, defaults [1.0] and [60.0]. *)
Definition RECONNECT_BASE_default : Q := 1.
Definition RECONNECT_MAX_default : Q := 60.

(** [float * int]: the int operand is first converted to a float. *)
Definition float_mul_int (x : Q) (k : Z) : pyres Q :=
  Py.bind (Float.of_int k) (fun _ => Ret (x * inject_Z k)).

(** [compute_backoff_delay(fail_count)] *)
Definition compute_backoff_delay (RECONNECT_BASE RECONNECT_MAX : Q)
    (fail_count : Z) : pyres Q :=
  if (fail_count <=? 0)%Z then Ret 0
  else
    Py.bind (float_mul_int RECONNECT_BASE (2 ^ Z.max 0 (fail_count - 1)))
            (fun x => Ret (Qmin x RECONNECT_MAX)).

(** One entry of [plc_health].  The key [last_backoff] is absent from
    the initial dictionaries, hence the option. *)
Record PLCHealth := mkHealth {
  ok : bool;
  last_success : Q;
  last_error : option string;
  fail_count : Z;
  recent_errors : list (Q * string);
  next_attempt : Q;
  last_backoff : option Q
}.

Definition health_init : PLCHealth :=
  mkHealth false 0 None 0%Z [] 0 None.

Definition set_ok b h :=
  mkHealth b (last_success h) (last_error h) (fail_count h)
           (recent_errors h) (next_attempt h) (last_backoff h).
Definition set_last_success t h :=
  mkHealth (ok h) t (last_error h) (fail_count h)
           (recent_errors h) (next_attempt h) (last_backoff h).
Definition set_last_error e h :=
  mkHealth (ok h) (last_success h) e (fail_count h)
           (recent_errors h) (next_attempt h) (last_backoff h).
Definition set_fail_count n h :=
  mkHealth (ok h) (last_success h) (last_error h) n
           (recent_errors h) (next_attempt h) (last_backoff h).
Definition set_recent_errors l h :=
  mkHealth (ok h) (last_success h) (last_error h) (fail_count h)
           l (next_attempt h) (last_backoff h).
Definition set_next_attempt t h :=
  mkHealth (ok h) (last_success h) (last_error h) (fail_count h)
           (recent_errors h) t (last_backoff h).
Definition set_last_backoff b h :=
  mkHealth (ok h) (last_success h) (last_error h) (fail_count h)
           (recent_errors h) (next_attempt h) b.

(** [deque(maxlen=10).append(x)]: the oldest entry falls out. *)
Definition deque_append {A} (maxlen : nat) (x : A) (l : list A) : list A :=
  let l' := (l ++ [x])%list in
  skipn (length l' - maxlen) l'.

(** A PLC driver as the helper sees it: the [connected] attribute,
    whether it has an [open] method, and what [connected] reads after
    [open()] has been called (whether or not the call raised). *)
Record driver := mkDriver {
  connected : bool;
  has_open : bool;
  connected_after_open : bool
}.

Definition driver_open (d : driver) : driver :=
  mkDriver (connected_after_open d) (has_open d) (connected_after_open d).

(** [getattr(driver, "connected", False)]; the variable may hold [None]. *)
Definition is_connected (d : option driver) : bool :=
  match d with Some d => connected d | None => false end.

(** [hasattr(driver, "open")] *)
Definition can_open (d : option driver) : bool :=
  match d with Some d => has_open d | None => false end.

(** What the helper and the read functions touch: the entry
    [plc_health[key]] (a dictionary object mutated in place), the driver
    object bound to the argument, and the number of calls made so far to
    [time.time()] (the k-th call returns [clk k]). *)
Record cell := mkCell {
  health : PLCHealth;
  driver_obj : option driver;
  time_calls : nat
}.

Definition on_health (f : PLCHealth -> PLCHealth) (c : cell) : cell :=
  mkCell (f (health c)) (driver_obj c) (time_calls c).

(** A read body between the connection test and the bookkeeping: there
    was nothing to read, the reads were carried out, or an exception
    escaped to the outer handler. *)
Inductive read_body :=
| NothingToRead
| ReadCompleted
| ReadRaised (e : exn).

Section Helper.

Variables RECONNECT_BASE RECONNECT_MAX : Q.
(** [GATEWAY_MOCK_FAIL_RECONNECT] and [GATEWAY_MOCK_PLC] are set. *)
Variables mock_fail_reconnect mock_plc : bool.
Variable clk : nat -> Q.

Local Open Scope py_scope.

Definition time_time : M cell Q :=
  fun c => (mkCell (health c) (driver_obj c) (S (time_calls c)),
            Ret (clk (time_calls c))).

(** [plc_health[key][field] = ...] *)
Definition health_set (f : PLCHealth -> PLCHealth) : M cell unit :=
  mmodify (on_health f).

Definition health_get : M cell PLCHealth :=
  fun c => (c, Ret (health c)).

(** The bookkeeping shared by every failure branch of the helper:
    append to [recent_errors], increment [fail_count], compute the
    delay, record [next_attempt] and [last_backoff]. *)
Definition record_backoff (msg : string) : M cell unit :=
  t <- time_time ;;
  health_set (fun h => set_recent_errors
                         (deque_append 10 (t, msg) (recent_errors h)) h) ;;;
  health_set (fun h => set_fail_count (fail_count h + 1)%Z h) ;;;
  h <- health_get ;;
  let fc := fail_count h in
  delay <- lift (compute_backoff_delay RECONNECT_BASE RECONNECT_MAX fc) ;;
  t' <- time_time ;;
  health_set (set_next_attempt (t' + delay)) ;;;
  health_set (set_last_backoff (Some delay)).

(** [fail_count = 0; next_attempt = 0] of the connected branches. *)
Definition mark_connected : M cell unit :=
  health_set (set_fail_count 0%Z) ;;;
  health_set (set_next_attempt 0).

Definition current_driver : M cell (option driver) :=
  fun c => (c, Ret (driver_obj c)).

(** [driver.open()] inside [try: ... except Exception: pass] *)
Definition open_current_driver : M cell unit :=
  mmodify (fun c => mkCell (health c) (option_map driver_open (driver_obj c))
                           (time_calls c)).

Definition is_None {A} (o : option A) : bool :=
  match o with None => true | Some _ => false end.

(** The body of [try_reconnect_helper(driver, driver_cls, ip, key)] on
    the entry [plc_health[key]].  [driver] is [driver_obj] of the
    state; [driver_cls] is the outcome of the call [driver_cls(ip)].
    The result is the driver returned. *)
Definition reconnect_body (driver_cls : pyres driver)
  : M cell (option driver) :=
  mtry
    (now <- time_time ;;
     h <- health_get ;;
     if negb (Qle_bool (next_attempt h) now) then current_driver
     else
       d <- current_driver ;;
       (if mock_fail_reconnect && is_None d && negb mock_plc
        then record_backoff "forced reconnect failure (test)"
        else mret tt) ;;;
       if is_connected d then mark_connected ;;; current_driver
       else
         (if can_open d then open_current_driver else mret tt) ;;;
         d' <- current_driver ;;
         if can_open d && is_connected d'
         then mark_connected ;;; current_driver
         else
           mtry
             (newdrv <- lift driver_cls ;;
              let newdrv := if has_open newdrv then driver_open newdrv
                            else newdrv in
              (if connected newdrv then mark_connected else mret tt) ;;;
              mret (Some newdrv))
             (fun e =>
                record_backoff ("recreate error: " ++ exn_msg e) ;;;
                current_driver))
    (fun e =>
       record_backoff ("reconnect error: " ++ exn_msg e) ;;;
       current_driver).

(** The health bookkeeping of [read_compactlogix_tags] and
    [read_slc500_tags] (the two functions differ in the key they
    address and in how they issue the reads).  [stop] is
    [stop_event is not None and stop_event.is_set()]. *)
Definition read_body_health (stop : bool) (body : read_body) : M cell unit :=
  mtry
    (if stop then mret tt
     else
       plc <- current_driver ;;
       if negb (is_connected plc) then
         health_set (set_ok false) ;;;
         health_set (set_last_error (Some "not connected"))
       else
         match body with
         | NothingToRead => mret tt
         | ReadRaised e => mraise e
         | ReadCompleted =>
             health_set (set_ok true) ;;;
             t <- time_time ;;
             health_set (set_last_success t) ;;;
             health_set (set_last_error None) ;;;
             health_set (set_fail_count 0%Z) ;;;
             health_set (set_next_attempt 0)
         end)
    (fun e =>
       health_set (set_ok false) ;;;
       health_set (set_last_error (Some (exn_msg e))) ;;;
       health_set (fun h => set_fail_count (fail_count h + 1)%Z h) ;;;
       t <- time_time ;;
       health_set (fun h => set_recent_errors
                              (deque_append 10 (t, exn_msg e) (recent_errors h)) h)).

(** Running a body on the entry under [key] of the table.  Every
    statement of these functions addresses [plc_health[key]]; with the
    key absent the first one raises [KeyError] inside the [try], the
    handler raises it again, and the table is left as it was. *)
Definition at_key {A} (key : string) (d : option driver) (m : M cell A)
    (table : gmap string PLCHealth)
  : gmap string PLCHealth * option driver * pyres A :=
  match table !! key with
  | None => (table, d, Raise (Exn KeyError key))
  | Some h =>
      let '(c, r) := m (mkCell h d 0%nat) in
      (<[key := health c]> table, driver_obj c, r)
  end.

(** [try_reconnect_helper(driver, driver_cls, ip, key)]: the new table,
    the state of the object [driver], and the driver returned. *)
Definition try_reconnect_helper (drv : option driver)
    (driver_cls : pyres driver) (key : string)
    (plc_health : gmap string PLCHealth) :=
  at_key key drv (reconnect_body driver_cls) plc_health.

Definition read_compactlogix_tags (plc : option driver) (stop : bool)
    (body : read_body) (plc_health : gmap string PLCHealth) :=
  at_key "compactlogix" plc (read_body_health stop body) plc_health.

Definition read_slc500_tags (plc : option driver) (stop : bool)
    (body : read_body) (plc_health : gmap string PLCHealth) :=
  at_key "slc500" plc (read_body_health stop body) plc_health.

(** The mock start-up of [run_opcua_server]: with
    [GATEWAY_MOCK_FAIL_RECONNECT] set, a synthetic failure is recorded
    for [compactlogix] before the poller starts. *)
Definition mock_prepopulate (plc_health : gmap string PLCHealth) :=
  if mock_fail_reconnect
  then at_key "compactlogix" None
              (record_backoff "forced reconnect failure (test)") plc_health
  else (plc_health, None, Ret tt).

(** One entry of the [/api/v1/hmi/health] snapshot. *)
Record health_json := mkHealthJson {
  j_ok : bool;
  j_last_success : Q;
  j_last_error : option string;
  j_fail_count : Z;
  j_next_attempt : Q;
  j_last_backoff : Q;
  j_recent_errors : list (Q * string)
}.

Definition health_snapshot (v : PLCHealth) : health_json :=
  let fb :=
    match last_backoff v with
    | Some b => b
    | None =>
        match compute_backoff_delay RECONNECT_BASE RECONNECT_MAX (fail_count v) with
        | Ret d => d
        | Raise _ => 0
        end
    end in
  mkHealthJson (ok v) (last_success v) (last_error v) (fail_count v)
               (next_attempt v) fb (recent_errors v).

(** [GET /api/v1/hmi/health] *)
Record health_response := mkHealthResponse {
  h_status : string;
  h_timestamp : Q;
  h_last_plc_update : Q;
  h_age_seconds : option Q;
  h_tags_available : list PyVal.pyval;
  h_plc_health : gmap string health_json
}.

Definition get_hmi_health (now : Q) (plc_last_update : Q)
    (tag_store : TagStore.TagStore) (plc_health : gmap string PLCHealth)
  : health_response :=
  let last := plc_last_update in
  let age := if Qeq_bool last 0 then None else Some (now - last) in
  let healthy :=
    negb (Qeq_bool last 0)
    && match age with
       | Some a => negb (Qle_bool 5 a)
       | None => false
       end in
  mkHealthResponse (if healthy then "ok" else "degraded") now last age
                   (map fst (TagStore.snapshot tag_store))
                   (health_snapshot <$> plc_health).

End Helper.

(** *** Invariants of a health entry *)

(** [last_backoff], with the absent key read as [0.0]
    ([.get('last_backoff', 0.0)]). *)
Definition last_backoff_or_zero (h : PLCHealth) : Q :=
  match last_backoff h with Some b => b | None => 0 end.

(** The invariant as the specification words it. *)
Definition health_inv (h : PLCHealth) : Prop :=
  fail_count h = 0%Z <->
  (next_attempt h == 0 /\ last_backoff_or_zero h == 0).

(** What the code maintains: a cleared failure count comes with an open
    gate. *)
Definition gate_inv (h : PLCHealth) : Prop :=
  (0 <= fail_count h)%Z /\ (fail_count h = 0%Z -> next_attempt h == 0).

(** A recorded backoff is positive; while none is recorded the gate is
    open and at most one failure is counted. *)
Definition backoff_inv (h : PLCHealth) : Prop :=
  (0 <= fail_count h)%Z
  /\ (forall b, last_backoff h = Some b -> 0 < b)
  /\ (last_backoff h = None ->
      next_attempt h == 0 /\ (fail_count h <= 1)%Z).

(** A property of every entry of the table. *)
Definition table_inv (P : PLCHealth -> Prop) (t : gmap string PLCHealth)
  : Prop :=
  forall k h, t !! k = Some h -> P h.

(** The driver handed to a read is connected only with a cleared
    failure count, unless a backoff is on record. *)
Definition handed_on (d : option driver) (h : PLCHealth) : Prop :=
  last_backoff h = None -> is_connected d = true -> fail_count h = 0%Z.

(** The entry after the first two statements of a failure branch. *)
Definition backoff_failed (t : Q) (msg : string) (h : PLCHealth)
  : PLCHealth :=
  set_fail_count (fail_count h + 1)%Z
    (set_recent_errors (deque_append 10 (t, msg) (recent_errors h)) h).

(** *** The poll loop, as far as the health table is concerned

    [plc_data_poller] calls [try_reconnect_helper] for a controller and
    then, with the driver it returned, the read function of that
    controller; the two controllers proceed independently.
    [awaiting_read] holds, for a controller whose reconnect step has run
    in the current cycle, the driver its read will be given. *)
Record poller := mkPoller {
  table : gmap string PLCHealth;
  awaiting_read : gmap string (option driver);
  plc_last_update : Q
}.

Definition controller (key : string) : Prop :=
  key = "compactlogix" \/ key = "slc500".

(** The reads of a controller, by key. *)
Definition read_tags (clk : nat -> Q) (key : string) :=
  if String.eqb key "compactlogix"
  then read_compactlogix_tags clk
  else read_slc500_tags clk.

Section Poller.

Variables RECONNECT_BASE RECONNECT_MAX : Q.
Variables mock_fail_reconnect mock_plc : bool.

Definition start_table (ok_compact ok_slc : bool) : gmap string PLCHealth :=
  <[ "compactlogix" := set_ok ok_compact health_init ]>
    (<[ "slc500" := set_ok ok_slc health_init ]> ∅).

Inductive poller_start : poller -> Prop :=
| start_plain ok_c ok_s :
    poller_start (mkPoller (start_table ok_c ok_s) ∅ 0)
| start_mock clk t d r :
    mock_plc = true ->
    (forall n, 0 <= clk n) ->
    mock_prepopulate RECONNECT_BASE RECONNECT_MAX mock_fail_reconnect clk
                     (start_table true true) = (t, d, r) ->
    poller_start (mkPoller t ∅ 0).

Inductive poller_step : poller -> poller -> Prop :=
| step_reconnect p key clk drv cls t d r :
    controller key ->
    awaiting_read p !! key = None ->
    (forall n, 0 <= clk n) ->
    try_reconnect_helper RECONNECT_BASE RECONNECT_MAX
      mock_fail_reconnect mock_plc clk drv cls key (table p) = (t, d, r) ->
    poller_step p
      (mkPoller t
         (<[ key := match r with Ret d' => d' | Raise _ => d end ]>
            (awaiting_read p))
         (plc_last_update p))
| step_read p key clk given plc stop body t d r :
    controller key ->
    awaiting_read p !! key = Some given ->
    (is_connected plc = true -> is_connected given = true) ->
    read_tags clk key plc stop body (table p) = (t, d, r) ->
    poller_step p
      (mkPoller t (delete key (awaiting_read p)) (plc_last_update p))
| step_timestamp p now :
    poller_step p (mkPoller (table p) (awaiting_read p) now).

(** The states of the health table a request can meet. *)
Inductive observable : poller -> Prop :=
| observable_start p : poller_start p -> observable p
| observable_step p p' : observable p -> poller_step p p' -> observable p'.

Definition poller_inv (p : poller) : Prop :=
  forall key h, table p !! key = Some h ->
    backoff_inv h
    /\ (forall given, awaiting_read p !! key = Some given ->
        handed_on given h).

End Poller.

(** *** Sample runs *)

Definition clock0 : nat -> Q := fun n => inject_Z (1700000000 + Z.of_nat n).
Definition up_driver : driver := mkDriver true true true.
Definition down_driver : driver := mkDriver false true false.
Definition boom : exn := Exn RuntimeError "boom".

(** The table after one reconnect step that could neither open the
    driver nor construct a new one. *)
Definition after_failed_reconnect : gmap string PLCHealth :=
  (try_reconnect_helper 1 60 false false clock0 (Some down_driver)
     (Raise boom) "compactlogix" (start_table true true)).1.1.

Definition poller0 : poller := mkPoller (start_table true true) ∅ 0.

Definition poller1 : poller :=
  mkPoller after_failed_reconnect
           (<[ "compactlogix" := Some down_driver ]> ∅) 0.

Definition health1 : PLCHealth :=
  mkHealth true 0 None 1
           [ (clock0 1, "recreate error: boom") ]
           (clock0 2 + 1) (Some 1).

End Gateway.

(** ** The shape of the texts that [str] and [repr] write

    Notions the round-trip proofs are stated with. *)

Module DecimalSyntax.

Local Open Scope list_scope.

Import Text.

Definition dstep (acc : N) (c : ascii) : N := (10 * acc + digit_val c)%N.

(** Characters that [strip] and [replace("_", "")] leave alone. *)
Definition solid (c : ascii) : bool :=
  negb (is_space c) && negb (Ascii.eqb c "_").

Import PyDecimal.

(** What may follow the digits: nothing, or an exponent as [str] of a
    decimal or [repr] of a float writes it. *)
Definition exp_part (x : Z) (ex : chars) : Prop :=
  (ex = [] /\ x = 0) \/ ex = "E"%char :: signed_exponent x
  \/ ex = Float.repr_exponent x.

End DecimalSyntax.

(** ** The behaviour of the tag store and the serializer, in the
    specification's terms, and sample stores *)

Module TagSpec.

Local Open Scope list_scope.

Import Text PyVal Models TagStore PyDecimal.

(** *** Type defaults *)

(** The Boolean and numeric data types of the specification. *)
Inductive DataType :=
| Boolean | Int16 | Int32 | Int64 | UInt32 | Float32 | Double.

Definition data_type_name (T : DataType) : string :=
  match T with
  | Boolean => "Boolean"
  | Int16 => "Int16"
  | Int32 => "Int32"
  | Int64 => "Int64"
  | UInt32 => "UInt32"
  | Float32 => "Float"
  | Double => "Double"
  end.

(** The default the specification gives a tag of a numeric or Boolean
    type added without a value. *)
Definition type_default (T : DataType) : pyval :=
  match T with
  | Boolean => VBool false
  | Int16 | Int32 | Int64 | UInt32 => VInt 0
  | Float32 | Double => VFloat Float.zero
  end.

(** *** Scaling *)

(** [mul == 1.0 and add == 0.0] for the factors [get_value] reads off a
    tag. *)
Definition default_scaling (tag : Tag) : bool :=
  Float.eqb (float_or (scale_mul tag) Float.one) Float.one
  && Float.eqb (float_or (scale_add tag) Float.zero) Float.zero.


(** The decimal that [repr] of a float denotes: the shortest digits that
    read back as the float, at their exponent; in positional notation an
    integral float is written with one zero after the point. *)
Definition decimal_of_float (f : Float.float) : Dec :=
  match f with
  | S754_zero s => Finite s 0 (-1)
  | S754_infinity s => Infinity s
  | S754_nan => NaN false false 0
  | S754_finite s m e =>
      let '(d, k) := Float.shortest m e in
      if (0 <=? k) && (k + ndigits (Z.to_N d) <=? 16)
      then Finite s (Z.to_N d * 10 ^ Z.to_N (k + 1)) (-1)
      else Finite s (Z.to_N d) k
  end.


(** [num * Decimal(str(mul)) + Decimal(str(add))] in the context. *)
Definition scaled_decimal (num : Dec) (mul add : Float.float) : pyres Dec :=
  Py.bind (PyDecimal.mul num (decimal_of_float mul)) (fun prod =>
  PyDecimal.add prod (decimal_of_float add)).

(** What [get_value] returns for a value that is not a boolean. *)
Definition scaling_value (tag : Tag) (raw : pyval) : pyval :=
  match raw with
  | VNone => VNone
  | _ =>
      match decimal_of raw with
      | Raise _ => raw
      | Ret d =>
          if default_scaling tag then
            if is_None (decimals tag) then VDecimal d
            else
              match quantize_to d (decimals tag) with
              | Ret q => VDecimal q
              | Raise _ => raw
              end
          else
            match scaled_decimal d (float_or (scale_mul tag) Float.one)
                    (float_or (scale_add tag) Float.zero) with
            | Raise _ => raw
            | Ret scaled =>
                if is_None (decimals tag) then VDecimal scaled
                else
                  match quantize_to scaled (decimals tag) with
                  | Ret q => VDecimal q
                  | Raise _ => VDecimal scaled
                  end
            end
      end
  end.

(** *** Serialization *)



(** *** Sample tags and stores *)

(** [Tag(tag_id=id, name=id, plc_id='plc_1', address='', data_type=dt)] *)
Definition sample_tag (id dt : string) : Tag :=
  mkTag (VStr id) (VStr id) (VStr "plc_1") (VStr "") (VStr dt) (VStr "default")
        VNone (VFloat Float.one) (VFloat Float.zero) VNone (VBool false) VNone
        (VBool true) (VList []).

Definition with_decimals (tag : Tag) (dec : pyval) : Tag :=
  mkTag (tag_id tag) (name tag) (plc_id tag) (address tag) (data_type tag)
        (group_id tag) (project_id tag) (scale_mul tag) (scale_add tag) dec
        (writable tag) (description tag) (enabled tag) (client_visible tag).

Definition with_scaling (tag : Tag) (mul add : pyval) : Tag :=
  mkTag (tag_id tag) (name tag) (plc_id tag) (address tag) (data_type tag)
        (group_id tag) (project_id tag) mul add (decimals tag)
        (writable tag) (description tag) (enabled tag) (client_visible tag).

(** The store after [add_tag(tag, initial_value=raw)] on an empty one. *)
Definition store_of (tag : Tag) (raw : pyval) : TagStore :=
  mkStore [(tag_id tag, tag)] [(tag_id tag, raw)].

Definition store_with_t1 : TagStore :=
  store_of (sample_tag "t1" "Int32") (VInt 5).

(** The body [{"tag_id": "t1", "data_type": "Double"}]. *)
Definition repost_t1 : list (string * pyval) :=
  [("tag_id", VStr "t1"); ("data_type", VStr "Double")].


(** The floats [0.5], [0.25] and [2.0]. *)
Definition float_half : Float.float := S754_finite false (2 ^ 52) (-53).
Definition float_quarter : Float.float := S754_finite false (2 ^ 52) (-54).

Definition wide_store : TagStore :=
  store_of (with_decimals (sample_tag "t1" "Double") (VInt 2)) (VInt (10 ^ 30)).

(** One decimal place, [value * 0.5 + 0.25]. *)
Definition scaled_tag : Tag :=
  with_scaling (with_decimals (sample_tag "t1" "Double") (VInt 1))
    (VFloat float_half) (VFloat float_quarter).

Definition scaled_store : TagStore := store_of scaled_tag (VInt 3).

Definition decimal_1_2300 : Dec := Finite false 12300 (-4).




End TagSpec.

(** ** The rest of the tag store and of the REST surface *)

Module StoreOps.

Local Open Scope list_scope.
Local Open Scope py_scope.

Import Text PyVal Models TagStore.

(** *** [tag_store.py]: the remaining operations *)

(** Besides its fields a [Tag] object has only the special attributes
    of every object, whose names begin with two underscores. *)
Definition special (k : string) : bool := String.prefix "__" k.

Definition plain_names (kwargs : list (string * pyval)) : Prop :=
  forall kv, In kv kwargs -> special (fst kv) = false.

(** [if hasattr(t, k): setattr(t, k, v)] for a name [k] that is not
    special: the field [k] is assigned, and a name that is no field
    leaves the tag as it is. *)
Definition set_field (k : string) (v : pyval) (t : Tag) : Tag :=
  if String.eqb k "tag_id" then
    mkTag v (name t) (plc_id t) (address t) (data_type t) (group_id t)
          (project_id t) (scale_mul t) (scale_add t) (decimals t)
          (writable t) (description t) (enabled t) (client_visible t)
  else if String.eqb k "name" then
    mkTag (tag_id t) v (plc_id t) (address t) (data_type t) (group_id t)
          (project_id t) (scale_mul t) (scale_add t) (decimals t)
          (writable t) (description t) (enabled t) (client_visible t)
  else if String.eqb k "plc_id" then
    mkTag (tag_id t) (name t) v (address t) (data_type t) (group_id t)
          (project_id t) (scale_mul t) (scale_add t) (decimals t)
          (writable t) (description t) (enabled t) (client_visible t)
  else if String.eqb k "address" then
    mkTag (tag_id t) (name t) (plc_id t) v (data_type t) (group_id t)
          (project_id t) (scale_mul t) (scale_add t) (decimals t)
          (writable t) (description t) (enabled t) (client_visible t)
  else if String.eqb k "data_type" then
    mkTag (tag_id t) (name t) (plc_id t) (address t) v (group_id t)
          (project_id t) (scale_mul t) (scale_add t) (decimals t)
          (writable t) (description t) (enabled t) (client_visible t)
  else if String.eqb k "group_id" then
    mkTag (tag_id t) (name t) (plc_id t) (address t) (data_type t) v
          (project_id t) (scale_mul t) (scale_add t) (decimals t)
          (writable t) (description t) (enabled t) (client_visible t)
  else if String.eqb k "project_id" then
    mkTag (tag_id t) (name t) (plc_id t) (address t) (data_type t) (group_id t)
          v (scale_mul t) (scale_add t) (decimals t)
          (writable t) (description t) (enabled t) (client_visible t)
  else if String.eqb k "scale_mul" then
    mkTag (tag_id t) (name t) (plc_id t) (address t) (data_type t) (group_id t)
          (project_id t) v (scale_add t) (decimals t)
          (writable t) (description t) (enabled t) (client_visible t)
  else if String.eqb k "scale_add" then
    mkTag (tag_id t) (name t) (plc_id t) (address t) (data_type t) (group_id t)
          (project_id t) (scale_mul t) v (decimals t)
          (writable t) (description t) (enabled t) (client_visible t)
  else if String.eqb k "decimals" then
    mkTag (tag_id t) (name t) (plc_id t) (address t) (data_type t) (group_id t)
          (project_id t) (scale_mul t) (scale_add t) v
          (writable t) (description t) (enabled t) (client_visible t)
  else if String.eqb k "writable" then
    mkTag (tag_id t) (name t) (plc_id t) (address t) (data_type t) (group_id t)
          (project_id t) (scale_mul t) (scale_add t) (decimals t)
          v (description t) (enabled t) (client_visible t)
  else if String.eqb k "description" then
    mkTag (tag_id t) (name t) (plc_id t) (address t) (data_type t) (group_id t)
          (project_id t) (scale_mul t) (scale_add t) (decimals t)
          (writable t) v (enabled t) (client_visible t)
  else if String.eqb k "enabled" then
    mkTag (tag_id t) (name t) (plc_id t) (address t) (data_type t) (group_id t)
          (project_id t) (scale_mul t) (scale_add t) (decimals t)
          (writable t) (description t) v (client_visible t)
  else if String.eqb k "client_visible" then
    mkTag (tag_id t) (name t) (plc_id t) (address t) (data_type t) (group_id t)
          (project_id t) (scale_mul t) (scale_add t) (decimals t)
          (writable t) (description t) (enabled t) v
  else t.

(** [for k, v in kwargs.items(): if hasattr(t, k): setattr(t, k, v)] *)
Definition set_fields (kwargs : list (string * pyval)) (t : Tag) : Tag :=
  fold_left (fun t kv => set_field (fst kv) (snd kv) t) kwargs t.

(** [update_tag(tag_id, **kwargs)]: the stored [Tag] object is changed
    in place, so the entry keeps its key and its position.  Every key of
    the store holds a [Tag] object of its own, as the handlers of
    [api.py] construct them. *)
Definition update_tag (tag_id : pyval) (kwargs : list (string * pyval))
  : M TagStore bool :=
  fun ts =>
    match dict_get tag_id (_tags ts) with
    | Raise e => (ts, Raise e)
    | Ret None => (ts, Ret false)
    | Ret (Some t) =>
        (mkStore (dict_store tag_id (set_fields kwargs t) (_tags ts))
                 (_values ts),
         Ret true)
    end.

(** One element of [list_tags()]. *)
Definition tag_dict (t : Tag) : list (string * pyval) :=
  [ ("tag_id", tag_id t); ("name", name t); ("plc_id", plc_id t);
    ("address", address t); ("data_type", data_type t);
    ("group_id", group_id t); ("project_id", project_id t);
    ("scale_mul", scale_mul t); ("scale_add", scale_add t);
    ("decimals", decimals t); ("writable", writable t);
    ("description", description t); ("enabled", enabled t);
    ("client_visible", client_visible t) ].

Import Api.

(** The fields [PATCH] may update. *)
Definition allowed : list string :=
  [ "name"; "plc_id"; "address"; "data_type"; "group_id"; "description";
    "enabled"; "project_id"; "scale_mul"; "scale_add"; "writable";
    "client_visible" ].

Definition is_allowed (k : string) : bool := existsb (String.eqb k) allowed.

(** [{k: v for k, v in payload.items() if k in allowed}] *)
Definition updates_of (kvs : list (string * pyval)) : list (string * pyval) :=
  List.filter (fun kv => is_allowed (fst kv)) kvs.

Definition has_key (kvs : list (string * pyval)) (k : string) : bool :=
  match field kvs k with Some _ => true | None => false end.

(** [PATCH /api/v1/tags/<tag_id>] *)
Definition patch_tag (tag_id : string) (request_json : pyval)
  : M TagStore response :=
  let payload := py_or request_json (VDict []) in
  if negb (truthy payload)
  then mret (_json_response (error_body "empty payload") 400)
  else
    match payload with
    | VDict kvs =>
        let updates := updates_of kvs in
        if negb (truthy (VDict updates)) && negb (has_key kvs "value")
        then mret (jsonify (error_body "no updatable fields provided") 400)
        else
          tag <- (fun ts => (ts, TagStore.get_tag (VStr tag_id) ts)) ;;
          match tag with
          | None => mret (_json_response (error_body "not found") 404)
          | Some _ =>
              (if truthy (VDict updates)
               then update_tag (VStr tag_id) updates ;;; mret tt
               else mret tt) ;;;
              match field kvs "value" with
              | Some v =>
                  mtry (set_value (VStr tag_id) v ;;;
                        mret (jsonify (VDict [ ("updated", VStr tag_id) ]) 200))
                       (fun e => mret (jsonify (error_body (exn_msg e)) 400))
              | None => mret (jsonify (VDict [ ("updated", VStr tag_id) ]) 200)
              end
          end
    | _ =>
        mraise (Exn AttributeError
                  ("'" ++ type_name payload ++ "' object has no attribute 'items'"))
    end.

(** [DELETE /api/v1/tags/<tag_id>] *)
Definition delete_tag (tag_id : string) : M TagStore response :=
  tag <- (fun ts => (ts, TagStore.get_tag (VStr tag_id) ts)) ;;
  match tag with
  | None => mret (_json_response (error_body "not found") 404)
  | Some _ =>
      remove_tag (VStr tag_id) ;;;
      mret (_json_response (VDict [ ("deleted", VStr tag_id) ]) 200)
  end.

(** *** Invariant of the store *)

(** Keys are unique, and every tag has a value entry. *)
Definition store_ok (ts : TagStore) : Prop :=
  List.NoDup (map fst (_tags ts))
  /\ List.NoDup (map fst (_values ts))
  /\ (forall k, In k (map fst (_tags ts)) -> In k (map fst (_values ts))).

(** What [list_tags()] shows under the field [k] of the tag [id]. *)
Definition shown (ts : TagStore) (id k : string) : option pyval :=
  match dict_lookup (VStr id) (_tags ts) with
  | Some t => field (tag_dict t) k
  | None => None
  end.

Import TagSpec.

(** *** [PUT /api/v1/tags/import] *)
Definition payload_field (kvs : list (string * pyval)) (k : string) : pyval :=
  match field kvs k with Some v => v | None => VNone end.

End StoreOps.

(** ** The rest of the gateway: error codes, OPC UA values, the reads
    and the outcomes of a reconnect *)

Module GatewayOps.

Import StoreOps.
Local Open Scope list_scope.

Import Text PyVal Models TagStore.

(** *** Error codes *)

(** [normalize_error_code(msg)] *)
Definition normalize_error_code (msg : string) : string :=
  if negb (truthy (VStr msg)) then "UNKNOWN"
  else
    let m := lower (txt msg) in
    if contains (txt "forced reconnect") m
       || contains (txt "forced reconnect failure") m
    then "FORCED_RECONNECT"
    else if contains (txt "recreate error") m then "RECREATE_ERROR"
    else if contains (txt "not connected") m then "NOT_CONNECTED"
    else if contains (txt "timeout") m || contains (txt "timed out") m
    then "TIMEOUT"
    else if contains (txt "socket") m || contains (txt "socket_timeout") m
    then "SOCKET_ERROR"
    else "OTHER".

(** *** OPC UA variants *)

(** The members of [ua.VariantType] the gateway uses. *)
Inductive VariantType :=
| ua_Boolean | ua_UInt32 | ua_Int64 | ua_Float | ua_Double | ua_String.

(** The chain of tests on the lower-cased data type, written out twice in
    the source (in [run_opcua_server] and in [_create_opcua_node_async]). *)
Definition variant_of_text (d : chars) : VariantType :=
  if contains (txt "bool") d then ua_Boolean
  else if contains (txt "uint") d then ua_UInt32
  else if contains (txt "int") d then ua_Int64
  else if contains (txt "float") d then ua_Float
  else if contains (txt "double") d then ua_Double
  else if contains (txt "string") d || contains (txt "str") d then ua_String
  else ua_Double.

(** [_dtype_to_variant(dt)] of [run_opcua_server] *)
Definition _dtype_to_variant (dt : pyval) : pyres VariantType :=
  if negb (truthy dt) then Ret ua_Double
  else Py.bind (py_lower dt) (fun d => Ret (variant_of_text d)).

(** The same mapping in [_create_opcua_node_async], inside
    [try: ... except Exception: vtype = ua.VariantType.Double]. *)
Definition node_variant (dt : pyval) : VariantType :=
  match _dtype_to_variant dt with
  | Ret v => v
  | Raise _ => ua_Double
  end.

(** [_normalize_for_opc(value, vartype)] *)
Definition _normalize_for_opc (value : pyval) (vartype : option VariantType)
  : pyval :=
  let body :=
    match value with
    | VDecimal d =>
        let typed : pyres (option pyval) :=
          match vartype with
          | Some ua_Int64 | Some ua_UInt32 =>
              Py.bind (PyDecimal.to_int d) (fun z => Ret (Some (VInt z)))
          | Some ua_Boolean => Ret (Some (VBool (PyDecimal.truthy d)))
          | _ => Ret None
          end in
        match try_except typed (fun _ => Ret None) with
        | Ret (Some v) => Ret v
        | _ => Py.bind (PyDecimal.to_float d) (fun f => Ret (VFloat f))
        end
    | _ => Ret value
    end in
  match body with
  | Ret v => v
  | Raise _ => value
  end.




(** *** The tags a read addresses *)

(** [t.get('plc_id') == plc and t.get('enabled', True)] *)
Definition selected (plc : string) (t : Tag) : bool :=
  py_eqb (plc_id t) (VStr plc) && truthy (enabled t).

(** [compact_tags], [slc_tags] *)
Definition plc_tags (plc : string) (ts : TagStore) : list Tag :=
  List.filter (selected plc) (list_tags ts).

(** [addresses = [t.get('address') for t in compact_tags if t.get('address')]] *)
Definition addresses (tags : list Tag) : list pyval :=
  map address (List.filter (fun t => truthy (address t)) tags).

(** [tag_ids = [t.get('tag_id') for t in compact_tags]] *)
Definition tag_ids (tags : list Tag) : list pyval := map tag_id tags.

(** [zip(tag_ids, addresses)] of the per-address reads of CompactLogix. *)
Definition compact_reads (ts : TagStore) : list (pyval * pyval) :=
  combine (tag_ids (plc_tags "compactlogix" ts))
          (addresses (plc_tags "compactlogix" ts)).

Import TagSpec.

(** Two CompactLogix tags with addresses, and the same with the first
    address missing. *)
Definition logix_tag (id addr : string) : Tag :=
  set_field "address" (VStr addr)
    (set_field "plc_id" (VStr "compactlogix") (sample_tag id "Double")).

Definition logix_store : TagStore :=
  mkStore [(VStr "a", logix_tag "a" "A"); (VStr "b", logix_tag "b" "B")]
          [(VStr "a", VFloat Float.zero); (VStr "b", VFloat Float.zero)].

Definition logix_store_gap : TagStore :=
  mkStore [(VStr "a", logix_tag "a" ""); (VStr "b", logix_tag "b" "B")]
          [(VStr "a", VFloat Float.zero); (VStr "b", VFloat Float.zero)].

Import Gateway.

(** *** The reconnect helper *)

(** The bounds a health entry keeps. *)
Definition bounded_inv (Mx : Q) (h : PLCHealth) : Prop :=
  (0 <= fail_count h)%Z
  /\ (length (recent_errors h) <= 10)%nat
  /\ (forall b, last_backoff h = Some b -> (b <= Mx)%Q).

(** The driver object after the helper's attempt to open it. *)
Definition after_open (d : option driver) : option driver :=
  if can_open d then option_map driver_open d else d.

(** A constructed driver after the helper's attempt to open it. *)
Definition opened (nd : driver) : driver :=
  if has_open nd then driver_open nd else nd.

(** The entry after a failed reconnect at failure count [fail_count h]. *)
Definition failed_entry (B Mx : Q) (clk : nat -> Q) (msg : string)
    (h : PLCHealth) : PLCHealth :=
  let delay := Qmin (B * inject_Z (2 ^ fail_count h)) Mx in
  mkHealth (ok h) (last_success h) (last_error h) (fail_count h + 1)
           (deque_append 10 (clk 1%nat, msg) (recent_errors h))
           (clk 2%nat + delay)%Q (Some delay).

(** The entry after a connection was found or made. *)
Definition connected_entry (h : PLCHealth) : PLCHealth :=
  mkHealth (ok h) (last_success h) (last_error h) 0
           (recent_errors h) 0%Q (last_backoff h).

(** A driver that is down and comes up when opened. *)
Definition waking_driver : driver := mkDriver false true true.

(** An entry with three failures on record whose gate has opened. *)
Definition health3 : PLCHealth :=
  mkHealth false 0 (Some "boom") 3 [ (clock0 0, "boom") ] (clock0 0) (Some 4%Q).

Definition table3 : gmap string PLCHealth :=
  <[ "compactlogix" := health3 ]> (start_table true true).

End GatewayOps.

(** * Properties *)

(** ** Reasoning about stateful code *)

Section WpRules.
Context {S : Type}.
Implicit Types s : S.

Lemma wp_ret {A} (a : A) (Q : A -> S -> Prop) E s :
  Q a s -> wp (mret a) Q E s.
Proof. intros H. exact H. Qed.

Lemma wp_bind {A B} (m : M S A) (k : A -> M S B) Q E s :
  wp m (fun a => wp (k a) Q E) E s -> wp (mbind m k) Q E s.
Proof.
  unfold wp, mbind. destruct (m s) as [s' [a|e]]; intros H; exact H.
Qed.

Lemma wp_try {A} (m : M S A) (h : exn -> M S A) Q E s :
  wp m Q (fun e => wp (h e) Q E) s -> wp (mtry m h) Q E s.
Proof.
  unfold wp, mtry. destruct (m s) as [s' [a|e]]; intros H; exact H.
Qed.

Lemma wp_lift {A} (r : pyres A) (Q : A -> S -> Prop) E s :
  match r with Ret a => Q a s | Raise e => E e s end -> wp (lift r) Q E s.
Proof. intros H. exact H. Qed.

Lemma wp_mono {A} (m : M S A) (Q Q' : A -> S -> Prop)
    (E E' : exn -> S -> Prop) s :
  wp m Q E s ->
  (forall a s', Q a s' -> Q' a s') ->
  (forall e s', E e s' -> E' e s') ->
  wp m Q' E' s.
Proof.
  unfold wp. destruct (m s) as [s' [a|e]]; intros H HQ HE; auto.
Qed.

(** Sequencing through an intermediate assertion. *)
Lemma wp_seq {A B} (m : M S A) (k : A -> M S B) (I : A -> S -> Prop) Q E s :
  wp m I E s ->
  (forall a s', I a s' -> wp (k a) Q E s') ->
  wp (mbind m k) Q E s.
Proof.
  intros Hm Hk. apply wp_bind. eapply wp_mono; [exact Hm | exact Hk | auto].
Qed.
End WpRules.

(** ** The backoff delay *)

Module BackoffFacts.
Import Gateway.

Lemma pow2_below_bound k :
  0 <= k <= 1023 -> Z.abs (2 ^ k) < Float.int_overflow_bound.
Proof.
  intros Hk. rewrite Z.abs_eq by (apply Z.pow_nonneg; lia).
  apply Z.le_lt_trans with (2 ^ 1023).
  - apply Z.pow_le_mono_r; lia.
  - unfold Float.int_overflow_bound. apply Z.ltb_lt. vm_compute. reflexivity.
Qed.

Lemma pow2_above_bound k :
  1024 <= k -> Float.int_overflow_bound <= Z.abs (2 ^ k).
Proof.
  intros Hk. rewrite Z.abs_eq by (apply Z.pow_nonneg; lia).
  apply Z.le_trans with (2 ^ 1024).
  - unfold Float.int_overflow_bound. apply Z.leb_le. vm_compute. reflexivity.
  - apply Z.pow_le_mono_r; lia.
Qed.

Lemma float_mul_int_pow2 x k :
  0 <= k <= 1023 -> float_mul_int x (2 ^ k) = Ret (x * inject_Z (2 ^ k))%Q.
Proof.
  intros Hk. unfold float_mul_int, Float.of_int.
  pose proof (pow2_below_bound k Hk) as H.
  destruct (Z.leb_spec Float.int_overflow_bound (Z.abs (2 ^ k))); [lia|].
  reflexivity.
Qed.

Lemma float_mul_int_overflow x k :
  1024 <= k ->
  float_mul_int x (2 ^ k)
  = Raise (Exn OverflowError "int too large to convert to float").
Proof.
  intros Hk. unfold float_mul_int, Float.of_int.
  pose proof (pow2_above_bound k Hk) as H.
  destruct (Z.leb_spec Float.int_overflow_bound (Z.abs (2 ^ k))); [|lia].
  reflexivity.
Qed.

Lemma compute_backoff_delay_nonpositive B M n :
  n <= 0 -> compute_backoff_delay B M n = Ret 0%Q.
Proof.
  intros H. unfold compute_backoff_delay.
  destruct (Z.leb_spec n 0); [reflexivity | lia].
Qed.

(** Up to 1024 failures the delay is the capped exponential. *)
Lemma compute_backoff_delay_in_range B M n :
  1 <= n <= 1024 ->
  compute_backoff_delay B M n = Ret (Qmin (B * inject_Z (2 ^ (n - 1))) M).
Proof.
  intros H. unfold compute_backoff_delay.
  destruct (Z.leb_spec n 0); [lia|].
  rewrite Z.max_r by lia. rewrite float_mul_int_pow2 by lia. reflexivity.
Qed.

(** From 1025 failures on, the conversion of [2 ** (n - 1)] raises. *)
Lemma compute_backoff_delay_overflow B M n :
  1025 <= n ->
  compute_backoff_delay B M n
  = Raise (Exn OverflowError "int too large to convert to float").
Proof.
  intros H. unfold compute_backoff_delay.
  destruct (Z.leb_spec n 0); [lia|].
  rewrite Z.max_r by lia. rewrite float_mul_int_overflow by lia. reflexivity.
Qed.

(** [test_compute_backoff_delay]: BASE = 1, MAX = 4. *)
Example compute_backoff_delay_test :
  map (compute_backoff_delay 1 4) [0; 1; 2; 3; 4]
  = [Ret 0%Q; Ret 1%Q; Ret 2%Q; Ret 4%Q; Ret 4%Q].
Proof. vm_compute. reflexivity. Qed.

Lemma compute_backoff_delay_positive B M n d :
  (0 < B)%Q -> (0 < M)%Q -> 0 < n ->
  compute_backoff_delay B M n = Ret d -> (0 < d)%Q.
Proof.
  intros HB HM Hn Hd.
  destruct (Z_le_gt_dec n 1024) as [Hle|Hgt].
  - rewrite compute_backoff_delay_in_range in Hd by lia.
    injection Hd as <-. apply Q.min_glb_lt; [|exact HM].
    apply Qmult_lt_0_compat; [exact HB|].
    assert (0 < 2 ^ (n - 1)) by (apply Z.pow_pos_nonneg; lia).
    unfold Qlt, inject_Z. simpl. lia.
  - rewrite compute_backoff_delay_overflow in Hd by lia. discriminate.
Qed.

(** C1.  After 1025 consecutive failures [compute_backoff_delay] does
    not return the capped delay [min(BASE * 2^(n-1), MAX)] (60 seconds
    with the defaults): the product [RECONNECT_BASE * 2 ** 1024] raises
    [OverflowError] when Python converts the int to a float. *)
Theorem compute_backoff_delay_raises_at_1025 :
  compute_backoff_delay RECONNECT_BASE_default RECONNECT_MAX_default 1025
  = Raise (Exn OverflowError "int too large to convert to float").
Proof. apply compute_backoff_delay_overflow. lia. Qed.

End BackoffFacts.

(** ** The health table *)

Module HealthFacts.
Import Gateway BackoffFacts.

Section Entry.
Variables B Mx : Q.
Variables mf mp : bool.
Variable clk : nat -> Q.

Lemma record_backoff_run msg c :
  record_backoff B Mx clk msg c =
  let h1 := backoff_failed (clk (time_calls c)) msg (health c) in
  match compute_backoff_delay B Mx (fail_count (health c) + 1) with
  | Ret delay =>
      (mkCell (set_last_backoff (Some delay)
                 (set_next_attempt
                    (clk (Datatypes.S (time_calls c)) + delay)%Q h1))
              (driver_obj c) (Datatypes.S (Datatypes.S (time_calls c))),
       Ret tt)
  | Raise e =>
      (mkCell h1 (driver_obj c) (Datatypes.S (time_calls c)), Raise e)
  end.
Proof.
  unfold record_backoff, mbind, time_time, health_set, mmodify,
    health_get, lift, on_health, backoff_failed.
  cbn. destruct (compute_backoff_delay B Mx (fail_count (health c) + 1));
    reflexivity.
Qed.

Lemma wp_bind_time {A} (k : Q -> M cell A) Qp E c :
  wp (k (clk (time_calls c))) Qp E
     (mkCell (health c) (driver_obj c) (Datatypes.S (time_calls c))) ->
  wp (mbind (time_time clk) k) Qp E c.
Proof. intros H. apply wp_bind. exact H. Qed.

Lemma wp_bind_health {A} (k : PLCHealth -> M cell A) Qp E c :
  wp (k (health c)) Qp E c -> wp (mbind health_get k) Qp E c.
Proof. intros H. apply wp_bind. exact H. Qed.

Lemma wp_bind_driver {A} (k : option driver -> M cell A) Qp E c :
  wp (k (driver_obj c)) Qp E c -> wp (mbind current_driver k) Qp E c.
Proof. intros H. apply wp_bind. exact H. Qed.

(** Any property of the entry that the failure bookkeeping and the
    connected bookkeeping maintain is maintained by the helper. *)
Lemma reconnect_body_preserves (P : PLCHealth -> Prop) cls :
  (forall msg c, P (health c) ->
     wp (record_backoff B Mx clk msg) (fun _ c' => P (health c'))
        (fun _ c' => P (health c')) c) ->
  (forall c, P (health c) ->
     wp mark_connected (fun _ c' => P (health c'))
        (fun _ c' => P (health c')) c) ->
  forall c, P (health c) ->
    wp (reconnect_body B Mx mf mp clk cls) (fun _ c' => P (health c'))
       (fun _ c' => P (health c')) c.
Proof.
  intros Hrec Hmark c HP. unfold reconnect_body.
  set (I := fun c' : cell => P (health c')).
  assert (Hcur : forall c', I c' ->
            wp current_driver (fun _ => I) (fun _ => I) c')
    by (intros c' H; exact H).
  assert (Hmark' : forall c', I c' ->
            wp (mbind mark_connected (fun _ => current_driver))
               (fun _ => I) (fun _ => I) c').
  { intros c' H. eapply wp_seq; [apply Hmark; exact H|].
    intros ? s' Hs. apply Hcur, Hs. }
  assert (Hhandler : forall msg c', I c' ->
            wp (mbind (record_backoff B Mx clk msg) (fun _ => current_driver))
               (fun _ => I) (fun _ => I) c').
  { intros msg c' H. eapply wp_seq; [apply Hrec; exact H|].
    intros ? s' Hs. apply Hcur, Hs. }
  apply wp_try.
  eapply wp_mono with (Q := fun _ => I) (E := fun _ => I);
    [| auto | intros e s' Hs; apply Hhandler, Hs].
  eapply wp_seq with (I := fun _ => I); [exact HP|]. intros now c1 H1.
  eapply wp_seq with (I := fun _ => I); [exact H1|]. intros h c2 H2.
  destruct (negb (Qle_bool (next_attempt h) now)); [apply Hcur, H2|].
  eapply wp_seq with (I := fun _ => I); [exact H2|]. intros d c3 H3.
  eapply wp_seq with (I := fun _ => I).
  { destruct (mf && is_None d && negb mp); [apply Hrec, H3 | exact H3]. }
  intros ? c4 H4.
  destruct (is_connected d); [apply Hmark', H4|].
  eapply wp_seq with (I := fun _ => I).
  { destruct (can_open d); exact H4. }
  intros ? c5 H5.
  eapply wp_seq with (I := fun _ => I); [exact H5|]. intros d' c6 H6.
  destruct (can_open d && is_connected d'); [apply Hmark', H6|].
  apply wp_try.
  eapply wp_mono with (Q := fun _ => I) (E := fun _ => I);
    [| auto | intros e s' Hs; apply Hhandler, Hs].
  eapply wp_seq with (I := fun _ => I).
  { apply wp_lift. destruct cls; exact H6. }
  intros newdrv c7 H7.
  eapply wp_seq with (I := fun _ => I).
  { destruct (connected _); [apply Hmark, H7 | exact H7]. }
  intros ? c8 H8. exact H8.
Qed.

(** *** A cleared failure count comes with an open gate *)

Lemma gate_inv_record_backoff msg c :
  gate_inv (health c) ->
  wp (record_backoff B Mx clk msg) (fun _ c' => gate_inv (health c'))
     (fun _ c' => gate_inv (health c')) c.
Proof.
  intros [Hfc _]. unfold wp. rewrite record_backoff_run.
  destruct (compute_backoff_delay B Mx (fail_count (health c) + 1));
    cbn; split; cbn; lia.
Qed.

Lemma gate_inv_mark_connected c :
  wp mark_connected (fun _ c' => gate_inv (health c'))
     (fun _ c' => gate_inv (health c')) c.
Proof. unfold wp. cbn. split; cbn; [lia | reflexivity]. Qed.

Lemma gate_inv_reconnect_body cls c :
  gate_inv (health c) ->
  wp (reconnect_body B Mx mf mp clk cls) (fun _ c' => gate_inv (health c'))
     (fun _ c' => gate_inv (health c')) c.
Proof.
  apply reconnect_body_preserves.
  - apply gate_inv_record_backoff.
  - intros c' _. apply gate_inv_mark_connected.
Qed.

Lemma gate_inv_read_body stop body c :
  gate_inv (health c) ->
  wp (read_body_health clk stop body) (fun _ c' => gate_inv (health c'))
     (fun _ c' => gate_inv (health c')) c.
Proof.
  intros HJ. unfold read_body_health. apply wp_try.
  destruct stop; [exact HJ|].
  unfold wp. cbn.
  destruct (is_connected (driver_obj c)); cbn; [|exact HJ].
  destruct HJ as [H1 H2].
  destruct body; cbn.
  - split; assumption.
  - split; cbn; [lia | reflexivity].
  - split; cbn; lia.
Qed.

End Entry.

(** Lifting from the entry to the table. *)
Lemma at_key_preserves {A} (P : PLCHealth -> Prop) key d (m : M cell A) table :
  (forall c, P (health c) ->
     wp m (fun _ c' => P (health c')) (fun _ c' => P (health c')) c) ->
  table_inv P table ->
  table_inv P (at_key key d m table).1.1.
Proof.
  intros Hm Htab k h. unfold at_key.
  destruct (table !! key) as [h0|] eqn:Hkey; cbn; [|apply Htab].
  specialize (Hm (mkCell h0 d 0%nat) (Htab _ _ Hkey)). unfold wp in Hm.
  destruct (m (mkCell h0 d 0%nat)) as [c' r]. cbn.
  destruct (decide (key = k)) as [->|Hne].
  - rewrite lookup_insert_eq. intros [= <-]. destruct r; exact Hm.
  - rewrite lookup_insert_ne by exact Hne. apply Htab.
Qed.

Lemma at_key_absent {A} key d (m : M cell A) (table : gmap string PLCHealth) :
  table !! key = None ->
  at_key key d m table = (table, d, Raise (Exn KeyError key)).
Proof. intros H. unfold at_key. rewrite H. reflexivity. Qed.

Lemma at_key_wp {A} key d (m : M cell A) (table : gmap string PLCHealth)
    (Q : A -> cell -> Prop) (E : exn -> cell -> Prop) h0 :
  table !! key = Some h0 ->
  wp m Q E (mkCell h0 d 0%nat) ->
  exists c r,
    at_key key d m table = (<[key := health c]> table, driver_obj c, r)
    /\ match r with Ret a => Q a c | Raise e => E e c end.
Proof.
  intros H Hwp. unfold at_key. rewrite H. unfold wp in Hwp.
  destruct (m (mkCell h0 d 0%nat)) as [c r]. exists c, r.
  split; [reflexivity|]. destruct r; exact Hwp.
Qed.

Lemma start_table_inv (P : PLCHealth -> Prop) a b :
  (forall ok, P (set_ok ok health_init)) -> table_inv P (start_table a b).
Proof.
  intros HP k h. unfold start_table.
  destruct (decide ("compactlogix" = k)) as [<-|H1].
  { rewrite lookup_insert_eq. intros [= <-]. apply HP. }
  rewrite lookup_insert_ne by exact H1.
  destruct (decide ("slc500" = k)) as [<-|H2].
  { rewrite lookup_insert_eq. intros [= <-]. apply HP. }
  rewrite lookup_insert_ne by exact H2. rewrite lookup_empty. discriminate.
Qed.

Lemma start_table_gate_inv a b : table_inv gate_inv (start_table a b).
Proof.
  apply start_table_inv. intros ok. split; cbn; [lia | reflexivity].
Qed.

Lemma start_table_health_inv a b : table_inv health_inv (start_table a b).
Proof.
  apply start_table_inv. intros ok. unfold health_inv; cbn.
  split; [intros _; split; reflexivity | reflexivity].
Qed.

(** C3, as the code has it.  Every operation on the health table, the
    reconnect step and the two read functions on any of their paths,
    leaves every entry with a non-negative failure count and, when the
    count is zero, with [next_attempt] zero. *)
Theorem gate_inv_preserved B Mx mf mp clk drv cls key plc stop body
    (plc_health : gmap string PLCHealth) :
  table_inv gate_inv plc_health ->
  table_inv gate_inv
    (try_reconnect_helper B Mx mf mp clk drv cls key plc_health).1.1
  /\ table_inv gate_inv
       (read_compactlogix_tags clk plc stop body plc_health).1.1
  /\ table_inv gate_inv
       (read_slc500_tags clk plc stop body plc_health).1.1.
Proof.
  intros H. split; [|split];
    unfold try_reconnect_helper, read_compactlogix_tags, read_slc500_tags.
  - apply at_key_preserves; [|exact H]. intros c. apply gate_inv_reconnect_body.
  - apply at_key_preserves; [|exact H]. intros c. apply gate_inv_read_body.
  - apply at_key_preserves; [|exact H]. intros c. apply gate_inv_read_body.
Qed.

Lemma gate_inv_preserved_witness :
  table_inv gate_inv (start_table true true)
  /\ (table_inv gate_inv
        (try_reconnect_helper 1 60 false false clock0 (Some down_driver)
           (Raise boom) "compactlogix" (start_table true true)).1.1
      /\ table_inv gate_inv
           (read_compactlogix_tags clock0 (Some up_driver) false
              (ReadRaised boom) (start_table true true)).1.1
      /\ table_inv gate_inv
           (read_slc500_tags clock0 (Some up_driver) false
              (ReadRaised boom) (start_table true true)).1.1).
Proof.
  split; [apply start_table_gate_inv|].
  apply (gate_inv_preserved 1 60 false false clock0 (Some down_driver)
           (Raise boom) "compactlogix" (Some up_driver) false
           (ReadRaised boom)).
  apply start_table_gate_inv.
Defined.

(** C3, as the specification words it, fails: a read that raises on a
    connected driver counts a failure and leaves [next_attempt] and
    [last_backoff] as they were. *)
Lemma health_inv_broken_by_read_failure :
  table_inv health_inv (start_table true true)
  /\ ~ table_inv health_inv
        (read_compactlogix_tags clock0 (Some up_driver) false
           (ReadRaised boom) (start_table true true)).1.1.
Proof.
  split; [apply start_table_health_inv|].
  intros H. specialize (H "compactlogix").
  unfold read_compactlogix_tags, at_key, start_table in H.
  rewrite lookup_insert_eq in H. cbn in H. rewrite lookup_insert_eq in H.
  specialize (H _ eq_refl). unfold health_inv in H. cbn in H.
  destruct H as [_ H]. discriminate H. split; reflexivity.
Qed.

(** The other direction fails as well: a reconnect that succeeds after
    a failure clears [fail_count] and [next_attempt] and keeps the
    [last_backoff] of the failure. *)
Lemma last_backoff_survives_reconnect :
  match (try_reconnect_helper 1 60 false false
           (fun n => (clock0 n + 100)%Q) (Some up_driver) (Raise boom)
           "compactlogix" after_failed_reconnect).1.1 !! "compactlogix" with
  | Some h' =>
      fail_count h' = 0 /\ (next_attempt h' == 0)%Q
      /\ last_backoff h' = Some 1%Q
  | None => False
  end.
Proof. vm_compute. repeat split. Qed.

(** *** What the health endpoint can meet *)

Section BackoffInv.
Variables B Mx : Q.
Variables mf mp : bool.
Variable clk : nat -> Q.
Hypothesis HB : (0 < B)%Q.
Hypothesis HM : (0 < Mx)%Q.
Hypothesis Hclk : forall n, (0 <= clk n)%Q.

Let Kc (c : cell) : Prop := backoff_inv (health c).
Let recorded (c : cell) : Prop := last_backoff (health c) <> None.
Let tick_post (d : option driver) (c : cell) : Prop :=
  Kc c /\ handed_on d (health c).
Let tick_exn (c : cell) : Prop := Kc c /\ recorded c.

Lemma backoff_inv_record_backoff msg c :
  backoff_inv (health c) ->
  wp (record_backoff B Mx clk msg)
     (fun _ c' => backoff_inv (health c')
                  /\ last_backoff (health c') <> None
                  /\ driver_obj c' = driver_obj c)
     (fun _ c' => backoff_inv (health c')
                  /\ last_backoff (health c') <> None) c.
Proof.
  intros (Hfc & Hpos & Hnone). unfold wp. rewrite record_backoff_run.
  destruct (compute_backoff_delay B Mx (fail_count (health c) + 1))
    as [delay|e] eqn:Hd; cbn.
  - split; [|split; [discriminate | reflexivity]].
    split; [|split]; cbn; [lia | | discriminate].
    intros b [= <-].
    apply (compute_backoff_delay_positive B Mx (fail_count (health c) + 1));
      (assumption || lia).
  - assert (Hrec : last_backoff (health c) <> None).
    { intros Hn. destruct (Hnone Hn) as [_ Hle].
      rewrite compute_backoff_delay_in_range in Hd by lia. discriminate. }
    split; [|exact Hrec].
    split; [|split]; cbn; [lia | exact Hpos | contradiction].
Qed.

Lemma backoff_inv_mark_connected c :
  backoff_inv (health c) ->
  wp mark_connected
     (fun _ c' => backoff_inv (health c') /\ fail_count (health c') = 0)
     (fun _ _ => False) c.
Proof.
  intros (Hfc & Hpos & Hnone). unfold wp. cbn.
  split; [|reflexivity].
  split; [|split]; cbn; [lia | exact Hpos |].
  intros _. split; [reflexivity | lia].
Qed.

Lemma recorded_handed_on d c : Kc c -> recorded c -> tick_post d c.
Proof. intros HK Hr. split; [exact HK|]. intros Hn. contradiction. Qed.

(** The helper maintains [backoff_inv]; the driver it returns is
    connected only with a cleared count or a recorded backoff, and it
    raises only with a backoff on record. *)
Lemma backoff_inv_reconnect_body cls c :
  backoff_inv (health c) ->
  wp (reconnect_body B Mx mf mp clk cls)
     (fun d c' => backoff_inv (health c') /\ handed_on d (health c'))
     (fun _ c' => backoff_inv (health c')
                  /\ last_backoff (health c') <> None) c.
Proof.
  intros HK. change (wp (reconnect_body B Mx mf mp clk cls) tick_post
                        (fun _ => tick_exn) c).
  unfold reconnect_body.
  assert (Hhandler : forall msg c', Kc c' ->
            wp (mbind (record_backoff B Mx clk msg) (fun _ => current_driver))
               tick_post (fun _ => tick_exn) c').
  { intros msg c' H. eapply wp_seq; [apply backoff_inv_record_backoff; exact H|].
    intros ? s' (Hs & Hr & _). apply recorded_handed_on; assumption. }
  assert (Hmark : forall c', Kc c' ->
            wp (mbind mark_connected (fun _ => current_driver))
               tick_post (fun _ => tick_exn) c').
  { intros c' H. eapply wp_seq.
    - eapply wp_mono; [apply backoff_inv_mark_connected; exact H | | intros ? ? []].
      intros ? s' Hs. exact Hs.
    - intros ? s' (Hs & Hz). split; [exact Hs|]. intros _ _. exact Hz. }
  apply wp_try.
  eapply wp_mono with (Q := tick_post) (E := fun _ => tick_exn);
    [| auto | intros e s' [Hs _]; apply Hhandler, Hs].
  apply wp_bind_time, wp_bind_health. cbn [health].
  set (c1 := mkCell (health c) (driver_obj c) (Datatypes.S (time_calls c))).
  assert (HK1 : Kc c1) by exact HK.
  destruct (Qle_bool (next_attempt (health c)) (clk (time_calls c)))
    eqn:Hgate; cbn [negb].
  2:{ (* the gate is closed only with a backoff on record *)
    apply recorded_handed_on; [exact HK1|].
    intros Hn. destruct HK as (_ & _ & Hnone). destruct (Hnone Hn) as [Hna _].
    assert (Qle_bool (next_attempt (health c)) (clk (time_calls c)) = true).
    { apply Qle_bool_iff. rewrite Hna. apply Hclk. }
    congruence. }
  apply wp_bind_driver.
  eapply wp_seq with (I := fun _ c' => Kc c').
  { destruct (mf && is_None (driver_obj c1) && negb mp).
    - eapply wp_mono; [apply backoff_inv_record_backoff; exact HK1 | | auto].
      intros ? s' (Hs & _ & Hd). exact Hs.
    - exact HK1. }
  intros ? c2 HK2.
  destruct (is_connected (driver_obj c1)) eqn:Hconn; [apply Hmark, HK2|].
  eapply wp_seq with (I := fun _ c' => Kc c').
  { destruct (can_open (driver_obj c1)); exact HK2. }
  intros ? c3 HK3.
  apply wp_bind_driver.
  destruct (can_open (driver_obj c1) && is_connected (driver_obj c3));
    [apply Hmark, HK3|].
  apply wp_try.
  eapply wp_mono with (Q := tick_post) (E := fun _ => Kc);
    [| auto | intros e s' Hs; apply Hhandler, Hs].
  destruct cls as [newdrv|e]; [|exact HK3].
  apply wp_bind, wp_lift.
  set (nd := if has_open newdrv then driver_open newdrv else newdrv).
  destruct (connected nd) eqn:Hnd.
  - eapply wp_seq.
    + eapply wp_mono with (E' := fun _ => Kc);
        [apply backoff_inv_mark_connected; exact HK3 | | intros ? ? []].
      intros ? s' Hs. exact Hs.
    + intros ? s' (Hs & Hz). split; [exact Hs|]. intros _ _. exact Hz.
  - eapply wp_seq with (I := fun _ c' => Kc c'); [exact HK3|].
    intros ? s' Hs. split; [exact Hs|]. intros _ Hc. cbn in Hc. congruence.
Qed.

Lemma backoff_inv_read_body stop body c :
  backoff_inv (health c) -> handed_on (driver_obj c) (health c) ->
  wp (read_body_health clk stop body) (fun _ c' => backoff_inv (health c'))
     (fun _ c' => backoff_inv (health c')) c.
Proof.
  intros HK Hh. unfold read_body_health. apply wp_try.
  destruct stop; [exact HK|].
  unfold wp. cbn.
  destruct (is_connected (driver_obj c)) eqn:Hc; cbn; [|exact HK].
  destruct HK as (Hfc & Hpos & Hnone).
  destruct body; cbn.
  - split; [|split]; assumption.
  - split; [|split]; cbn; [lia | exact Hpos |].
    intros _. split; [reflexivity | lia].
  - split; [|split]; cbn; [lia | exact Hpos |].
    intros Hn. split; [apply Hnone, Hn|].
    rewrite (Hh Hn Hc). lia.
Qed.

End BackoffInv.

Section Observable.
Variables B Mx : Q.
Variables mf mp : bool.
Hypothesis HB : (0 < B)%Q.
Hypothesis HM : (0 < Mx)%Q.

Lemma health_init_backoff_inv b : backoff_inv (set_ok b health_init).
Proof.
  split; [|split]; cbn; [lia | discriminate |].
  intros _. split; [reflexivity | lia].
Qed.

Lemma poller_start_inv p : poller_start B Mx mf mp p -> poller_inv p.
Proof.
  intros Hs. destruct Hs as [ok_c ok_s | clk t d r _ Hclk Hrun].
  - intros key h Hl. split.
    + eapply start_table_inv; [apply health_init_backoff_inv | exact Hl].
    + cbn. intros given Hg. rewrite lookup_empty in Hg. discriminate.
  - intros key h Hl. cbn in Hl |- *. split.
    2:{ intros given Hg. rewrite lookup_empty in Hg. discriminate. }
    revert key h Hl. change (table_inv backoff_inv t).
    unfold mock_prepopulate in Hrun. destruct mf.
    + replace t with
        (at_key "compactlogix" None
           (record_backoff B Mx clk "forced reconnect failure (test)")
           (start_table true true)).1.1 by (rewrite Hrun; reflexivity).
      apply at_key_preserves;
        [|apply start_table_inv, health_init_backoff_inv].
      intros c Hc. eapply wp_mono;
        [apply backoff_inv_record_backoff; assumption | |]; cbn; tauto.
    + injection Hrun as <- _ _.
      apply start_table_inv, health_init_backoff_inv.
Qed.

Lemma read_tags_at_key clk key plc stop body t :
  controller key ->
  read_tags clk key plc stop body t
  = at_key key plc (read_body_health clk stop body) t.
Proof. intros [-> | ->]; reflexivity. Qed.

Lemma poller_step_inv p p' :
  poller_inv p -> poller_step B Mx mf mp p p' -> poller_inv p'.
Proof.
  intros Hinv Hstep.
  destruct Hstep as [p key clk drv cls t d r Hkey Hfree Hclk Hrun
                    | p key clk given plc stop body t d r Hkey Hgiven Hplc Hrun
                    | p now].
  - (* the reconnect step *)
    unfold try_reconnect_helper in Hrun.
    destruct (table p !! key) as [h0|] eqn:Hl.
    + destruct (at_key_wp key drv (reconnect_body B Mx mf mp clk cls) (table p)
                  (fun d c' => backoff_inv (health c') /\ handed_on d (health c'))
                  (fun _ c' => backoff_inv (health c')
                               /\ last_backoff (health c') <> None) h0 Hl)
        as (c & r' & Heq & Hpost).
      { apply backoff_inv_reconnect_body; try assumption.
        apply (Hinv key h0 Hl). }
      rewrite Heq in Hrun. injection Hrun as <- <- <-.
      intros key' h Hl'. cbn in Hl' |- *.
      destruct (decide (key = key')) as [<-|Hne].
      * rewrite lookup_insert_eq in Hl'. injection Hl' as <-.
        rewrite lookup_insert_eq.
        destruct r' as [d'|e]; destruct Hpost as [HK Hrest].
        -- split; [exact HK|]. intros given [= <-]. exact Hrest.
        -- split; [exact HK|]. intros given _ Hn. contradiction.
      * rewrite lookup_insert_ne in Hl' by exact Hne.
        rewrite lookup_insert_ne by exact Hne. apply Hinv, Hl'.
    + rewrite at_key_absent in Hrun by exact Hl. injection Hrun as <- <- <-.
      intros key' h Hl'. cbn in Hl' |- *.
      destruct (decide (key = key')) as [<-|Hne]; [congruence|].
      rewrite lookup_insert_ne by exact Hne. apply Hinv, Hl'.
  - (* the read *)
    rewrite read_tags_at_key in Hrun by exact Hkey.
    destruct (table p !! key) as [h0|] eqn:Hl.
    + destruct (Hinv key h0 Hl) as [HK Hhand].
      destruct (at_key_wp key plc (read_body_health clk stop body) (table p)
                  (fun _ c' => backoff_inv (health c'))
                  (fun _ c' => backoff_inv (health c')) h0 Hl)
        as (c & r' & Heq & Hpost).
      { apply backoff_inv_read_body; [exact HK|].
        intros Hn Hc. apply (Hhand given Hgiven Hn). apply Hplc, Hc. }
      rewrite Heq in Hrun. injection Hrun as <- <- <-.
      intros key' h Hl'. cbn in Hl' |- *.
      destruct (decide (key = key')) as [<-|Hne].
      * rewrite lookup_insert_eq in Hl'. injection Hl' as <-.
        rewrite lookup_delete_eq.
        split; [destruct r'; exact Hpost | discriminate].
      * rewrite lookup_insert_ne in Hl' by exact Hne.
        rewrite lookup_delete_ne by exact Hne. apply Hinv, Hl'.
    + rewrite at_key_absent in Hrun by exact Hl. injection Hrun as <- <- <-.
      intros key' h Hl'. cbn in Hl' |- *.
      destruct (decide (key = key')) as [<-|Hne]; [congruence|].
      rewrite lookup_delete_ne by exact Hne. apply Hinv, Hl'.
  - exact Hinv.
Qed.

Lemma observable_inv p : observable B Mx mf mp p -> poller_inv p.
Proof.
  induction 1 as [p Hs | p p' _ IH Hstep].
  - apply poller_start_inv, Hs.
  - eapply poller_step_inv; eassumption.
Qed.

Lemma health_snapshot_backoff h :
  backoff_inv h ->
  (forall b, last_backoff h = Some b ->
             j_last_backoff (health_snapshot B Mx h) = b)
  /\ (last_backoff h = None ->
      compute_backoff_delay B Mx (fail_count h)
      = Ret (j_last_backoff (health_snapshot B Mx h)))
  /\ (0 < j_fail_count (health_snapshot B Mx h) ->
      (0 < j_last_backoff (health_snapshot B Mx h))%Q).
Proof.
  intros (Hfc & Hpos & Hnone). unfold health_snapshot. cbn.
  destruct (last_backoff h) as [b|] eqn:Hb.
  - split; [intros b' [= <-]; reflexivity|]. split; [discriminate|].
    intros _. apply Hpos. reflexivity.
  - destruct (Hnone eq_refl) as [_ Hle].
    split; [discriminate|].
    destruct (Z.eq_dec (fail_count h) 0) as [Hz|Hnz].
    + rewrite Hz. split; [reflexivity | lia].
    + assert (H1 : fail_count h = 1) by lia. rewrite H1.
      rewrite compute_backoff_delay_in_range by lia.
      split; [reflexivity|]. intros _.
      apply (compute_backoff_delay_positive B Mx 1); try assumption; [lia|].
      apply compute_backoff_delay_in_range. lia.
Qed.

End Observable.

Lemma status_ok_iff B Mx now last ts t :
  h_status (get_hmi_health B Mx now last ts t) = "ok"
  <-> (~ (last == 0)%Q
       /\ exists age,
           h_age_seconds (get_hmi_health B Mx now last ts t) = Some age
           /\ (age < 5)%Q).
Proof.
  unfold get_hmi_health. cbn.
  destruct (Qeq_bool last 0) eqn:Hz; cbn.
  - apply Qeq_bool_iff in Hz. split; [discriminate|].
    intros [Hn _]. contradiction.
  - assert (Hnz : ~ (last == 0)%Q).
    { intros H. apply Qeq_bool_iff in H. congruence. }
    destruct (Qle_bool 5 (now - last)) eqn:Hle; cbn.
    + apply Qle_bool_iff in Hle. split; [discriminate|].
      intros [_ (age & [= <-] & Hlt)]. exfalso.
      apply (Qlt_not_le _ _ Hlt), Hle.
    + split; [|reflexivity]. intros _. split; [exact Hnz|].
      exists (now - last)%Q. split; [reflexivity|].
      apply Qnot_le_lt. intros H. apply Qle_bool_iff in H. congruence.
Qed.

(** C8.  In every state of the health table that the poll loop can
    produce, the [/api/v1/hmi/health] response reports for each PLC the
    stored [last_backoff] when one is recorded and
    [compute_backoff_delay(fail_count)] when none is; the reported
    [last_backoff] is positive whenever the reported [fail_count] is
    (default BASE and MAX); and [status] is ["ok"] exactly when
    [last_plc_update] is nonzero and [age_seconds] is below 5. *)
Theorem health_exposure mf mp p now ts key h :
  observable RECONNECT_BASE_default RECONNECT_MAX_default mf mp p ->
  table p !! key = Some h ->
  let r := get_hmi_health RECONNECT_BASE_default RECONNECT_MAX_default
             now (plc_last_update p) ts (table p) in
  (exists j,
      h_plc_health r !! key = Some j
      /\ j_fail_count j = fail_count h
      /\ (forall b, last_backoff h = Some b -> j_last_backoff j = b)
      /\ (last_backoff h = None ->
          compute_backoff_delay RECONNECT_BASE_default RECONNECT_MAX_default
            (fail_count h) = Ret (j_last_backoff j))
      /\ (0 < j_fail_count j -> (0 < j_last_backoff j)%Q))
  /\ (h_status r = "ok"
      <-> (~ (plc_last_update p == 0)%Q
           /\ exists age, h_age_seconds r = Some age /\ (age < 5)%Q)).
Proof.
  intros Hobs Hl r. split.
  - exists (health_snapshot 1 60 h).
    assert (HK : backoff_inv h).
    { apply (observable_inv 1 60 mf mp) in Hobs; [|reflexivity|reflexivity].
      apply (Hobs key h Hl). }
    destruct (health_snapshot_backoff 1 60 eq_refl eq_refl h HK)
      as (H1 & H2 & H3).
    split; [|split; [reflexivity | split; [exact H1 | split; [exact H2 | exact H3]]]].
    subst r. unfold get_hmi_health. cbn. rewrite lookup_fmap, Hl. reflexivity.
  - apply status_ok_iff.
Qed.

Lemma poller1_observable :
  observable RECONNECT_BASE_default RECONNECT_MAX_default false false poller1.
Proof.
  apply observable_step with (p := poller0).
  - apply observable_start, start_plain.
  - unfold poller1, after_failed_reconnect.
    destruct (try_reconnect_helper 1 60 false false clock0 (Some down_driver)
                (Raise boom) "compactlogix" (start_table true true))
      as [[t d] r] eqn:Hrun.
    assert (Hr : r = Ret (Some down_driver)).
    { apply (f_equal snd) in Hrun. cbn in Hrun. rewrite <- Hrun.
      vm_compute. reflexivity. }
    replace (<[ "compactlogix" := Some down_driver ]> ∅
              : gmap string (option driver))
      with (<[ "compactlogix" := match r with Ret d' => d' | Raise _ => d end ]>
              (awaiting_read poller0)) by (rewrite Hr; reflexivity).
    apply (step_reconnect 1 60 false false poller0 "compactlogix" clock0
             (Some down_driver) (Raise boom) t d r).
    + left. reflexivity.
    + apply lookup_empty.
    + intros n. unfold clock0, Qle, inject_Z. simpl. lia.
    + exact Hrun.
Qed.

Lemma poller1_entry : table poller1 !! "compactlogix" = Some health1.
Proof. vm_compute. reflexivity. Qed.

Lemma health_exposure_witness :
  let r := get_hmi_health RECONNECT_BASE_default RECONNECT_MAX_default
             1700000010 (plc_last_update poller1) TagStore.empty
             (table poller1) in
  (exists j,
      h_plc_health r !! "compactlogix" = Some j
      /\ j_fail_count j = fail_count health1
      /\ (forall b, last_backoff health1 = Some b -> j_last_backoff j = b)
      /\ (last_backoff health1 = None ->
          compute_backoff_delay RECONNECT_BASE_default RECONNECT_MAX_default
            (fail_count health1) = Ret (j_last_backoff j))
      /\ (0 < j_fail_count j -> (0 < j_last_backoff j)%Q))
  /\ (h_status r = "ok"
      <-> (~ (plc_last_update poller1 == 0)%Q
           /\ exists age, h_age_seconds r = Some age /\ (age < 5)%Q)).
Proof.
  apply (health_exposure false false poller1 1700000010 TagStore.empty
           "compactlogix" health1).
  - exact poller1_observable.
  - exact poller1_entry.
Defined.

End HealthFacts.

(** ** [Decimal(str(d))] reads back what [str] wrote *)

Module DecimalText.

Import DecimalSyntax.
Local Open Scope list_scope.

Import Text.

Lemma digits_value_fold s : digits_value s = fold_left dstep s 0%N.
Proof. reflexivity. Qed.

Lemma of_uint_digits u : forallb is_digit (of_uint u) = true.
Proof. induction u; cbn [of_uint forallb]; try rewrite IHu; reflexivity. Qed.

Lemma fold_of_uint_acc u p :
  fold_left dstep (of_uint u) (Npos p) = Npos (Pos.of_uint_acc u p).
Proof.
  revert p. induction u; intros p; cbn [of_uint fold_left Pos.of_uint_acc];
    try reflexivity; rewrite <- IHu; f_equal.
  all: unfold dstep;
    match goal with |- context [digit_val ?c] =>
      let v := eval vm_compute in (digit_val c) in
      change (digit_val c) with v
    end; lia.
Qed.

Lemma digits_value_of_uint u : digits_value (of_uint u) = N.of_uint u.
Proof.
  rewrite digits_value_fold. unfold N.of_uint.
  induction u; cbn [of_uint fold_left Pos.of_uint]; try reflexivity;
    try exact IHu.
  all: change (dstep 0%N _) with (Npos 1) || change (dstep 0%N _) with (Npos 2)
       || change (dstep 0%N _) with (Npos 3) || change (dstep 0%N _) with (Npos 4)
       || change (dstep 0%N _) with (Npos 5) || change (dstep 0%N _) with (Npos 6)
       || change (dstep 0%N _) with (Npos 7) || change (dstep 0%N _) with (Npos 8)
       || change (dstep 0%N _) with (Npos 9); apply fold_of_uint_acc.
Qed.

Lemma digits_value_of_N n : digits_value (of_N n) = n.
Proof. unfold of_N. rewrite digits_value_of_uint. apply Unsigned.of_to. Qed.

Lemma of_N_digits n : forallb is_digit (of_N n) = true.
Proof. apply of_uint_digits. Qed.

Lemma of_N_nonempty n : of_N n <> [].
Proof.
  intros H. pose proof (digits_value_of_N n) as Hv. rewrite H in Hv.
  cbn in Hv. subst n. discriminate H.
Qed.

Lemma span_digits_app a b :
  forallb is_digit a = true ->
  match b with [] => True | c :: _ => is_digit c = false end ->
  span_digits (a ++ b) = (a, b).
Proof.
  intros Ha Hb. induction a as [|c a IH]; cbn [app span_digits].
  - destruct b as [|c b]; [reflexivity|]. cbn. rewrite Hb. reflexivity.
  - cbn in Ha. apply andb_prop in Ha as [Hc Ha]. rewrite Hc, (IH Ha). reflexivity.
Qed.

Lemma span_digits_all a : forallb is_digit a = true -> span_digits a = (a, []).
Proof.
  intros Ha. rewrite <- (app_nil_r a) at 1. apply span_digits_app; [exact Ha | exact I].
Qed.

Lemma digits_value_app a b :
  digits_value (a ++ b) = fold_left dstep b (digits_value a).
Proof. unfold digits_value. apply fold_left_app. Qed.

Lemma digits_value_zeros k ds : digits_value (zeros k ++ ds) = digits_value ds.
Proof.
  rewrite digits_value_app. unfold zeros.
  assert (H : digits_value (repeat "0"%char (Z.to_nat k)) = 0%N).
  { induction (Z.to_nat k) as [|n IH]; [reflexivity|]. exact IH. }
  rewrite H. reflexivity.
Qed.

Lemma zeros_digits k : forallb is_digit (zeros k) = true.
Proof. unfold zeros. induction (Z.to_nat k); cbn; auto. Qed.

Lemma length_zeros k : 0 <= k -> Z.of_nat (length (zeros k)) = k.
Proof. intros H. unfold zeros. rewrite repeat_length. lia. Qed.

Lemma drop_while_head p s :
  match s with [] => True | c :: _ => p c = false end -> drop_while p s = s.
Proof. destruct s as [|c s]; [reflexivity|]. cbn. intros ->. reflexivity. Qed.

Lemma strip_solid s : forallb solid s = true -> strip s = s.
Proof.
  intros H. unfold strip.
  assert (Hhead : forall t, forallb solid t = true ->
            match t with [] => True | c :: _ => is_space c = false end).
  { intros [|c t]; [trivial|]. cbn. intros Ht. apply andb_prop in Ht as [Hc _].
    unfold solid in Hc. apply andb_prop in Hc as [Hc _].
    apply negb_true_iff in Hc. exact Hc. }
  rewrite (drop_while_head is_space s) by (apply Hhead, H).
  rewrite (drop_while_head is_space (rev s)).
  - apply rev_involutive.
  - apply Hhead. apply forallb_forall. intros x Hx. apply in_rev in Hx.
    revert x Hx. apply forallb_forall. exact H.
Qed.

Lemma remove_underscores_solid s :
  forallb solid s = true -> remove_underscores s = s.
Proof.
  intros H. unfold remove_underscores. induction s as [|c s IH]; [reflexivity|].
  cbn [forallb] in H. apply andb_prop in H as [Hc Hs].
  unfold solid in Hc. apply andb_prop in Hc as [_ Hc].
  cbn [List.filter]. rewrite Hc, (IH Hs). reflexivity.
Qed.

Lemma digit_solid c : is_digit c = true -> solid c = true.
Proof.
  unfold is_digit, solid, is_space. intros H. apply andb_prop in H as [H1 H2].
  apply N.leb_le in H1, H2.
  assert (Hu : Ascii.eqb c "_" = false).
  { apply Ascii.eqb_neq. intros ->. vm_compute in H2. apply H2. reflexivity. }
  rewrite Hu. cbn [negb andb].
  rewrite andb_true_r. apply negb_true_iff. apply orb_false_iff. split.
  - apply andb_false_iff. right. apply N.leb_gt. lia.
  - apply andb_false_iff. right. apply N.leb_gt. lia.
Qed.

Lemma digits_solid s : forallb is_digit s = true -> forallb solid s = true.
Proof.
  intros H. apply forallb_forall. intros x Hx. apply digit_solid.
  revert x Hx. apply forallb_forall. exact H.
Qed.

Lemma scan_exponent_signed x :
  scan_exponent ("E"%char :: PyDecimal.signed_exponent x) = Some x.
Proof.
  unfold scan_exponent, PyDecimal.signed_exponent.
  change (Ascii.eqb (lower_char "E") "e") with true. cbv iota.
  assert (Hsp := span_digits_all (of_N (Z.abs_N x)) (of_N_digits _)).
  assert (Hval := digits_value_of_N (Z.abs_N x)).
  destruct (of_N (Z.abs_N x)) as [|d ds] eqn:Hd;
    [exfalso; eapply of_N_nonempty; eassumption|].
  destruct (Z.ltb_spec x 0).
  - change (take_sign ("-"%char :: d :: ds)) with (true, d :: ds).
    cbv iota beta. rewrite Hsp, Hval. f_equal. lia.
  - change (take_sign ("+"%char :: d :: ds)) with (false, d :: ds).
    cbv iota beta. rewrite Hsp, Hval. f_equal. lia.
Qed.

Lemma scan_exponent_repr x : scan_exponent (Float.repr_exponent x) = Some x.
Proof.
  unfold scan_exponent, Float.repr_exponent.
  change (Ascii.eqb (lower_char "e") "e") with true. cbv iota.
  assert (Hdig := of_N_digits (Z.abs_N x)).
  assert (Hval := digits_value_of_N (Z.abs_N x)).
  assert (Hne := of_N_nonempty (Z.abs_N x)).
  set (a := of_N (Z.abs_N x)) in *.
  assert (Hpad : exists d ds,
             (if Z.abs x <? 10 then "0"%char :: a else a) = d :: ds
             /\ forallb is_digit (d :: ds) = true
             /\ digits_value (d :: ds) = Z.abs_N x).
  { destruct (Z.abs x <? 10).
    - exists "0"%char, a. repeat split; [cbn [forallb]; rewrite Hdig; reflexivity|].
      exact Hval.
    - destruct a as [|d ds]; [contradiction|]. exists d, ds. repeat split; assumption. }
  destruct Hpad as (d & ds & -> & Hd & Hv).
  pose proof (span_digits_all (d :: ds) Hd) as Hsp.
  destruct (Z.ltb_spec x 0).
  - change (take_sign ("-"%char :: d :: ds)) with (true, d :: ds).
    cbv iota beta. rewrite Hsp, Hv. f_equal. lia.
  - change (take_sign ("+"%char :: d :: ds)) with (false, d :: ds).
    cbv iota beta. rewrite Hsp, Hv. f_equal. lia.
Qed.

Import PyDecimal.

Lemma exp_part_head x ex :
  exp_part x ex -> match ex with [] => True | c :: _ => is_digit c = false end.
Proof. intros [[-> _] | [-> | ->]]; [exact I | reflexivity | reflexivity]. Qed.

Lemma exp_part_not_point x ex :
  exp_part x ex ->
  match ex with [] => True | c :: _ => Ascii.eqb c "." = false end.
Proof. intros [[-> _] | [-> | ->]]; [exact I | reflexivity | reflexivity]. Qed.

Lemma exp_part_scan x ex : exp_part x ex -> scan_exponent ex = Some x.
Proof.
  intros [[-> ->] | [-> | ->]];
    [reflexivity | apply scan_exponent_signed | apply scan_exponent_repr].
Qed.

Lemma exp_part_solid x ex : exp_part x ex -> forallb solid ex = true.
Proof.
  intros [[-> _] | [-> | ->]]; [reflexivity | |].
  - unfold signed_exponent. cbn [forallb].
    destruct (x <? 0); cbn [forallb]; rewrite digits_solid by apply of_N_digits;
      reflexivity.
  - unfold Float.repr_exponent. cbn [forallb].
    destruct (x <? 0), (Z.abs x <? 10); cbn [forallb];
      rewrite digits_solid by apply of_N_digits; reflexivity.
Qed.

Lemma scan_number_plain ip ex x :
  forallb is_digit ip = true -> ip <> [] -> exp_part x ex ->
  scan_number (ip ++ ex) = Some (ip, [], x).
Proof.
  intros Hip Hne Hex. unfold scan_number.
  rewrite (span_digits_app ip ex Hip (exp_part_head x ex Hex)).
  assert (Hfp : (match ex with
                 | c :: r => if Ascii.eqb c "." then span_digits r else ([], ex)
                 | [] => ([], [])
                 end) = ([], ex)).
  { pose proof (exp_part_not_point x ex Hex) as Hp.
    destruct ex as [|c r]; [reflexivity|]. rewrite Hp. reflexivity. }
  rewrite Hfp. rewrite (exp_part_scan x ex Hex).
  destruct ip; [contradiction | reflexivity].
Qed.

Lemma scan_number_point ip fp ex x :
  forallb is_digit ip = true -> forallb is_digit fp = true -> ip <> [] ->
  exp_part x ex ->
  scan_number (ip ++ "."%char :: fp ++ ex) = Some (ip, fp, x).
Proof.
  intros Hip Hfp Hne Hex. unfold scan_number.
  rewrite (span_digits_app ip ("."%char :: fp ++ ex) Hip) by reflexivity.
  change (Ascii.eqb "." ".") with true. cbv iota.
  rewrite (span_digits_app fp ex Hfp (exp_part_head x ex Hex)).
  rewrite (exp_part_scan x ex Hex).
  destruct ip; [contradiction | reflexivity].
Qed.

Lemma digit_head_tests c r :
  is_digit c = true ->
  Text.eqb (lower (c :: r)) (txt "inf") = false
  /\ Text.eqb (lower (c :: r)) (txt "infinity") = false
  /\ startswith (txt "nan") (lower (c :: r)) = false
  /\ startswith (txt "snan") (lower (c :: r)) = false.
Proof.
  intros Hc.
  assert (Hl : lower_char c = c).
  { unfold lower_char. unfold is_digit in Hc. apply andb_prop in Hc as [_ H2].
    apply N.leb_le in H2.
    destruct (N.leb_spec 65 (code c)); [lia | reflexivity]. }
  assert (Hne : forall x, is_digit x = false -> Ascii.eqb c x = false).
  { intros x Hx. apply Ascii.eqb_neq. intros ->. congruence. }
  cbn [lower map]. rewrite Hl.
  unfold Text.eqb, txt. cbn [string_of_list_ascii list_ascii_of_string String.eqb startswith].
  rewrite (Hne "i"%char eq_refl).
  rewrite (Ascii.eqb_sym "n"%char c), (Hne "n"%char eq_refl).
  rewrite (Ascii.eqb_sym "s"%char c), (Hne "s"%char eq_refl).
  repeat split; reflexivity.
Qed.

Lemma take_sign_sign_chars s c r :
  is_digit c = true ->
  take_sign (sign_chars s ++ c :: r) = (s, c :: r).
Proof.
  intros Hc. destruct s; [reflexivity|]. cbn [sign_chars app take_sign].
  assert (H1 : Ascii.eqb c "-" = false).
  { apply Ascii.eqb_neq. intros ->. discriminate Hc. }
  assert (H2 : Ascii.eqb c "+" = false).
  { apply Ascii.eqb_neq. intros ->. discriminate Hc. }
  rewrite H1, H2. reflexivity.
Qed.

Lemma sign_chars_solid s : forallb solid (sign_chars s) = true.
Proof. destruct s; reflexivity. Qed.

(** Parsing a digit-led, solid text. *)
Lemma of_string_number s body ip fp x :
  forallb solid body = true ->
  match body with c :: _ => is_digit c = true | [] => False end ->
  scan_number body = Some (ip, fp, x) ->
  of_string (sign_chars s ++ body)
  = Ret (Finite s (digits_value (ip ++ fp)) (x - Z.of_nat (length fp))).
Proof.
  intros Hsolid Hhead Hscan. unfold of_string.
  assert (Hall : forallb solid (sign_chars s ++ body) = true).
  { rewrite forallb_app, sign_chars_solid, Hsolid. reflexivity. }
  rewrite (strip_solid _ Hall), (remove_underscores_solid _ Hall).
  destruct body as [|c r]; [contradiction|].
  rewrite (take_sign_sign_chars s c r Hhead).
  destruct (digit_head_tests c r Hhead) as (T1 & T2 & T3 & T4).
  rewrite T1, T2, T3, T4. cbn [orb]. rewrite Hscan. reflexivity.
Qed.

Lemma head_digit_app ip tail :
  forallb is_digit ip = true -> ip <> [] ->
  match ip ++ tail with c :: _ => is_digit c = true | [] => False end.
Proof.
  intros Hip Hne. destruct ip as [|c r]; [contradiction|].
  cbn in Hip |- *. apply andb_prop in Hip as [Hc _]. exact Hc.
Qed.

Lemma of_string_plain s ip ex x :
  forallb is_digit ip = true -> ip <> [] -> exp_part x ex ->
  of_string (sign_chars s ++ ip ++ ex) = Ret (Finite s (digits_value ip) x).
Proof.
  intros Hip Hne Hex.
  rewrite (of_string_number s (ip ++ ex) ip [] x).
  - rewrite app_nil_r. f_equal. f_equal. cbn. lia.
  - rewrite forallb_app, (digits_solid ip Hip), (exp_part_solid x ex Hex). reflexivity.
  - apply head_digit_app; assumption.
  - apply scan_number_plain; assumption.
Qed.

Lemma of_string_point s ip fp ex x :
  forallb is_digit ip = true -> forallb is_digit fp = true -> ip <> [] ->
  exp_part x ex ->
  of_string (sign_chars s ++ ip ++ "."%char :: fp ++ ex)
  = Ret (Finite s (digits_value (ip ++ fp)) (x - Z.of_nat (length fp))).
Proof.
  intros Hip Hfp Hne Hex.
  apply (of_string_number s (ip ++ "."%char :: fp ++ ex) ip fp x).
  - rewrite forallb_app. cbn [forallb]. rewrite forallb_app.
    rewrite (digits_solid ip Hip), (digits_solid fp Hfp), (exp_part_solid x ex Hex).
    reflexivity.
  - apply head_digit_app; assumption.
  - apply scan_number_point; assumption.
Qed.


Lemma firstn_digits n ds : forallb is_digit ds = true -> forallb is_digit (firstn n ds) = true.
Proof.
  revert ds. induction n as [|n IH]; intros [|c r] H; try reflexivity.
  cbn in H |- *. apply andb_prop in H as [Hc Hr]. rewrite Hc. cbn. apply IH, Hr.
Qed.

Lemma skipn_digits n ds : forallb is_digit ds = true -> forallb is_digit (skipn n ds) = true.
Proof.
  revert ds. induction n as [|n IH]; intros [|c r] H; try reflexivity; try exact H.
  cbn in H |- *. apply andb_prop in H as [Hc Hr]. apply IH, Hr.
Qed.

Lemma firstn_nonempty {A} n (l : list A) : (0 < n)%nat -> l <> [] -> firstn n l <> [].
Proof. destruct n; [lia|]. destruct l; [contradiction|]. discriminate. Qed.





End DecimalText.

(** ** The tag store and the REST handlers *)

Module TagFacts.

Import DecimalSyntax DecimalText TagSpec.
Local Open Scope list_scope.

Import Text PyVal Models TagStore.

(** *** Dictionaries under string keys *)

Lemma py_eqb_VStr_r k s : py_eqb k (VStr s) = true -> k = VStr s.
Proof.
  destruct k as [|b|z|f|d|t|l|kvs]; cbn; try discriminate.
  - destruct f; cbn; discriminate.
  - destruct d; cbn; discriminate.
  - intros H. apply String.eqb_eq in H. congruence.
Qed.

Lemma py_eqb_VStr_refl s : py_eqb (VStr s) (VStr s) = true.
Proof. cbn. apply String.eqb_refl. Qed.

Lemma dict_lookup_store_same {V} s (v : V) d :
  dict_lookup (VStr s) (dict_store (VStr s) v d) = Some v.
Proof.
  induction d as [|[k' v'] r IH]; cbn [dict_store dict_lookup].
  - rewrite py_eqb_VStr_refl. reflexivity.
  - destruct (py_eqb k' (VStr s)) eqn:E; cbn [dict_lookup]; rewrite E;
      [reflexivity | exact IH].
Qed.

Lemma dict_lookup_store_other {V} s t (v : V) d :
  s <> t -> dict_lookup (VStr t) (dict_store (VStr s) v d) = dict_lookup (VStr t) d.
Proof.
  intros Hst. induction d as [|[k' v'] r IH]; cbn [dict_store dict_lookup].
  - destruct (py_eqb (VStr s) (VStr t)) eqn:E; [|reflexivity].
    apply py_eqb_VStr_r in E. congruence.
  - destruct (py_eqb k' (VStr s)) eqn:E; cbn [dict_lookup].
    + apply py_eqb_VStr_r in E. subst k'.
      destruct (py_eqb (VStr s) (VStr t)) eqn:E'; [|reflexivity].
      apply py_eqb_VStr_r in E'. congruence.
    + rewrite IH. reflexivity.
Qed.

Lemma dict_store_keys {V} k (v : V) d :
  dict_lookup k d <> None -> map fst (dict_store k v d) = map fst d.
Proof.
  induction d as [|[k' v'] r IH]; cbn [dict_store dict_lookup map fst];
    [congruence|].
  destruct (py_eqb k' k); cbn [map fst]; [reflexivity|].
  intros H. rewrite IH by exact H. reflexivity.
Qed.

(** *** [TagStore.add_tag] *)

Lemma lower_empty_or (dt : string) :
  (if truthy (VStr dt) then py_lower (VStr dt) else Ret []) = Ret (lower (txt dt)).
Proof.
  cbn [truthy py_lower]. destruct (String.eqb_spec dt ""); [subst; reflexivity|reflexivity].
Qed.

Lemma add_tag_default_run ts tag id dt :
  tag_id tag = VStr id -> data_type tag = VStr dt ->
  TagStore.add_tag tag VNone ts
  = (mkStore (dict_store (VStr id) tag (_tags ts))
             (dict_store (VStr id) (default_value (lower (txt dt))) (_values ts)),
     Ret tt).
Proof.
  intros Hid Hdt. unfold TagStore.add_tag, mbind, set_tag, set_raw, lift, dict_set.
  rewrite Hid, Hdt, lower_empty_or. reflexivity.
Qed.

Lemma add_tag_initial_run ts tag id iv :
  tag_id tag = VStr id -> is_None iv = false ->
  TagStore.add_tag tag iv ts
  = (mkStore (dict_store (VStr id) tag (_tags ts))
             (dict_store (VStr id) iv (_values ts)),
     Ret tt).
Proof.
  intros Hid Hiv. unfold TagStore.add_tag, mbind, set_tag, set_raw, lift, dict_set.
  rewrite Hid, Hiv. reflexivity.
Qed.

Lemma raw_value_store ts id tags v :
  raw_value id (mkStore tags (dict_store (VStr id) v (_values ts))) = v.
Proof. unfold raw_value. cbn [_values]. rewrite dict_lookup_store_same. reflexivity. Qed.

(** *** [TagStore.get_value] returns *)

Lemma get_value_str id ts :
  get_value (VStr id) ts =
  match dict_lookup (VStr id) (_values ts) with
  | None | Some VNone => Ret VNone
  | Some raw =>
      match dict_lookup (VStr id) (_tags ts) with
      | None => Ret raw
      | Some tag =>
          if is_boolean tag raw then Ret raw
          else if default_scaling tag then get_unscaled tag raw
               else get_scaled tag (float_or (scale_mul tag) Float.one)
                                   (float_or (scale_add tag) Float.zero) raw
      end
  end.
Proof. reflexivity. Qed.

(** Scaling factors stored as the floats [1.0] and [0.0] are the default
    scaling. *)
Lemma default_scaling_of_floats tag :
  scale_mul tag = VFloat Float.one -> scale_add tag = VFloat Float.zero ->
  default_scaling tag = true.
Proof. unfold default_scaling, float_or. intros -> ->. reflexivity. Qed.

Lemma get_unscaled_shape tag raw :
  exists v, get_unscaled tag raw = Ret v /\ (is_Decimal v = true \/ v = raw).
Proof.
  unfold get_unscaled, try_except, Py.bind.
  destruct (decimal_of raw) as [d|e]; [|eauto].
  destruct (negb (is_None (decimals tag))); [|eauto].
  destruct (quantize_to d (decimals tag)); eauto.
Qed.

Lemma get_scaled_shape tag mul add raw :
  exists v, get_scaled tag mul add raw = Ret v /\ (is_Decimal v = true \/ v = raw).
Proof.
  unfold get_scaled, try_except, Py.bind.
  destruct (decimal_of raw) as [d|e]; [|eauto].
  destruct (PyDecimal.of_string (Float.repr mul)) as [dm|e]; [|eauto].
  destruct (PyDecimal.of_string (Float.repr add)) as [da|e]; [|eauto].
  destruct (PyDecimal.mul d dm) as [p|e]; [|eauto].
  destruct (PyDecimal.add p da) as [s|e]; [|eauto].
  destruct (negb (is_None (decimals tag))); [|eauto].
  destruct (quantize_to s (decimals tag)); eauto.
Qed.

(** C10.  [get_value] is total at the tag store interface: for every
    tag id, whatever raw value is stored and whatever the metadata hold,
    it returns and never raises; what it returns is a decimal, or else
    the raw value itself ([None] when there is none). *)
Theorem get_value_total (ts : TagStore) (tag_id : string) :
  exists v, get_value (VStr tag_id) ts = Ret v
            /\ (is_Decimal v = true \/ v = raw_value tag_id ts).
Proof.
  rewrite get_value_str. unfold raw_value.
  destruct (dict_lookup (VStr tag_id) (_values ts)) as [raw|]; [|eauto].
  destruct (dict_lookup (VStr tag_id) (_tags ts)) as [tag|].
  2:{ destruct raw; eauto. }
  assert (H : exists v,
            (if is_boolean tag raw then Ret raw
             else if default_scaling tag then get_unscaled tag raw
                  else get_scaled tag (float_or (scale_mul tag) Float.one)
                         (float_or (scale_add tag) Float.zero) raw) = Ret v
            /\ (is_Decimal v = true \/ v = raw)).
  { destruct (is_boolean tag raw); [eauto|].
    destruct (default_scaling tag);
      [apply get_unscaled_shape | apply get_scaled_shape]. }
  destruct raw; try exact H. eauto.
Qed.

(** *** Type defaults *)

Lemma default_value_of_type T :
  default_value (lower (txt (data_type_name T))) = type_default T.
Proof. destruct T; vm_compute; reflexivity. Qed.

(** C5, amended.  For every tag of a Boolean or numeric data type added
    with no initial value, [add_tag] stores the type-based default:
    [False] for Boolean, [0] for the integer types (Int16, Int32, Int64,
    UInt32) and [0.0] for the other numeric types (Float, Double). *)
Theorem add_tag_type_default ts tag id T :
  tag_id tag = VStr id ->
  data_type tag = VStr (data_type_name T) ->
  exists ts',
    TagStore.add_tag tag VNone ts = (ts', Ret tt)
    /\ raw_value id ts' = type_default T.
Proof.
  intros Hid Hdt. eexists. split.
  - apply (add_tag_default_run ts tag id _ Hid Hdt).
  - rewrite raw_value_store. apply default_value_of_type.
Qed.

Lemma add_tag_type_default_witness :
  exists ts',
    TagStore.add_tag (sample_tag "t1" "Int32") VNone TagStore.empty = (ts', Ret tt)
    /\ raw_value "t1" ts' = VInt 0.
Proof.
  apply (add_tag_type_default TagStore.empty (sample_tag "t1" "Int32") "t1" Int32);
    reflexivity.
Defined.

(** C5, as the specification words it, fails: a tag of data type String
    added with no initial value holds the float [0.0], not the empty
    string. *)
Lemma string_tag_default_is_float :
  exists ts',
    TagStore.add_tag (sample_tag "s1" "String") VNone TagStore.empty = (ts', Ret tt)
    /\ raw_value "s1" ts' = VFloat Float.zero
    /\ raw_value "s1" ts' <> VStr "".
Proof. eexists. split; [reflexivity|]. split; [reflexivity | discriminate]. Qed.

(** Every other data type, named or not, takes the float default. *)
Lemma add_tag_other_default ts tag id dt :
  tag_id tag = VStr id -> data_type tag = VStr dt ->
  startswith (txt "bool") (lower (txt dt)) = false ->
  contains (txt "int") (lower (txt dt)) = false ->
  exists ts',
    TagStore.add_tag tag VNone ts = (ts', Ret tt)
    /\ raw_value id ts' = VFloat Float.zero.
Proof.
  intros Hid Hdt Hb Hi. eexists. split.
  - apply (add_tag_default_run ts tag id _ Hid Hdt).
  - rewrite raw_value_store. unfold default_value. rewrite Hb, Hi. reflexivity.
Qed.

(** *** [POST /api/v1/tags] and [PUT /api/v1/tags/import] *)

Import Api.

Lemma convert_strings ids :
  Forall (fun v => is_str v = true) ids -> map _convert ids = ids.
Proof.
  induction 1 as [|v l Hv _ IH]; [reflexivity|]. cbn [map].
  rewrite IH. destruct v; try discriminate. reflexivity.
Qed.

Lemma post_single_run kvs ts tag id dt :
  kvs <> [] ->
  field kvs "tags" = None ->
  field kvs "initial_value" = None ->
  tag_of_payload (VDict kvs) = Ret tag ->
  tag_id tag = VStr id -> data_type tag = VStr dt ->
  Api.add_tag (VDict kvs) ts
  = (mkStore (dict_store (VStr id) tag (_tags ts))
             (dict_store (VStr id) (default_value (lower (txt dt))) (_values ts)),
     Ret (mkResponse 201 (VDict [("created", VList [VStr id])]))).
Proof.
  intros Hne Htags Hiv Htag Hid Hdt.
  unfold Api.add_tag, py_or.
  assert (Ht : truthy (VDict kvs) = true)
    by (destruct kvs; [contradiction | reflexivity]).
  rewrite Ht. unfold mbind, lift, py_contains. rewrite Htags.
  assert (Hd : bool_decide (is_Some (@None pyval)) = false).
  { apply bool_decide_eq_false. intros [x Hx]. discriminate. }
  rewrite Hd. cbn [add_tag_loop].
  unfold create_one, mbind, lift. rewrite Htag. cbn [py_get]. rewrite Hiv.
  rewrite (add_tag_default_run ts tag id dt Hid Hdt).
  unfold mret. cbn [add_tag_loop app]. rewrite Hid. reflexivity.
Qed.

(** C9.  For a tag id already in the store, a second [add_tag], and a
    [POST /api/v1/tags] carrying that id and no [initial_value], does not
    fail or report a conflict: the request answers 201 with the id listed
    in [created], the metadata are replaced by the new tag, the stored
    value is overwritten with the default of the new data type, and no
    key is added. *)
Theorem duplicate_add_tag_replaces ts kvs tag id dt old :
  dict_lookup (VStr id) (_tags ts) = Some old ->
  field kvs "tags" = None ->
  field kvs "initial_value" = None ->
  tag_of_payload (VDict kvs) = Ret tag ->
  tag_id tag = VStr id -> data_type tag = VStr dt ->
  exists ts',
    TagStore.add_tag tag VNone ts = (ts', Ret tt)
    /\ Api.add_tag (VDict kvs) ts
       = (ts', Ret (mkResponse 201 (VDict [("created", VList [VStr id])])))
    /\ dict_lookup (VStr id) (_tags ts') = Some tag
    /\ raw_value id ts' = default_value (lower (txt dt))
    /\ map fst (_tags ts') = map fst (_tags ts).
Proof.
  intros Hold Htags Hiv Htag Hid Hdt.
  assert (Hne : kvs <> []).
  { intros ->. vm_compute in Htag. injection Htag as <-. discriminate Hid. }
  eexists. split; [apply (add_tag_default_run ts tag id dt Hid Hdt)|].
  split; [apply (post_single_run kvs ts tag id dt Hne Htags Hiv Htag Hid Hdt)|].
  cbn [_tags]. split; [apply dict_lookup_store_same|].
  split; [apply raw_value_store|].
  apply dict_store_keys. rewrite Hold. discriminate.
Qed.

Lemma duplicate_add_tag_replaces_witness :
  exists ts',
    TagStore.add_tag (sample_tag "t1" "Double") VNone store_with_t1 = (ts', Ret tt)
    /\ Api.add_tag (VDict repost_t1) store_with_t1
       = (ts', Ret (mkResponse 201 (VDict [("created", VList [VStr "t1"])])))
    /\ dict_lookup (VStr "t1") (_tags ts') = Some (sample_tag "t1" "Double")
    /\ raw_value "t1" ts' = default_value (lower (txt "Double"))
    /\ map fst (_tags ts') = map fst (_tags store_with_t1).
Proof.
  apply (duplicate_add_tag_replaces store_with_t1 repost_t1
           (sample_tag "t1" "Double") "t1" "Double" (sample_tag "t1" "Int32"));
    reflexivity.
Defined.

(** C4.  The code at a payload with neither [tag_id] nor [name]:
    [POST /api/v1/tags] with the body [{}] answers 201, lists [null] as
    created and stores a tag and the value [0.0] under the key [None];
    [PUT /api/v1/tags/import?replace_all=true] with the tag [{}] answers
    400 after it has emptied the store. *)
Theorem invalid_payload_mutates_store :
  (exists ts',
      Api.add_tag (VDict []) store_with_t1
      = (ts', Ret (mkResponse 201 (VDict [("created", VList [VNone])])))
      /\ dict_lookup VNone (_tags ts') <> None
      /\ dict_lookup VNone (_values ts') = Some (VFloat Float.zero))
  /\ import_tags (Some "true") (VDict [("tags", VList [VDict []])]) store_with_t1
     = (TagStore.empty,
        Ret (mkResponse 400
               (error_body "tag_id or name is required and must be a string"))).
Proof.
  split; [|reflexivity].
  eexists. split; [reflexivity|]. split; [discriminate | reflexivity].
Qed.

(** *** [Decimal(str(v))] by the type of [v] *)

Import PyDecimal.








Lemma fold_dstep_zeros j a :
  fold_left dstep (repeat "0"%char j) a = (a * 10 ^ N.of_nat j)%N.
Proof.
  revert a. induction j as [|j IH]; intros a.
  - cbn. lia.
  - cbn [repeat fold_left]. rewrite IH. unfold dstep.
    change (digit_val "0") with 0%N.
    rewrite Nat2N.inj_succ, N.pow_succ_r'. lia.
Qed.

Lemma digits_value_then_zeros ds j :
  0 <= j -> digits_value (ds ++ zeros j) = (digits_value ds * 10 ^ Z.to_N j)%N.
Proof.
  intros Hj. rewrite digits_value_app. unfold zeros. rewrite fold_dstep_zeros.
  f_equal. f_equal. lia.
Qed.

Lemma repr_signed s m e :
  Float.repr (S754_finite s m e) = sign_chars s ++ Float.repr_finite m e.
Proof. destruct s; reflexivity. Qed.

Lemma decimal_of_float_ok f : decimal_of (VFloat f) = Ret (decimal_of_float f).
Proof.
  unfold decimal_of. cbn [py_str py_repr].
  destruct f as [s|s| |s m e];
    [destruct s; vm_compute; reflexivity | destruct s; vm_compute; reflexivity
    | vm_compute; reflexivity |].
  rewrite repr_signed. unfold Float.repr_finite, decimal_of_float, ndigits.
  destruct (Float.shortest m e) as [d k].
  pose proof (of_N_digits (Z.to_N d)) as Hds.
  pose proof (of_N_nonempty (Z.to_N d)) as Hne.
  pose proof (digits_value_of_N (Z.to_N d)) as Hval.
  set (ds := of_N (Z.to_N d)) in *.
  assert (HL : 1 <= Z.of_nat (length ds)).
  { destruct ds; [contradiction | cbn [length]; lia]. }
  set (n := Z.of_nat (length ds)) in *.
  destruct ((k + n <=? -4) || (16 <? k + n)) eqn:Hsci.
  - (* scientific *)
    assert (Hfin : (0 <=? k) && (k + n <=? 16) = false).
    { apply orb_prop in Hsci as [H|H].
      - apply Z.leb_le in H. apply andb_false_iff. left. apply Z.leb_gt. lia.
      - apply Z.ltb_lt in H. apply andb_false_iff. right. apply Z.leb_gt. lia. }
    rewrite Hfin.
    assert (Hex : exp_part (k + n - 1) (Float.repr_exponent (k + n - 1)))
      by (right; right; reflexivity).
    destruct ds as [|c [|c' r]] eqn:Eds; [contradiction| |].
    + change (c :: Float.repr_exponent (k + n - 1))
        with ([c] ++ Float.repr_exponent (k + n - 1)).
      rewrite (of_string_plain s [c] _ (k + n - 1) Hds Hne Hex).
      rewrite Hval. f_equal. f_equal. subst n. cbn [length]. lia.
    + change (c :: "."%char :: (c' :: r) ++ Float.repr_exponent (k + n - 1))
        with ([c] ++ "."%char :: (c' :: r) ++ Float.repr_exponent (k + n - 1)).
      cbn [forallb] in Hds. apply andb_prop in Hds as [Hc Hr].
      rewrite (of_string_point s [c] (c' :: r) _ (k + n - 1));
        [| cbn [forallb]; rewrite Hc; reflexivity | exact Hr | discriminate
         | exact Hex].
      change ([c] ++ c' :: r) with (c :: c' :: r). rewrite Hval.
      f_equal. f_equal. subst n. cbn [length]. lia.
  - apply orb_false_iff in Hsci as [H1 H2].
    apply Z.leb_gt in H1. apply Z.ltb_ge in H2.
    destruct (Z.leb_spec (k + n) 0) as [Hdp|Hdp].
    + (* 0.000ddd *)
      destruct (Z.leb_spec 0 k) as [|_]; [lia|]. cbn [andb].
      change ("0"%char :: "."%char :: zeros (- (k + n)) ++ ds)
        with (["0"%char] ++ "."%char :: (zeros (- (k + n)) ++ ds)).
      rewrite <- (app_nil_r (zeros (- (k + n)) ++ ds)).
      rewrite (of_string_point s ["0"%char] (zeros (- (k + n)) ++ ds) [] 0);
        [| reflexivity | rewrite forallb_app, zeros_digits, Hds; reflexivity
         | discriminate | left; split; reflexivity].
      f_equal. f_equal.
      * change (digits_value (["0"%char] ++ zeros (- (k + n)) ++ ds))
          with (digits_value (zeros (- (k + n)) ++ ds)).
        rewrite digits_value_zeros. exact Hval.
      * rewrite length_app, Nat2Z.inj_add, length_zeros by lia. fold n. lia.
    + destruct (Z.leb_spec n (k + n)) as [Hle|Hlt].
      * (* ddd000.0 *)
        destruct (Z.leb_spec 0 k) as [_|]; [|lia].
        destruct (Z.leb_spec (k + n) 16) as [_|]; [|lia]. cbn [andb].
        replace (ds ++ zeros (k + n - n) ++ ["."%char; "0"%char])
          with ((ds ++ zeros k) ++ "."%char :: ["0"%char] ++ [])
          by (rewrite <- app_assoc; do 3 f_equal; lia).
        rewrite (of_string_point s (ds ++ zeros k) ["0"%char] [] 0);
          [| rewrite forallb_app, zeros_digits, Hds; reflexivity | reflexivity
           | destruct ds; [contradiction | discriminate]
           | left; split; reflexivity].
        f_equal. f_equal.
        rewrite digits_value_app, digits_value_then_zeros, Hval by lia.
        cbn [fold_left]. unfold dstep. change (digit_val "0") with 0%N.
        rewrite Z2N.inj_add, N.pow_add_r by lia. change (Z.to_N 1) with 1%N. lia.
      * (* dd.ddd *)
        destruct (Z.leb_spec 0 k) as [|_]; [lia|]. cbn [andb].
        rewrite <- (app_nil_r (skipn (Z.to_nat (k + n)) ds)).
        rewrite (of_string_point s (firstn (Z.to_nat (k + n)) ds)
                   (skipn (Z.to_nat (k + n)) ds) [] 0);
          [| apply firstn_digits, Hds | apply skipn_digits, Hds
           | apply firstn_nonempty; [lia | exact Hne]
           | left; split; reflexivity].
        rewrite firstn_skipn, length_skipn. f_equal. f_equal; [exact Hval|]. lia.
Qed.

(** *** [TagStore.get_value], branch by branch *)

Lemma get_unscaled_value tag raw :
  get_unscaled tag raw =
  Ret (match decimal_of raw with
       | Raise _ => raw
       | Ret d =>
           if is_None (decimals tag) then VDecimal d
           else match quantize_to d (decimals tag) with
                | Ret q => VDecimal q
                | Raise _ => raw
                end
       end).
Proof.
  unfold get_unscaled, try_except, Py.bind.
  destruct (decimal_of raw) as [d|e]; [|reflexivity].
  destruct (is_None (decimals tag)); cbn [negb]; [reflexivity|].
  destruct (quantize_to d (decimals tag)); reflexivity.
Qed.

Lemma get_scaled_value tag mul add raw :
  get_scaled tag mul add raw =
  Ret (match decimal_of raw with
       | Raise _ => raw
       | Ret d =>
           match scaled_decimal d mul add with
           | Raise _ => raw
           | Ret scaled =>
               if is_None (decimals tag) then VDecimal scaled
               else match quantize_to scaled (decimals tag) with
                    | Ret q => VDecimal q
                    | Raise _ => VDecimal scaled
                    end
           end
       end).
Proof.
  pose proof (decimal_of_float_ok mul) as Hm.
  pose proof (decimal_of_float_ok add) as Ha.
  unfold decimal_of in Hm, Ha. cbn [py_str py_repr] in Hm, Ha.
  unfold get_scaled, scaled_decimal, try_except, Py.bind.
  destruct (decimal_of raw) as [d|e]; [|reflexivity].
  rewrite Hm, Ha.
  destruct (PyDecimal.mul d (decimal_of_float mul)) as [p|e]; [|reflexivity].
  destruct (PyDecimal.add p (decimal_of_float add)) as [v|e]; [|reflexivity].
  destruct (is_None (decimals tag)); cbn [negb]; [reflexivity|].
  destruct (quantize_to v (decimals tag)); reflexivity.
Qed.

Lemma get_value_of_tag ts id tag :
  dict_lookup (VStr id) (_tags ts) = Some tag ->
  get_value (VStr id) ts =
  Ret (if is_boolean tag (raw_value id ts) then raw_value id ts
       else scaling_value tag (raw_value id ts)).
Proof.
  intros Htag. rewrite get_value_str, Htag. unfold raw_value.
  destruct (dict_lookup (VStr id) (_values ts)) as [raw|].
  2:{ destruct (is_boolean tag VNone); reflexivity. }
  assert (H : (if is_boolean tag raw then Ret raw
               else if default_scaling tag then get_unscaled tag raw
                    else get_scaled tag (float_or (scale_mul tag) Float.one)
                           (float_or (scale_add tag) Float.zero) raw)
              = Ret (if is_boolean tag raw then raw
                     else match decimal_of raw with
      | Raise _ => raw
      | Ret d =>
          if default_scaling tag then
            if is_None (decimals tag) then VDecimal d
            else
              match quantize_to d (decimals tag) with
              | Ret q => VDecimal q
              | Raise _ => raw
              end
          else
            match scaled_decimal d (float_or (scale_mul tag) Float.one)
                    (float_or (scale_add tag) Float.zero) with
            | Raise _ => raw
            | Ret scaled =>
                if is_None (decimals tag) then VDecimal scaled
                else
                  match quantize_to scaled (decimals tag) with
                  | Ret q => VDecimal q
                  | Raise _ => VDecimal scaled
                  end
            end
      end)).
  { destruct (is_boolean tag raw); [reflexivity|].
    destruct (default_scaling tag).
    - rewrite get_unscaled_value. destruct (decimal_of raw); reflexivity.
    - rewrite get_scaled_value. destruct (decimal_of raw); reflexivity. }
  destruct raw; try exact H.
  destruct (is_boolean tag VNone); reflexivity.
Qed.





(** C2, amended.  For every tag whose data type is not boolean and whose
    raw value is not a boolean, [get_value] returns [scaling_value]: the
    raw value when [Decimal(str(raw))] fails; at default scaling the
    converted decimal itself, quantized half-up when [decimals] is set,
    and the raw value when that quantization signals; otherwise
    [raw * Decimal(str(mul)) + Decimal(str(add))] in the 28-digit context
    (the raw value when that arithmetic signals), quantized half-up when
    [decimals] is set, and left unquantized when the quantization
    signals.  With no value entry for the id it returns [None]. *)
Theorem get_value_scaling ts id tag :
  dict_lookup (VStr id) (_tags ts) = Some tag ->
  is_boolean tag (raw_value id ts) = false ->
  get_value (VStr id) ts = Ret (scaling_value tag (raw_value id ts))
  /\ (dict_lookup (VStr id) (_values ts) = None ->
      get_value (VStr id) ts = Ret VNone).
Proof.
  intros Htag Hbool. rewrite (get_value_of_tag ts id tag Htag), Hbool.
  split; [reflexivity|].
  intros Hnone. unfold raw_value. rewrite Hnone. reflexivity.
Qed.

Lemma get_value_scaling_witness :
  get_value (VStr "t1") scaled_store
  = Ret (scaling_value scaled_tag (raw_value "t1" scaled_store))
  /\ (dict_lookup (VStr "t1") (_values scaled_store) = None ->
      get_value (VStr "t1") scaled_store = Ret VNone).
Proof.
  apply (get_value_scaling scaled_store "t1" scaled_tag);
    vm_compute; reflexivity.
Defined.

Example scaled_store_value :
  scaling_value scaled_tag (raw_value "t1" scaled_store)
  = VDecimal (Finite false 18 (-1)).
Proof. vm_compute. reflexivity. Qed.

(** C2, as the specification words it, fails: with [decimals = 2] and the
    raw int [10^30] the conversion succeeds, the quantization to two
    places needs more than 28 digits and signals, and [get_value] returns
    the raw int, not a decimal. *)
Lemma wide_value_is_not_quantized :
  is_boolean (with_decimals (sample_tag "t1" "Double") (VInt 2))
             (raw_value "t1" wide_store) = false
  /\ decimal_of (raw_value "t1" wide_store) = Ret (Finite false (10 ^ 30) 0)
  /\ get_value (VStr "t1") wide_store = Ret (VInt (10 ^ 30)).
Proof.
  split; [vm_compute; reflexivity|].
  split; vm_compute; reflexivity.
Qed.

(** *** Quantization and exact products *)

Lemma ndigits_pos c : 1 <= ndigits c.
Proof.
  unfold ndigits. pose proof (of_N_nonempty c) as H.
  destruct (of_N c); [contradiction | cbn [length]; lia].
Qed.

Lemma ctx_fix_fits s c e :
  Etiny <= e <= Emax -> ndigits c <= prec -> adjusted c e <= Emax ->
  ctx_fix (Finite s c e) = Ret (Finite s c e).
Proof.
  unfold adjusted, ctx_fix. intros He Hn Ha.
  destruct (N.eqb_spec c 0) as [->|Hc].
  - f_equal. f_equal. lia.
  - destruct (Z.ltb_spec Etop (ndigits c + e - prec)) as [H|_];
      [unfold Etop in H; lia|].
    destruct (Z.ltb_spec e (Z.max (ndigits c + e - prec) Etiny)) as [H|_];
      [lia | reflexivity].
Qed.

Lemma quantize_finite s c e sq cq qe mode q :
  quantize (Finite s c e) (Finite sq cq qe) mode = Ret q ->
  q = rescale s c e qe mode.
Proof.
  unfold quantize. cbn [check_nans].
  destruct (Z.leb_spec Etiny qe) as [H1|]; [|discriminate].
  destruct (Z.leb_spec qe Emax) as [H2|]; [|discriminate]. cbn [andb negb].
  unfold rescale at 2.
  destruct (N.eqb_spec c 0) as [->|Hc].
  - rewrite ctx_fix_fits; [congruence | lia | | ].
    + change (ndigits 0) with 1. unfold prec. lia.
    + unfold adjusted. change (ndigits 0) with 1. lia.
  - destruct (Emax <? adjusted c e); [discriminate|].
    destruct (prec <? adjusted c e - qe + 1); [discriminate|].
    unfold rescale. destruct (N.eqb_spec c 0) as [|_]; [contradiction|].
    set (c' := if qe <=? e then (c * 10 ^ Z.to_N (e - qe))%N
               else round_div mode c (qe - e)).
    assert (Hr : (if qe <=? e then Finite s (c * 10 ^ Z.to_N (e - qe)) qe
                  else Finite s (round_div mode c (qe - e)) qe)
                 = Finite s c' qe) by (subst c'; destruct (qe <=? e); reflexivity).
    rewrite Hr.
    destruct (Z.ltb_spec Emax (adjusted c' qe)) as [|Ha]; [discriminate|].
    destruct (Z.ltb_spec prec (ndigits c')) as [|Hn]; [discriminate|].
    rewrite ctx_fix_fits by (assumption || lia). congruence.
Qed.

(** A product that fits the precision is exact. *)
Lemma mul_exact sa ca ea sb cb eb :
  Etiny <= ea + eb <= Emax ->
  ndigits (ca * cb) <= prec ->
  adjusted (ca * cb) (ea + eb) <= Emax ->
  PyDecimal.mul (Finite sa ca ea) (Finite sb cb eb)
  = Ret (Finite (xorb sa sb) (ca * cb) (ea + eb)).
Proof. intros He Hn Ha. unfold PyDecimal.mul. cbn [check_nans]. apply ctx_fix_fits; assumption. Qed.

Lemma pow10_ge k : (0 < k)%N -> (10 <= 10 ^ k)%N.
Proof.
  intros Hk. change 10%N with (10 ^ 1)%N at 1.
  apply N.pow_le_mono_r; lia.
Qed.

Lemma round_div_one k : 0 < k -> round_div ROUND_HALF_EVEN 1 k = 0%N.
Proof.
  intros Hk. unfold round_div.
  pose proof (pow10_ge (Z.to_N k) ltac:(lia)) as Hp.
  rewrite N.div_small, N.mod_small by lia.
  destruct (N.ltb_spec (10 ^ Z.to_N k) (2 * 1)); [lia|].
  destruct (N.eqb_spec (10 ^ Z.to_N k) (2 * 1)); [lia | reflexivity].
Qed.

Lemma scaleb_one n quant :
  scaleb (of_int 1) (- n) = Ret quant ->
  exists cq, quant = Finite false cq (Z.max (- n) Etiny).
Proof.
  unfold scaleb. change (of_int 1) with (Finite false 1 0).
  unfold of_int at 1. cbn [check_nans].
  destruct (negb _); [discriminate|].
  unfold ctx_fix. change (1 =? 0)%N with false. cbv iota.
  change (ndigits 1) with 1.
  destruct (Etop <? 1 + (0 + - n) - prec); [discriminate|].
  destruct (Z.ltb_spec (0 + - n) (Z.max (1 + (0 + - n) - prec) Etiny)) as [H|H].
  - assert (Hmax : Z.max (1 + (0 + - n) - prec) Etiny = Etiny)
      by (unfold prec in *; lia).
    rewrite Hmax in *.
    rewrite round_div_one by lia.
    change (prec <? ndigits 0) with false. cbv iota.
    destruct (Etop <? Etiny); [discriminate|].
    intros [= <-]. eexists. f_equal. lia.
  - intros [= <-]. eexists. f_equal. unfold prec in H. lia.
Qed.

(** [d.quantize(Decimal(1).scaleb(-n), ROUND_HALF_UP)], when it returns,
    is [d] rescaled to the exponent [-n] (no lower than [Etiny]) with
    half-up rounding. *)
Lemma quantize_to_half_up s c e n q :
  quantize_to (Finite s c e) (VInt n) = Ret q ->
  q = rescale s c e (Z.max (- n) Etiny) ROUND_HALF_UP.
Proof.
  unfold quantize_to. cbn [py_int Py.bind].
  destruct (scaleb (of_int 1) (- n)) as [quant|] eqn:Hq; [|discriminate].
  destruct (scaleb_one n quant Hq) as [cq ->]. cbn [Py.bind].
  apply quantize_finite.
Qed.

(** Half-up rounding of a coefficient: the nearest multiple, a tie going
    away from zero. *)
Lemma round_div_half_up c k :
  round_div ROUND_HALF_UP c k
  = ((2 * c + 10 ^ Z.to_N k) / (2 * 10 ^ Z.to_N k))%N.
Proof.
  unfold round_div. set (p := (10 ^ Z.to_N k)%N).
  assert (Hp : (0 < p)%N) by (apply N.neq_0_lt_0, N.pow_nonzero; lia).
  pose proof (N.div_mod c p ltac:(lia)) as Hdm.
  pose proof (N.mod_lt c p ltac:(lia)) as Hlt.
  set (q := (c / p)%N) in *. set (r := (c mod p)%N) in *.
  destruct (N.leb_spec p (2 * r)) as [Hup|Hdown].
  - apply (N.div_unique _ _ _ (2 * r - p)%N); nia.
  - apply (N.div_unique _ _ _ (2 * r + p)%N); nia.
Qed.

(** *** The serializer and [GET /api/v1/tags/<id>] *)







Example decimal_1_2300_text : str (to_string decimal_1_2300) = "1.2300".
Proof. vm_compute. reflexivity. Qed.



End TagFacts.

(** ** The tag store as a dictionary, and the handlers that change it *)

Module StoreFacts.

Import StoreOps.
Local Open Scope list_scope.
Local Open Scope py_scope.

Import Text PyVal Models TagStore.

Import Api.

Import TagSpec TagFacts.

(** *** Dictionaries: keys and lookups *)
Lemma py_eqb_VStr_l k s : py_eqb (VStr s) k = true -> k = VStr s.
Proof.
  destruct k as [| | | | |t| |]; cbn; try discriminate.
  intros H. apply String.eqb_eq in H. congruence.
Qed.

Lemma py_eqb_VStr_neq s t : s <> t -> py_eqb (VStr s) (VStr t) = false.
Proof. intros H. cbn. apply String.eqb_neq. exact H. Qed.

Lemma dict_lookup_none_iff {V} s (d : pydict V) :
  dict_lookup (VStr s) d = None <-> ~ In (VStr s) (map fst d).
Proof.
  induction d as [|[k v] r IH]; cbn [dict_lookup map fst In].
  - tauto.
  - destruct (py_eqb k (VStr s)) eqn:E.
    + apply py_eqb_VStr_r in E. subst k. split; [discriminate | tauto].
    + rewrite IH. split; [|tauto]. intros H [->|Hin]; [|tauto].
      rewrite py_eqb_VStr_refl in E. discriminate.
Qed.

Lemma dict_lookup_some_in {V} s (d : pydict V) :
  dict_lookup (VStr s) d <> None <-> In (VStr s) (map fst d).
Proof.
  induction d as [|[k v] r IH]; cbn [dict_lookup map fst In].
  - tauto.
  - destruct (py_eqb k (VStr s)) eqn:E.
    + apply py_eqb_VStr_r in E. subst k. split; [auto | discriminate].
    + rewrite IH. split; [tauto|]. intros [->|Hin]; [|exact Hin].
      rewrite py_eqb_VStr_refl in E. discriminate.
Qed.

Lemma dict_store_keys_new {V} s (v : V) d :
  dict_lookup (VStr s) d = None ->
  map fst (dict_store (VStr s) v d) = map fst d ++ [VStr s].
Proof.
  induction d as [|[k' v'] r IH]; cbn [dict_store dict_lookup map fst app];
    [reflexivity|].
  destruct (py_eqb k' (VStr s)); [discriminate|].
  intros H. cbn [map fst]. rewrite IH by exact H. reflexivity.
Qed.

Lemma dict_store_keys_incl {V} s (v : V) d k :
  In k (map fst d) -> In k (map fst (dict_store (VStr s) v d)).
Proof.
  intros Hin. destruct (dict_lookup (VStr s) d) eqn:E.
  - rewrite dict_store_keys by (rewrite E; discriminate). exact Hin.
  - rewrite dict_store_keys_new by exact E. apply in_or_app. auto.
Qed.

Lemma dict_store_key_in {V} s (v : V) d :
  In (VStr s) (map fst (dict_store (VStr s) v d)).
Proof.
  apply dict_lookup_some_in. rewrite dict_lookup_store_same. discriminate.
Qed.

Lemma NoDup_snoc {A} (l : list A) x :
  List.NoDup l -> ~ In x l -> List.NoDup (l ++ [x]).
Proof.
  induction 1 as [|a l Ha Hl IH]; cbn [app In]; intros Hx.
  - constructor; [intros [] | constructor].
  - constructor.
    + intros Hin. apply in_app_or in Hin as [Hin|[->|[]]]; [exact (Ha Hin)|].
      apply Hx. left. reflexivity.
    + apply IH. intros Hin. apply Hx. right. exact Hin.
Qed.

Lemma dict_store_nodup {V} s (v : V) d :
  List.NoDup (map fst d) -> List.NoDup (map fst (dict_store (VStr s) v d)).
Proof.
  intros Hnd. destruct (dict_lookup (VStr s) d) eqn:E.
  - rewrite dict_store_keys by (rewrite E; discriminate). exact Hnd.
  - rewrite dict_store_keys_new by exact E.
    apply NoDup_snoc; [exact Hnd|]. apply dict_lookup_none_iff, E.
Qed.

(** Any key other than the one stored reads as before. *)
Lemma dict_lookup_store_frame {V} s (v : V) d k :
  k <> VStr s -> dict_lookup k (dict_store (VStr s) v d) = dict_lookup k d.
Proof.
  intros Hk. induction d as [|[k' v'] r IH]; cbn [dict_store dict_lookup].
  - destruct (py_eqb (VStr s) k) eqn:E; [|reflexivity].
    apply py_eqb_VStr_l in E. contradiction.
  - destruct (py_eqb k' (VStr s)) eqn:E; cbn [dict_lookup].
    + apply py_eqb_VStr_r in E. subst k'.
      destruct (py_eqb (VStr s) k) eqn:E'; [|reflexivity].
      apply py_eqb_VStr_l in E'. contradiction.
    + rewrite IH. reflexivity.
Qed.

Lemma dict_remove_absent {V} s (d : pydict V) :
  dict_lookup (VStr s) d = None -> dict_remove (VStr s) d = d.
Proof.
  induction d as [|[k v] r IH]; cbn [dict_lookup dict_remove]; [reflexivity|].
  destruct (py_eqb k (VStr s)); [discriminate|].
  intros H. rewrite IH by exact H. reflexivity.
Qed.

Lemma dict_remove_keys_incl {V} s (d : pydict V) k :
  In k (map fst (dict_remove (VStr s) d)) -> In k (map fst d).
Proof.
  induction d as [|[k' v'] r IH]; cbn [dict_remove map fst In]; [tauto|].
  destruct (py_eqb k' (VStr s)); cbn [map fst In]; tauto.
Qed.

Lemma dict_remove_keys_other {V} s (d : pydict V) k :
  k <> VStr s -> In k (map fst d) -> In k (map fst (dict_remove (VStr s) d)).
Proof.
  intros Hk. induction d as [|[k' v'] r IH]; cbn [dict_remove map fst In]; [tauto|].
  destruct (py_eqb k' (VStr s)) eqn:E; cbn [map fst In].
  - apply py_eqb_VStr_r in E. subst k'. intros [H|H]; [congruence | exact H].
  - tauto.
Qed.

Lemma dict_remove_nodup {V} s (d : pydict V) :
  List.NoDup (map fst d) -> List.NoDup (map fst (dict_remove (VStr s) d)).
Proof.
  induction d as [|[k' v'] r IH]; cbn [dict_remove map fst]; [auto|].
  intros Hnd. inversion Hnd as [|? ? Hni Hr]; subst.
  destruct (py_eqb k' (VStr s)); [exact Hr|].
  cbn [map fst]. constructor; [|apply IH, Hr].
  intros Hin. apply Hni. eapply dict_remove_keys_incl, Hin.
Qed.

Lemma dict_remove_key_gone {V} s (d : pydict V) :
  List.NoDup (map fst d) -> ~ In (VStr s) (map fst (dict_remove (VStr s) d)).
Proof.
  induction d as [|[k' v'] r IH]; cbn [dict_remove map fst]; [auto|].
  intros Hnd. inversion Hnd as [|? ? Hni Hr]; subst.
  destruct (py_eqb k' (VStr s)) eqn:E.
  - apply py_eqb_VStr_r in E. subst k'. exact Hni.
  - cbn [map fst In]. intros [->|Hin]; [|exact (IH Hr Hin)].
    rewrite py_eqb_VStr_refl in E. discriminate.
Qed.

Lemma dict_lookup_remove_same {V} s (d : pydict V) :
  List.NoDup (map fst d) -> dict_lookup (VStr s) (dict_remove (VStr s) d) = None.
Proof. intros H. apply dict_lookup_none_iff, dict_remove_key_gone, H. Qed.

Lemma dict_lookup_remove_other {V} s t (d : pydict V) :
  s <> t -> dict_lookup (VStr t) (dict_remove (VStr s) d) = dict_lookup (VStr t) d.
Proof.
  intros Hst. induction d as [|[k' v'] r IH]; cbn [dict_remove dict_lookup];
    [reflexivity|].
  destruct (py_eqb k' (VStr s)) eqn:E; cbn [dict_lookup].
  - apply py_eqb_VStr_r in E. subst k'.
    rewrite py_eqb_VStr_neq by exact Hst. reflexivity.
  - rewrite IH. reflexivity.
Qed.

(** *** Reading after writing *)
Lemma get_raw_value_str id ts : get_raw_value (VStr id) ts = Ret (raw_value id ts).
Proof. reflexivity. Qed.

Lemma get_tag_str id ts :
  TagStore.get_tag (VStr id) ts = Ret (dict_lookup (VStr id) (_tags ts)).
Proof. reflexivity. Qed.

(** What the three readers return for an id depends on the two entries
    under that id only. *)
Lemma readers_agree id ts ts' :
  dict_lookup (VStr id) (_tags ts') = dict_lookup (VStr id) (_tags ts) ->
  dict_lookup (VStr id) (_values ts') = dict_lookup (VStr id) (_values ts) ->
  TagStore.get_tag (VStr id) ts' = TagStore.get_tag (VStr id) ts
  /\ get_raw_value (VStr id) ts' = get_raw_value (VStr id) ts
  /\ get_value (VStr id) ts' = get_value (VStr id) ts.
Proof.
  intros Ht Hv. rewrite !get_tag_str, !get_raw_value_str, !get_value_str.
  unfold raw_value. rewrite Ht, Hv. auto.
Qed.

Lemma set_value_run id v ts :
  set_value (VStr id) v ts
  = (mkStore (_tags ts) (dict_store (VStr id) v (_values ts)), Ret tt).
Proof. reflexivity. Qed.

Lemma remove_tag_run id ts :
  remove_tag (VStr id) ts
  = (mkStore (dict_remove (VStr id) (_tags ts))
             (dict_remove (VStr id) (_values ts)), Ret tt).
Proof. reflexivity. Qed.

(** X1.  [set_value] followed by [get_raw_value] on the same id returns
    the value just written.  The tags are not touched, and every other
    id reads as before, raw and converted. *)
Theorem set_value_then_read ts id v :
  exists ts',
    set_value (VStr id) v ts = (ts', Ret tt)
    /\ get_raw_value (VStr id) ts' = Ret v
    /\ _tags ts' = _tags ts
    /\ forall id', id' <> id ->
         get_raw_value (VStr id') ts' = get_raw_value (VStr id') ts
         /\ get_value (VStr id') ts' = get_value (VStr id') ts.
Proof.
  eexists. split; [apply set_value_run|].
  split; [rewrite get_raw_value_str; f_equal; apply raw_value_store|].
  split; [reflexivity|].
  intros id' Hne.
  apply (readers_agree id' ts); cbn [_tags _values]; [reflexivity|].
  apply dict_lookup_store_other. congruence.
Qed.

Lemma snapshot_store_frame id v ts :
  dict_lookup (VStr id) (_tags ts) = None ->
  snapshot (mkStore (_tags ts) (dict_store (VStr id) v (_values ts)))
  = snapshot ts.
Proof.
  intros Hnone. apply dict_lookup_none_iff in Hnone.
  unfold snapshot. cbn [_tags _values]. apply map_ext_in.
  intros [k t] Hin. f_equal.
  rewrite dict_lookup_store_frame; [reflexivity|].
  intros ->. apply Hnone. apply (in_map fst) in Hin. exact Hin.
Qed.

(** X2.  [set_value] accepts an id that has no tag.  [get_value] then
    returns the value as it was written, with no conversion, while
    [get_tag] still answers [None] and [snapshot] and [list_tags] do not
    show the id. *)
Theorem set_value_without_tag ts id v :
  dict_lookup (VStr id) (_tags ts) = None ->
  exists ts',
    set_value (VStr id) v ts = (ts', Ret tt)
    /\ get_value (VStr id) ts' = Ret v
    /\ TagStore.get_tag (VStr id) ts' = Ret None
    /\ snapshot ts' = snapshot ts
    /\ list_tags ts' = list_tags ts.
Proof.
  intros Hnone. eexists. split; [apply set_value_run|].
  split.
  - rewrite get_value_str. cbn [_tags _values].
    rewrite dict_lookup_store_same, Hnone. destruct v; reflexivity.
  - split; [rewrite get_tag_str; cbn [_tags]; rewrite Hnone; reflexivity|].
    split; [apply snapshot_store_frame, Hnone | reflexivity].
Qed.

Lemma set_value_without_tag_witness :
  exists ts',
    set_value (VStr "x9") (VInt 7) store_with_t1 = (ts', Ret tt)
    /\ get_value (VStr "x9") ts' = Ret (VInt 7)
    /\ TagStore.get_tag (VStr "x9") ts' = Ret None
    /\ snapshot ts' = snapshot store_with_t1
    /\ list_tags ts' = list_tags store_with_t1.
Proof. apply (set_value_without_tag store_with_t1 "x9" (VInt 7)). reflexivity. Defined.

Lemma remove_tag_effect ts id :
  List.NoDup (map fst (_tags ts)) -> List.NoDup (map fst (_values ts)) ->
  exists ts',
    remove_tag (VStr id) ts = (ts', Ret tt)
    /\ TagStore.get_tag (VStr id) ts' = Ret None
    /\ get_raw_value (VStr id) ts' = Ret VNone
    /\ get_value (VStr id) ts' = Ret VNone
    /\ forall id', id' <> id ->
         TagStore.get_tag (VStr id') ts' = TagStore.get_tag (VStr id') ts
         /\ get_raw_value (VStr id') ts' = get_raw_value (VStr id') ts
         /\ get_value (VStr id') ts' = get_value (VStr id') ts.
Proof.
  intros Ht Hv. eexists. split; [apply remove_tag_run|].
  rewrite get_tag_str, get_raw_value_str, get_value_str. unfold raw_value.
  cbn [_tags _values].
  rewrite (dict_lookup_remove_same id _ Ht), (dict_lookup_remove_same id _ Hv).
  repeat (split; [reflexivity|]).
  intros id' Hne. apply (readers_agree id' ts); cbn [_tags _values];
    apply dict_lookup_remove_other; congruence.
Qed.

(** X3.  After [remove_tag] the id has neither tag nor value:
    [get_tag], [get_raw_value] and [get_value] all answer [None].  Every
    other id reads as before.  (The keys of a dictionary are unique.) *)
Theorem remove_tag_forgets ts id :
  List.NoDup (map fst (_tags ts)) -> List.NoDup (map fst (_values ts)) ->
  exists ts',
    remove_tag (VStr id) ts = (ts', Ret tt)
    /\ TagStore.get_tag (VStr id) ts' = Ret None
    /\ get_raw_value (VStr id) ts' = Ret VNone
    /\ get_value (VStr id) ts' = Ret VNone
    /\ forall id', id' <> id ->
         TagStore.get_tag (VStr id') ts' = TagStore.get_tag (VStr id') ts
         /\ get_raw_value (VStr id') ts' = get_raw_value (VStr id') ts
         /\ get_value (VStr id') ts' = get_value (VStr id') ts.
Proof. apply remove_tag_effect. Qed.

Lemma remove_tag_forgets_witness :
  exists ts',
    remove_tag (VStr "t1") store_with_t1 = (ts', Ret tt)
    /\ TagStore.get_tag (VStr "t1") ts' = Ret None
    /\ get_raw_value (VStr "t1") ts' = Ret VNone
    /\ get_value (VStr "t1") ts' = Ret VNone
    /\ forall id', id' <> "t1" ->
         TagStore.get_tag (VStr id') ts' = TagStore.get_tag (VStr id') store_with_t1
         /\ get_raw_value (VStr id') ts' = get_raw_value (VStr id') store_with_t1
         /\ get_value (VStr id') ts' = get_value (VStr id') store_with_t1.
Proof.
  apply (remove_tag_forgets store_with_t1 "t1");
    cbn; repeat constructor; intros [].
Defined.

(** X4.  [add_tag] with an initial value other than [None] stores the
    tag under its [tag_id] and the value exactly as given, whatever the
    data type.  Every other id reads as before. *)
Theorem add_tag_then_read ts tag id iv :
  tag_id tag = VStr id -> is_None iv = false ->
  exists ts',
    TagStore.add_tag tag iv ts = (ts', Ret tt)
    /\ TagStore.get_tag (VStr id) ts' = Ret (Some tag)
    /\ get_raw_value (VStr id) ts' = Ret iv
    /\ forall id', id' <> id ->
         TagStore.get_tag (VStr id') ts' = TagStore.get_tag (VStr id') ts
         /\ get_raw_value (VStr id') ts' = get_raw_value (VStr id') ts
         /\ get_value (VStr id') ts' = get_value (VStr id') ts.
Proof.
  intros Hid Hiv. eexists. split; [apply (add_tag_initial_run ts tag id iv Hid Hiv)|].
  rewrite get_tag_str, get_raw_value_str. unfold raw_value. cbn [_tags _values].
  rewrite !dict_lookup_store_same. repeat (split; [reflexivity|]).
  intros id' Hne. apply (readers_agree id' ts); cbn [_tags _values];
    apply dict_lookup_store_other; congruence.
Qed.

Lemma add_tag_then_read_witness :
  exists ts',
    TagStore.add_tag (sample_tag "t2" "Double") (VInt 9) store_with_t1 = (ts', Ret tt)
    /\ TagStore.get_tag (VStr "t2") ts' = Ret (Some (sample_tag "t2" "Double"))
    /\ get_raw_value (VStr "t2") ts' = Ret (VInt 9)
    /\ forall id', id' <> "t2" ->
         TagStore.get_tag (VStr id') ts' = TagStore.get_tag (VStr id') store_with_t1
         /\ get_raw_value (VStr id') ts' = get_raw_value (VStr id') store_with_t1
         /\ get_value (VStr id') ts' = get_value (VStr id') store_with_t1.
Proof.
  apply (add_tag_then_read store_with_t1 (sample_tag "t2" "Double") "t2" (VInt 9));
    reflexivity.
Defined.

(** *** The invariant *)
Lemma dict_store_keys_inv {V} s (v : V) d k :
  In k (map fst (dict_store (VStr s) v d)) -> In k (map fst d) \/ k = VStr s.
Proof.
  destruct (dict_lookup (VStr s) d) eqn:E.
  - rewrite dict_store_keys by (rewrite E; discriminate). auto.
  - rewrite dict_store_keys_new by exact E. intros H.
    apply in_app_or in H as [H|[<-|[]]]; auto.
Qed.

Lemma add_tag_returns ts tag id iv ts' :
  tag_id tag = VStr id ->
  TagStore.add_tag tag iv ts = (ts', Ret tt) ->
  exists v,
    ts' = mkStore (dict_store (VStr id) tag (_tags ts))
                  (dict_store (VStr id) v (_values ts)).
Proof.
  intros Hid. unfold TagStore.add_tag, mbind, set_tag, set_raw, lift, dict_set.
  rewrite Hid. cbn [hashable Py.bind _tags _values].
  destruct (negb (is_None iv)).
  - intros [= <-]. eauto.
  - destruct (if truthy (data_type tag) then py_lower (data_type tag) else Ret [])
      as [dt|e]; [|discriminate].
    intros [= <-]. eauto.
Qed.

Lemma store_ok_stored ts id tag v :
  store_ok ts ->
  store_ok (mkStore (dict_store (VStr id) tag (_tags ts))
                    (dict_store (VStr id) v (_values ts))).
Proof.
  intros (Ht & Hv & Hin). unfold store_ok. cbn [_tags _values].
  split; [apply dict_store_nodup, Ht|]. split; [apply dict_store_nodup, Hv|].
  intros k Hk. apply dict_store_keys_inv in Hk as [Hk| ->].
  - apply dict_store_keys_incl, Hin, Hk.
  - apply dict_store_key_in.
Qed.

Lemma update_tag_run id kwargs ts :
  update_tag (VStr id) kwargs ts =
  match dict_lookup (VStr id) (_tags ts) with
  | None => (ts, Ret false)
  | Some t =>
      (mkStore (dict_store (VStr id) (set_fields kwargs t) (_tags ts))
               (_values ts), Ret true)
  end.
Proof. reflexivity. Qed.

(** X7.  The store keeps its shape under every operation: [add_tag]
    (when it returns), [set_value], [remove_tag], [update_tag] and
    [clear_tags] leave the keys of both dictionaries unique and a value
    entry for every tag. *)
Theorem store_ok_preserved ts :
  store_ok ts ->
  (forall tag iv id ts',
      tag_id tag = VStr id ->
      TagStore.add_tag tag iv ts = (ts', Ret tt) -> store_ok ts')
  /\ (forall id v, store_ok (set_value (VStr id) v ts).1)
  /\ (forall id, store_ok (remove_tag (VStr id) ts).1)
  /\ (forall id kwargs, plain_names kwargs ->
        store_ok (update_tag (VStr id) kwargs ts).1)
  /\ store_ok (clear_tags ts).1.
Proof.
  intros Hok. pose proof Hok as (Ht & Hv & Hin).
  split; [|split; [|split; [|split]]].
  - intros tag iv id ts' Hid Hrun.
    destruct (add_tag_returns ts tag id iv ts' Hid Hrun) as [v ->].
    apply store_ok_stored, Hok.
  - intros id v. rewrite set_value_run. cbn [fst]. unfold store_ok. cbn [_tags _values].
    split; [exact Ht|]. split; [apply dict_store_nodup, Hv|].
    intros k Hk. apply dict_store_keys_incl, Hin, Hk.
  - intros id. rewrite remove_tag_run. cbn [fst]. unfold store_ok. cbn [_tags _values].
    split; [apply dict_remove_nodup, Ht|]. split; [apply dict_remove_nodup, Hv|].
    intros k Hk. apply dict_remove_keys_other.
    + intros ->. exact (dict_remove_key_gone id _ Ht Hk).
    + apply Hin. eapply dict_remove_keys_incl, Hk.
  - intros id kwargs _. rewrite update_tag_run.
    destruct (dict_lookup (VStr id) (_tags ts)) as [t|] eqn:E; cbn [fst]; [|exact Hok].
    unfold store_ok. cbn [_tags _values].
    rewrite dict_store_keys by (rewrite E; discriminate). auto.
  - unfold clear_tags, store_ok. cbn. split; [constructor|]. split; [constructor|].
    intros k [].
Qed.

Lemma empty_store_ok : store_ok TagStore.empty.
Proof.
  unfold store_ok. cbn. split; [constructor|]. split; [constructor|]. intros k [].
Qed.

Lemma store_ok_preserved_witness :
  (forall tag iv id ts',
      tag_id tag = VStr id ->
      TagStore.add_tag tag iv TagStore.empty = (ts', Ret tt) -> store_ok ts')
  /\ (forall id v, store_ok (set_value (VStr id) v TagStore.empty).1)
  /\ (forall id, store_ok (remove_tag (VStr id) TagStore.empty).1)
  /\ (forall id kwargs, plain_names kwargs ->
        store_ok (update_tag (VStr id) kwargs TagStore.empty).1)
  /\ store_ok (clear_tags TagStore.empty).1.
Proof. apply (store_ok_preserved TagStore.empty). exact empty_store_ok. Defined.

(** *** [update_tag] *)
Ltac case_eqb :=
  repeat match goal with
         | |- context [String.eqb ?a ?b] =>
             destruct (String.eqb_spec a b); subst; try congruence; try reflexivity
         end.

Ltac field_case :=
  cbn [field tag_dict tag_id name plc_id address data_type group_id project_id
       scale_mul scale_add decimals writable description enabled client_visible];
  case_eqb.

Lemma field_set_field k v t k' :
  field (tag_dict (set_field k v t)) k'
  = if String.eqb k' k
    then match field (tag_dict t) k with Some _ => Some v | None => None end
    else field (tag_dict t) k'.
Proof.
  unfold set_field.
  destruct (String.eqb_spec k "tag_id"); [subst; field_case|].
  destruct (String.eqb_spec k "name"); [subst; field_case|].
  destruct (String.eqb_spec k "plc_id"); [subst; field_case|].
  destruct (String.eqb_spec k "address"); [subst; field_case|].
  destruct (String.eqb_spec k "data_type"); [subst; field_case|].
  destruct (String.eqb_spec k "group_id"); [subst; field_case|].
  destruct (String.eqb_spec k "project_id"); [subst; field_case|].
  destruct (String.eqb_spec k "scale_mul"); [subst; field_case|].
  destruct (String.eqb_spec k "scale_add"); [subst; field_case|].
  destruct (String.eqb_spec k "decimals"); [subst; field_case|].
  destruct (String.eqb_spec k "writable"); [subst; field_case|].
  destruct (String.eqb_spec k "description"); [subst; field_case|].
  destruct (String.eqb_spec k "enabled"); [subst; field_case|].
  destruct (String.eqb_spec k "client_visible"); [subst; field_case|].
  field_case.
Qed.

Lemma field_app kvs kvs' k :
  field (kvs ++ kvs') k
  = match field kvs k with Some v => Some v | None => field kvs' k end.
Proof.
  induction kvs as [|[k0 v0] r IH]; cbn [app field]; [reflexivity|].
  destruct (String.eqb k0 k); [reflexivity | exact IH].
Qed.

(** After [set_fields], a field shows the value of its last assignment,
    or what it held; a name that is no field shows nothing. *)
Lemma field_set_fields kwargs t k :
  field (tag_dict (set_fields kwargs t)) k
  = match field (tag_dict t) k with
    | None => None
    | Some old =>
        Some (match field (rev kwargs) k with Some v => v | None => old end)
    end.
Proof.
  unfold set_fields. revert t.
  induction kwargs as [|[k0 v0] r IH]; intros t; cbn [fold_left rev fst snd].
  - destruct (field (tag_dict t) k); reflexivity.
  - rewrite IH, field_set_field, field_app. cbn [field].
    rewrite (String.eqb_sym k0 k).
    destruct (String.eqb_spec k k0) as [->|Hne].
    + destruct (field (tag_dict t) k0); [|reflexivity].
      destruct (field (rev r) k0); reflexivity.
    + destruct (field (tag_dict t) k); [|reflexivity].
      destruct (field (rev r) k); reflexivity.
Qed.



(** X5.  [add_tag] is not atomic.  With no initial value and a
    [data_type] that is truthy but not a string, it raises
    [AttributeError] after the tag has been stored; the tag stays in the
    store and no value is written for it. *)
Theorem add_tag_raise_keeps_tag ts tag id :
  tag_id tag = VStr id ->
  truthy (data_type tag) = true ->
  is_str (data_type tag) = false ->
  exists e,
    TagStore.add_tag tag VNone ts
    = (mkStore (dict_store (VStr id) tag (_tags ts)) (_values ts), Raise e)
    /\ exn_class_of e = AttributeError.
Proof.
  intros Hid Htr Hstr.
  unfold TagStore.add_tag, mbind, set_tag, set_raw, lift, dict_set.
  rewrite Hid, Htr. cbn [hashable Py.bind is_None negb _tags _values].
  destruct (data_type tag); try discriminate; eexists; split; reflexivity.
Qed.

Lemma add_tag_raise_keeps_tag_witness :
  exists e,
    TagStore.add_tag (set_field "data_type" (VInt 5) (sample_tag "t3" "Double"))
                     VNone TagStore.empty
    = (mkStore (dict_store (VStr "t3")
                  (set_field "data_type" (VInt 5) (sample_tag "t3" "Double"))
                  (_tags TagStore.empty))
               (_values TagStore.empty), Raise e)
    /\ exn_class_of e = AttributeError.
Proof.
  apply (add_tag_raise_keeps_tag TagStore.empty
           (set_field "data_type" (VInt 5) (sample_tag "t3" "Double")) "t3");
    reflexivity.
Defined.

(** *** [DELETE /api/v1/tags/<id>] *)
Lemma not_found_response :
  _json_response (error_body "not found") 404
  = mkResponse 404 (error_body "not found").
Proof. reflexivity. Qed.

(** X8.  [DELETE /api/v1/tags/<id>] of a stored tag answers 200 with
    the id under [deleted]; a [GET] of the same id then answers 404 and
    [get_value] gives [None], while every other id reads as before.
    [DELETE] of an unknown id answers 404 and leaves the store as it
    was. *)
Theorem delete_tag_then_get ts id tag :
  List.NoDup (map fst (_tags ts)) -> List.NoDup (map fst (_values ts)) ->
  dict_lookup (VStr id) (_tags ts) = Some tag ->
  exists ts',
    delete_tag id ts
    = (ts', Ret (mkResponse 200 (VDict [("deleted", VStr id)])))
    /\ Api.get_tag id ts' = Ret (mkResponse 404 (error_body "not found"))
    /\ get_value (VStr id) ts' = Ret VNone
    /\ (forall id', id' <> id ->
          TagStore.get_tag (VStr id') ts' = TagStore.get_tag (VStr id') ts
          /\ get_value (VStr id') ts' = get_value (VStr id') ts)
    /\ (forall id0, dict_lookup (VStr id0) (_tags ts) = None ->
          delete_tag id0 ts
          = (ts, Ret (mkResponse 404 (error_body "not found")))).
Proof.
  intros Hnt Hnv Htag.
  destruct (remove_tag_effect ts id Hnt Hnv) as (ts' & Hrun & Hg & _ & Hv & Hframe).
  exists ts'. split.
  - unfold delete_tag, mbind. rewrite get_tag_str, Htag, Hrun. reflexivity.
  - split.
    + unfold Api.get_tag. rewrite Hg. reflexivity.
    + split; [exact Hv|]. split.
      * intros id' Hne. destruct (Hframe id' Hne) as (Hg' & _ & Hv'). auto.
      * intros id0 Hnone. unfold delete_tag, mbind.
        rewrite get_tag_str, Hnone. reflexivity.
Qed.

Lemma delete_tag_then_get_witness :
  exists ts',
    delete_tag "t1" store_with_t1
    = (ts', Ret (mkResponse 200 (VDict [("deleted", VStr "t1")])))
    /\ Api.get_tag "t1" ts' = Ret (mkResponse 404 (error_body "not found"))
    /\ get_value (VStr "t1") ts' = Ret VNone
    /\ (forall id', id' <> "t1" ->
          TagStore.get_tag (VStr id') ts' = TagStore.get_tag (VStr id') store_with_t1
          /\ get_value (VStr id') ts' = get_value (VStr id') store_with_t1)
    /\ (forall id0, dict_lookup (VStr id0) (_tags store_with_t1) = None ->
          delete_tag id0 store_with_t1
          = (store_with_t1, Ret (mkResponse 404 (error_body "not found")))).
Proof.
  apply (delete_tag_then_get store_with_t1 "t1" (sample_tag "t1" "Int32"));
    [cbn; repeat constructor; intros [] | cbn; repeat constructor; intros []
    | reflexivity].
Defined.

(** *** [PATCH /api/v1/tags/<id>] *)
Lemma field_none_iff kvs k : field kvs k = None <-> ~ In k (map fst kvs).
Proof.
  induction kvs as [|[k0 v0] r IH]; cbn [field map fst In]; [tauto|].
  destruct (String.eqb_spec k0 k) as [->|Hne].
  - split; [discriminate | tauto].
  - rewrite IH. tauto.
Qed.

Lemma updates_allowed kvs k :
  In k (map fst (rev (updates_of kvs))) -> is_allowed k = true.
Proof.
  intros Hin. apply in_map_iff in Hin as ([k0 v0] & <- & Hin).
  apply in_rev in Hin. unfold updates_of in Hin.
  apply filter_In in Hin as [_ H]. exact H.
Qed.

Lemma updates_skip kvs k :
  is_allowed k = false -> field (rev (updates_of kvs)) k = None.
Proof.
  intros Hk. apply field_none_iff. intros Hin.
  apply updates_allowed in Hin. congruence.
Qed.

Lemma truthy_dict kvs : truthy (VDict kvs) = negb (match kvs with [] => true | _ => false end).
Proof. destruct kvs; reflexivity. Qed.

(** X9.  [PATCH /api/v1/tags/<id>] changes nothing when it refuses: it
    answers 400 for an empty body, 400 for a body that names neither an
    updatable field nor [value], and 404 for an unknown tag, and the
    store is the same afterwards. *)
Theorem patch_tag_rejects ts id :
  (forall body, truthy body = false ->
     patch_tag id body ts
     = (ts, Ret (mkResponse 400 (error_body "empty payload"))))
  /\ (forall kvs, kvs <> [] -> updates_of kvs = [] ->
        field kvs "value" = None ->
        patch_tag id (VDict kvs) ts
        = (ts, Ret (mkResponse 400 (error_body "no updatable fields provided"))))
  /\ (forall kvs, kvs <> [] ->
        updates_of kvs <> [] \/ field kvs "value" <> None ->
        dict_lookup (VStr id) (_tags ts) = None ->
        patch_tag id (VDict kvs) ts
        = (ts, Ret (mkResponse 404 (error_body "not found")))).
Proof.
  split; [|split].
  - intros body Hb. unfold patch_tag, py_or. rewrite Hb. reflexivity.
  - intros kvs Hne Hup Hval. unfold patch_tag, py_or, has_key.
    destruct kvs as [|kv r]; [contradiction|].
    assert (Htr : truthy (VDict (kv :: r)) = true) by reflexivity.
    repeat (rewrite Htr; cbv beta iota). cbn [negb]. cbv iota.
    rewrite Hup, Hval. reflexivity.
  - intros kvs Hne Hsome Hnone. unfold patch_tag, py_or, has_key.
    destruct kvs as [|kv r]; [contradiction|].
    assert (Htr : truthy (VDict (kv :: r)) = true) by reflexivity.
    repeat (rewrite Htr; cbv beta iota). cbn [negb]. cbv iota.
    assert (Hgo : negb (truthy (VDict (updates_of (kv :: r))))
                  && negb (match field (kv :: r) "value" with
                           | Some _ => true | None => false end) = false).
    { destruct Hsome as [H|H].
      - destruct (updates_of (kv :: r)); [contradiction | reflexivity].
      - destruct (field (kv :: r) "value"); [|contradiction].
        apply andb_false_r. }
    rewrite Hgo. unfold mbind. cbv beta. rewrite get_tag_str, Hnone. reflexivity.
Qed.

(** X10.  [PATCH] of a stored tag, with a body that names an updatable
    field or [value], answers 200 with the id under [updated].  The tag
    keeps its place; each updatable field named in the body shows its
    new value and every other field what it held, [tag_id] and
    [decimals] among them; the raw value is the [value] of the body when
    there is one; every other id reads as before. *)
Theorem patch_tag_applies ts id kvs t :
  kvs <> [] ->
  updates_of kvs <> [] \/ field kvs "value" <> None ->
  dict_lookup (VStr id) (_tags ts) = Some t ->
  exists ts',
    patch_tag id (VDict kvs) ts
    = (ts', Ret (mkResponse 200 (VDict [("updated", VStr id)])))
    /\ map fst (_tags ts') = map fst (_tags ts)
    /\ (forall k,
          shown ts' id k
          = match shown ts id k with
            | None => None
            | Some old =>
                Some (match field (rev (updates_of kvs)) k with
                      | Some v => v
                      | None => old
                      end)
            end)
    /\ shown ts' id "tag_id" = shown ts id "tag_id"
    /\ shown ts' id "decimals" = shown ts id "decimals"
    /\ raw_value id ts'
       = match field kvs "value" with Some v => v | None => raw_value id ts end
    /\ (forall id', id' <> id ->
          TagStore.get_tag (VStr id') ts' = TagStore.get_tag (VStr id') ts
          /\ get_raw_value (VStr id') ts' = get_raw_value (VStr id') ts
          /\ get_value (VStr id') ts' = get_value (VStr id') ts).
Proof.
  intros Hne Hsome Ht.
  set (tags' := if truthy (VDict (updates_of kvs))
                then dict_store (VStr id) (set_fields (updates_of kvs) t) (_tags ts)
                else _tags ts).
  set (values' := match field kvs "value" with
                  | Some v => dict_store (VStr id) v (_values ts)
                  | None => _values ts
                  end).
  exists (mkStore tags' values').
  assert (Hrun : patch_tag id (VDict kvs) ts
                 = (mkStore tags' values',
                    Ret (mkResponse 200 (VDict [("updated", VStr id)])))).
  { unfold patch_tag, py_or, has_key.
    destruct kvs as [|kv r]; [contradiction|].
    assert (Htr : truthy (VDict (kv :: r)) = true) by reflexivity.
    repeat (rewrite Htr; cbv beta iota). cbn [negb]. cbv iota.
    assert (Hgo : negb (truthy (VDict (updates_of (kv :: r))))
                  && negb (match field (kv :: r) "value" with
                           | Some _ => true | None => false end) = false).
    { destruct Hsome as [H|H].
      - destruct (updates_of (kv :: r)); [contradiction | reflexivity].
      - destruct (field (kv :: r) "value"); [|contradiction].
        apply andb_false_r. }
    rewrite Hgo. unfold mbind, mret, mtry. cbv beta. rewrite get_tag_str, Ht.
    subst tags' values'.
    destruct (truthy (VDict (updates_of (kv :: r)))) eqn:Hup.
    - rewrite update_tag_run, Ht.
      destruct (field (kv :: r) "value"); [rewrite set_value_run|]; reflexivity.
    - destruct (field (kv :: r) "value"); [rewrite set_value_run|];
        destruct ts; reflexivity. }
  assert (Hshown : forall k,
            shown (mkStore tags' values') id k
            = match shown ts id k with
              | None => None
              | Some old =>
                  Some (match field (rev (updates_of kvs)) k with
                        | Some v => v
                        | None => old
                        end)
              end).
  { intros k. unfold shown. cbn [_tags]. subst tags'.
    destruct (truthy (VDict (updates_of kvs))) eqn:Hup.
    - rewrite dict_lookup_store_same, Ht. apply field_set_fields.
    - rewrite Ht. destruct (updates_of kvs); [|discriminate]. cbn [rev field].
      destruct (field (tag_dict t) k); reflexivity. }
  split; [exact Hrun|]. split.
  { cbn [_tags]. subst tags'. destruct (truthy _); [|reflexivity].
    apply dict_store_keys. rewrite Ht. discriminate. }
  split; [exact Hshown|].
  split.
  { rewrite Hshown, updates_skip by reflexivity.
    destruct (shown ts id "tag_id"); reflexivity. }
  split.
  { rewrite Hshown, updates_skip by reflexivity.
    destruct (shown ts id "decimals"); reflexivity. }
  split.
  { unfold raw_value. cbn [_values]. subst values'.
    destruct (field kvs "value"); [|reflexivity].
    rewrite dict_lookup_store_same. reflexivity. }
  intros id' Hne'. apply (readers_agree id' ts); cbn [_tags _values].
  - subst tags'. destruct (truthy _); [|reflexivity].
    apply dict_lookup_store_other. congruence.
  - subst values'. destruct (field kvs "value"); [|reflexivity].
    apply dict_lookup_store_other. congruence.
Qed.

Lemma patch_tag_applies_witness :
  exists ts',
    patch_tag "t1" (VDict [("name", VStr "Pump"); ("value", VInt 8)]) store_with_t1
    = (ts', Ret (mkResponse 200 (VDict [("updated", VStr "t1")])))
    /\ map fst (_tags ts') = map fst (_tags store_with_t1)
    /\ (forall k,
          shown ts' "t1" k
          = match shown store_with_t1 "t1" k with
            | None => None
            | Some old =>
                Some (match field (rev (updates_of [("name", VStr "Pump"); ("value", VInt 8)])) k with
                      | Some v => v
                      | None => old
                      end)
            end)
    /\ shown ts' "t1" "tag_id" = shown store_with_t1 "t1" "tag_id"
    /\ shown ts' "t1" "decimals" = shown store_with_t1 "t1" "decimals"
    /\ raw_value "t1" ts'
       = match field [("name", VStr "Pump"); ("value", VInt 8)] "value" with
         | Some v => v
         | None => raw_value "t1" store_with_t1
         end
    /\ (forall id', id' <> "t1" ->
          TagStore.get_tag (VStr id') ts' = TagStore.get_tag (VStr id') store_with_t1
          /\ get_raw_value (VStr id') ts' = get_raw_value (VStr id') store_with_t1
          /\ get_value (VStr id') ts' = get_value (VStr id') store_with_t1).
Proof.
  apply (patch_tag_applies store_with_t1 "t1"
           [("name", VStr "Pump"); ("value", VInt 8)] (sample_tag "t1" "Int32"));
    [discriminate | left; discriminate | reflexivity].
Defined.

(** *** [POST /api/v1/tags] answers *)
Lemma add_tag_loop_answers tags :
  forall created ts,
  exists ts' r,
    add_tag_loop tags created ts = (ts', Ret r)
    /\ ((status r = 201
         /\ exists ids, body r = VDict [("created", VList ids)]
                        /\ length ids = (length created + length tags)%nat)
        \/ (status r = 400 /\ exists msg, body r = error_body msg)).
Proof.
  induction tags as [|t rest IH]; intros created ts; cbn [add_tag_loop].
  - eexists _, _. split; [reflexivity|]. left. split; [reflexivity|].
    eexists. split; [reflexivity|]. cbn [length]. rewrite length_map. lia.
  - destruct (create_one t ts) as [ts1 [tid|e]].
    + destruct (IH (created ++ [tid]) ts1) as (ts' & r & Hrun & Hres).
      exists ts', r. split; [exact Hrun|].
      destruct Hres as [(Hs & ids & Hb & Hl)|H]; [left | right; exact H].
      split; [exact Hs|]. exists ids. split; [exact Hb|].
      rewrite Hl, length_app. cbn [length]. lia.
    + eexists _, _. split; [reflexivity|]. right. split; [reflexivity|].
      eexists. reflexivity.
Qed.

(** X11.  [POST /api/v1/tags] with a JSON object whose [tags], when
    present, is a list never raises: it answers 201 with one created id
    per submitted tag, or 400 with an error message. *)
Theorem post_always_answers kvs ts :
  field kvs "tags" = None \/ (exists l, field kvs "tags" = Some (VList l)) ->
  exists ts' r,
    Api.add_tag (VDict kvs) ts = (ts', Ret r)
    /\ ((status r = 201
         /\ exists ids, body r = VDict [("created", VList ids)]
              /\ length ids
                 = match field kvs "tags" with
                   | Some (VList l) => length l
                   | _ => 1%nat
                   end)
        \/ (status r = 400 /\ exists msg, body r = error_body msg)).
Proof.
  intros Htags. unfold Api.add_tag.
  assert (Hp : py_or (VDict kvs) (VDict []) = VDict kvs)
    by (destruct kvs; reflexivity).
  rewrite Hp. unfold mbind, lift, py_contains.
  destruct Htags as [Hnone | [l Hl]].
  - rewrite Hnone.
    assert (Hd : bool_decide (is_Some (@None pyval)) = false)
      by (apply bool_decide_eq_false; intros [x Hx]; discriminate).
    rewrite Hd.
    destruct (add_tag_loop_answers [VDict kvs] [] ts) as (ts' & r & Hrun & Hres).
    exists ts', r. split; [exact Hrun | exact Hres].
  - rewrite Hl.
    assert (Hd : bool_decide (is_Some (Some (VList l))) = true)
      by (apply bool_decide_eq_true; eexists; reflexivity).
    rewrite Hd. unfold py_getitem. rewrite Hl. cbn [Py.bind py_iter].
    destruct (add_tag_loop_answers l [] ts) as (ts' & r & Hrun & Hres).
    exists ts', r. split; [exact Hrun | exact Hres].
Qed.

Lemma post_always_answers_witness :
  exists ts' r,
    Api.add_tag (VDict [("tags", VList [VDict repost_t1; VInt 3])]) TagStore.empty
    = (ts', Ret r)
    /\ ((status r = 201
         /\ exists ids, body r = VDict [("created", VList ids)]
              /\ length ids
                 = match field [("tags", VList [VDict repost_t1; VInt 3])] "tags" with
                   | Some (VList l) => length l
                   | _ => 1%nat
                   end)
        \/ (status r = 400 /\ exists msg, body r = error_body msg)).
Proof.
  apply (post_always_answers [("tags", VList [VDict repost_t1; VInt 3])]
           TagStore.empty).
  right. eexists. reflexivity.
Defined.

Lemma validate_accepts t msg :
  _validate_tag_payload t = (true, msg) ->
  exists kvs s,
    t = VDict kvs /\ s <> ""
    /\ py_or (payload_field kvs "tag_id") (payload_field kvs "name") = VStr s.
Proof.
  unfold _validate_tag_payload. destruct t as [| | | | | | |kvs]; try discriminate.
  fold (payload_field kvs "tag_id"). fold (payload_field kvs "name").
  fold (payload_field kvs "data_type").
  set (tid := py_or (payload_field kvs "tag_id") (payload_field kvs "name")).
  destruct (truthy tid) eqn:Htr; [|discriminate].
  destruct tid as [| | | | |s| |] eqn:Hs; try discriminate.
  cbn [negb is_str orb]. intros _. exists kvs, s. split; [reflexivity|].
  split; [|exact Hs].
  intros ->. discriminate Htr.
Qed.

Lemma tag_of_payload_id kvs tag :
  tag_of_payload (VDict kvs) = Ret tag ->
  tag_id tag = py_or (payload_field kvs "tag_id") (payload_field kvs "name").
Proof.
  unfold tag_of_payload, py_or, payload_field. cbn [py_get Py.bind].
  destruct (truthy match field kvs "tag_id" with Some v => v | None => VNone end);
    cbn [Py.bind];
    destruct (py_float _) as [m|]; cbn [Py.bind]; try discriminate;
    destruct (py_float _) as [a|]; cbn [Py.bind]; try discriminate;
    intros [= <-]; reflexivity.
Qed.

Lemma create_one_validated kvs s ts ts' tid :
  py_or (payload_field kvs "tag_id") (payload_field kvs "name") = VStr s ->
  create_one (VDict kvs) ts = (ts', Ret tid) ->
  tid = VStr s
  /\ dict_lookup (VStr s) (_tags ts') <> None
  /\ forall k, In k (map fst (_tags ts)) -> In k (map fst (_tags ts')).
Proof.
  intros Hid. unfold create_one, mbind, lift, mret.
  destruct (tag_of_payload (VDict kvs)) as [tag|] eqn:Htag; [|discriminate].
  pose proof (tag_of_payload_id kvs tag Htag) as Htid. rewrite Hid in Htid.
  cbn [py_get].
  destruct (TagStore.add_tag tag _ ts) as [ts1 [[]|e]] eqn:Hadd; [|discriminate].
  intros [= <- <-].
  destruct (add_tag_returns ts tag s _ ts1 Htid Hadd) as [v ->].
  cbn [_tags]. split; [exact Htid|]. split.
  - rewrite dict_lookup_store_same. discriminate.
  - intros k. apply dict_store_keys_incl.
Qed.

Lemma import_loop_sound l :
  forall created ts ts' r,
  import_loop l created ts = (ts', Ret r) ->
  status r = 200 ->
  exists ids,
    body r = _convert (VDict [("imported", VList (created ++ map VStr ids))])
    /\ Forall (fun s => s <> "" /\ dict_lookup (VStr s) (_tags ts') <> None) ids
    /\ (forall k, In k (map fst (_tags ts)) -> In k (map fst (_tags ts')))
    /\ length ids = length l.
Proof.
  induction l as [|t rest IH]; intros created ts ts' r; cbn [import_loop].
  - unfold mret. intros [= <- <-] _. exists []. cbn [map]. rewrite app_nil_r.
    split; [reflexivity|]. split; [constructor|]. split; [auto | reflexivity].
  - destruct (_validate_tag_payload t) as [[|] msg] eqn:Hval.
    2:{ unfold mret. intros [= <- <-]. discriminate. }
    destruct (validate_accepts t msg Hval) as (kvs & s & -> & Hs & Hid).
    unfold mbind.
    destruct (create_one (VDict kvs) ts) as [ts1 [tid|e]] eqn:Hone; [|discriminate].
    destruct (create_one_validated kvs s ts ts1 tid Hid Hone) as (-> & Hin & Hmono).
    intros Hrun Hst.
    destruct (IH _ _ _ _ Hrun Hst) as (ids & Hb & Hall & Hmono' & Hlen).
    exists (s :: ids). cbn [map length]. rewrite <- app_assoc in Hb.
    split; [exact Hb|]. split.
    + constructor; [|exact Hall]. split; [exact Hs|].
      apply dict_lookup_some_in, Hmono', dict_lookup_some_in, Hin.
    + split; [auto | lia].
Qed.

Lemma convert_imported ids :
  _convert (VDict [("imported", VList (map VStr ids))])
  = VDict [("imported", VList (map VStr ids))].
Proof.
  cbn. do 3 f_equal. rewrite map_map. reflexivity.
Qed.

(** X12.  When [PUT /api/v1/tags/import] answers 200, the ids it
    reports are non-empty strings and each of them has a tag in the
    store the request leaves. *)
Theorem import_tags_sound replace_all request_json ts ts' r :
  import_tags replace_all request_json ts = (ts', Ret r) ->
  status r = 200 ->
  exists ids,
    body r = VDict [("imported", VList (map VStr ids))]
    /\ Forall (fun s => s <> "" /\ dict_lookup (VStr s) (_tags ts') <> None) ids.
Proof.
  unfold import_tags, mbind, lift.
  destruct (py_get _ "tags" VNone) as [tags|]; [|discriminate].
  destruct tags as [| | | | | |l|]; try (unfold mret; intros [= <- <-]; discriminate).
  destruct (replace_all_of replace_all); unfold clear_tags, mret;
    intros Hrun Hst;
    destruct (import_loop_sound l [] _ ts' r Hrun Hst) as (ids & Hb & Hall & _);
    exists ids; cbn [app] in Hb; rewrite convert_imported in Hb; auto.
Qed.

Lemma import_tags_sound_witness :
  exists ids,
    body (mkResponse 200 (VDict [("imported", VList [VStr "t1"])]))
    = VDict [("imported", VList (map VStr ids))]
    /\ Forall (fun s => s <> ""
                 /\ dict_lookup (VStr s)
                      (_tags (import_tags (Some "true")
                                (VDict [("tags", VList [VDict repost_t1])])
                                store_with_t1).1) <> None) ids.
Proof.
  apply (import_tags_sound (Some "true")
           (VDict [("tags", VList [VDict repost_t1])]) store_with_t1);
    reflexivity.
Defined.


End StoreFacts.

(** ** Error codes, OPC UA values, reads and reconnects *)

Module GatewayFacts.

Import StoreOps GatewayOps StoreFacts.
Local Open Scope list_scope.

Import Text PyVal Models TagStore.

Import TagSpec TagFacts.

(** *** Substrings *)
Lemma startswith_contains p s : startswith p s = true -> contains p s = true.
Proof. intros H. destruct s; cbn [contains]; rewrite H; reflexivity. Qed.

Lemma contains_cons p c s : contains p s = true -> contains p (c :: s) = true.
Proof. intros H. cbn [contains]. rewrite H. apply orb_true_r. Qed.

(** A text that holds [c :: p] holds [p]. *)
Lemma contains_tail c p s : contains (c :: p) s = true -> contains p s = true.
Proof.
  induction s as [|b s IH]; cbn [contains startswith].
  - discriminate.
  - intros H. apply orb_prop in H as [H|H].
    + apply andb_prop in H as [_ H].
      apply contains_cons, startswith_contains, H.
    + apply contains_cons, IH, H.
Qed.

Lemma lower_app a b : lower (a ++ b) = lower a ++ lower b.
Proof. apply map_app. Qed.

Lemma txt_app a b : txt (a ++ b)%string = txt a ++ txt b.
Proof.
  unfold txt. induction a as [|c a IH]; simpl; [reflexivity|].
  rewrite IH. reflexivity.
Qed.

Lemma startswith_prefix p q s :
  startswith (p ++ q) s = true -> startswith p s = true.
Proof.
  revert s. induction p as [|a p IH]; intros s; [reflexivity|].
  destruct s as [|b s]; cbn [app startswith]; [discriminate|].
  intros H. apply andb_prop in H as [Hab H]. rewrite Hab, (IH _ H). reflexivity.
Qed.

(** A text that holds [p ++ q] holds [p]. *)
Lemma contains_prefix p q s : contains (p ++ q) s = true -> contains p s = true.
Proof.
  induction s as [|b s IH]; cbn [contains]; intros H;
    apply orb_prop in H as [H|H].
  - rewrite (startswith_prefix _ _ _ H). reflexivity.
  - discriminate.
  - rewrite (startswith_prefix _ _ _ H). reflexivity.
  - rewrite (IH H). apply orb_true_r.
Qed.

(** *** Error codes *)

(** X13.  [normalize_error_code] never classifies a message that
    mentions [socket_timeout] as [SOCKET_ERROR]: the test for [timeout]
    comes first, so the second alternative of the socket test is never
    what decides. *)
Theorem socket_timeout_is_not_socket_error msg :
  contains (txt "socket_timeout") (lower (txt msg)) = true ->
  normalize_error_code msg <> "SOCKET_ERROR".
Proof.
  intros H.
  assert (Ht : contains (txt "timeout") (lower (txt msg)) = true).
  { do 7 apply contains_tail in H. exact H. }
  unfold normalize_error_code. rewrite Ht.
  destruct (negb (truthy (VStr msg))); [discriminate|].
  destruct (_ || _); [discriminate|].
  destruct (contains (txt "recreate error") _); [discriminate|].
  destruct (contains (txt "not connected") _); discriminate.
Qed.

Lemma socket_timeout_is_not_socket_error_witness :
  normalize_error_code "socket_timeout after 2.0s" <> "SOCKET_ERROR".
Proof. apply socket_timeout_is_not_socket_error. reflexivity. Defined.

(** X14.  The message [try_reconnect_helper] records when the driver
    cannot be constructed, [recreate error: ] followed by the text of
    the exception, is classified [RECREATE_ERROR], unless the text of
    the exception itself mentions a forced reconnect, which makes it
    [FORCED_RECONNECT]. *)
Theorem recreate_error_code (e : string) :
  normalize_error_code ("recreate error: " ++ e)%string
  = if contains (txt "forced reconnect") (lower (txt e))
    then "FORCED_RECONNECT" else "RECREATE_ERROR".
Proof.
  unfold normalize_error_code. rewrite txt_app, lower_app.
  change (negb (truthy (VStr ("recreate error: " ++ e)%string))) with false.
  cbv iota.
  set (m := lower (txt e)).
  assert (H1 : contains (txt "forced reconnect") (lower (txt "recreate error: ") ++ m)
               = contains (txt "forced reconnect") m) by reflexivity.
  assert (H2 : contains (txt "forced reconnect failure")
                 (lower (txt "recreate error: ") ++ m)
               = contains (txt "forced reconnect failure") m) by reflexivity.
  assert (H3 : contains (txt "recreate error") (lower (txt "recreate error: ") ++ m)
               = true) by reflexivity.
  rewrite H1, H2, H3.
  destruct (contains (txt "forced reconnect") m) eqn:E; [reflexivity|].
  destruct (contains (txt "forced reconnect failure") m) eqn:E'; [|reflexivity].
  assert (Hc : contains (txt "forced reconnect") m = true)
    by (apply (contains_prefix _ (txt " failure")), E').
  congruence.
Qed.

(** *** Variants and defaults *)
Lemma variant_default_text (dt : string) :
  let d := lower (txt dt) in
  (default_value d = VBool false -> variant_of_text d = ua_Boolean)
  /\ (variant_of_text d = ua_Int64 \/ variant_of_text d = ua_UInt32 ->
      default_value d = VInt 0)
  /\ (variant_of_text d = ua_Float \/ variant_of_text d = ua_Double
      \/ variant_of_text d = ua_String ->
      default_value d = VFloat Float.zero).
Proof.
  intros d. unfold default_value, variant_of_text.
  destruct (startswith (txt "bool") d) eqn:Hsb.
  - rewrite (startswith_contains _ _ Hsb).
    split; [reflexivity|]. split; [intros [H|H]; discriminate|].
    intros [H|[H|H]]; discriminate.
  - destruct (contains (txt "bool") d) eqn:Hb.
    + split; [reflexivity|]. split; [intros [H|H]; discriminate|].
      intros [H|[H|H]]; discriminate.
    + destruct (contains (txt "uint") d) eqn:Hu.
      * assert (Hi : contains (txt "int") d = true)
          by (apply (contains_tail "u"%char), Hu).
        rewrite Hi.
        split; [discriminate|]. split; [reflexivity|].
        intros [H|[H|H]]; discriminate.
      * destruct (contains (txt "int") d) eqn:Hi.
        { split; [discriminate|]. split; [reflexivity|].
          intros [H|[H|H]]; discriminate. }
        split; [discriminate|]. split.
        { destruct (contains (txt "float") d); [intros [H|H]; discriminate|].
          destruct (contains (txt "double") d); [intros [H|H]; discriminate|].
          destruct (_ || _); intros [H|H]; discriminate. }
        reflexivity.
Qed.

Lemma dtype_to_variant_str dt :
  _dtype_to_variant (VStr dt) = Ret (variant_of_text (lower (txt dt))).
Proof. destruct dt; reflexivity. Qed.

(** X15.  For a tag with a string data type added with no initial
    value, the OPC UA variant chosen by [_dtype_to_variant] (and by the
    copy of the mapping in [_create_opcua_node_async]) agrees with the
    default that [add_tag] stores: a default [False] comes with the
    Boolean variant, the Int64 and UInt32 variants with [0], and the
    Float, Double and String variants with [0.0]. *)
Theorem variant_matches_default ts tag id dt :
  tag_id tag = VStr id -> data_type tag = VStr dt ->
  exists ts' v,
    TagStore.add_tag tag VNone ts = (ts', Ret tt)
    /\ _dtype_to_variant (data_type tag) = Ret v
    /\ node_variant (data_type tag) = v
    /\ (raw_value id ts' = VBool false -> v = ua_Boolean)
    /\ (v = ua_Int64 \/ v = ua_UInt32 -> raw_value id ts' = VInt 0)
    /\ (v = ua_Float \/ v = ua_Double \/ v = ua_String ->
        raw_value id ts' = VFloat Float.zero).
Proof.
  intros Hid Hdt. eexists _, (variant_of_text (lower (txt dt))).
  split; [apply (add_tag_default_run ts tag id dt Hid Hdt)|].
  unfold node_variant. rewrite Hdt, dtype_to_variant_str.
  split; [reflexivity|]. split; [reflexivity|].
  rewrite raw_value_store. apply variant_default_text.
Qed.

Lemma variant_matches_default_witness :
  exists ts' v,
    TagStore.add_tag (sample_tag "t1" "Int32") VNone TagStore.empty
    = (ts', Ret tt)
    /\ _dtype_to_variant (data_type (sample_tag "t1" "Int32")) = Ret v
    /\ node_variant (data_type (sample_tag "t1" "Int32")) = v
    /\ (raw_value "t1" ts' = VBool false -> v = ua_Boolean)
    /\ (v = ua_Int64 \/ v = ua_UInt32 -> raw_value "t1" ts' = VInt 0)
    /\ (v = ua_Float \/ v = ua_Double \/ v = ua_String ->
        raw_value "t1" ts' = VFloat Float.zero).
Proof.
  apply (variant_matches_default TagStore.empty (sample_tag "t1" "Int32")
           "t1" "Int32"); reflexivity.
Defined.

(** A data type that holds [bool] without beginning with it is declared
    Boolean to OPC UA while the store starts it at [0.0]. *)
Example boolean_variant_float_default :
  _dtype_to_variant (VStr "IsBool") = Ret ua_Boolean
  /\ default_value (lower (txt "IsBool")) = VFloat Float.zero.
Proof. split; reflexivity. Qed.

(** *** Values for OPC UA *)

(** X16.  [_normalize_for_opc] hands no [Decimal] on to OPC UA, for
    any requested variant, with one exception: a signalling NaN, which
    [float] rejects, is returned as it came. *)
Theorem normalize_for_opc_not_decimal value vartype :
  is_Decimal (_normalize_for_opc value vartype) = true ->
  exists s p, value = VDecimal (PyDecimal.NaN s true p).
Proof.
  unfold _normalize_for_opc.
  destruct value as [| | | |d| | |]; try discriminate.
  destruct d as [s c e|s|s [|] p].
  - destruct vartype as [[]|]; cbn; discriminate.
  - destruct vartype as [[]|]; cbn; discriminate.
  - intros _. eauto.
  - destruct vartype as [[]|]; cbn; discriminate.
Qed.

Lemma normalize_for_opc_not_decimal_witness :
  exists s p,
    VDecimal (PyDecimal.NaN false true 0) = VDecimal (PyDecimal.NaN s true p).
Proof.
  apply (normalize_for_opc_not_decimal (VDecimal (PyDecimal.NaN false true 0)) None).
  reflexivity.
Defined.







(** *** The tags a read addresses *)
Lemma filter_all {A} (f : A -> bool) l :
  (forall x, In x l -> f x = true) -> List.filter f l = l.
Proof.
  induction l as [|a l IH]; cbn [List.filter]; intros H; [reflexivity|].
  rewrite (H a) by (left; reflexivity). f_equal. apply IH.
  intros x Hx. apply H. right. exact Hx.
Qed.

Lemma combine_map_same {A B C} (f : A -> B) (g : A -> C) l :
  combine (map f l) (map g l) = map (fun x => (f x, g x)) l.
Proof. induction l as [|a l IH]; cbn; [reflexivity | rewrite IH; reflexivity]. Qed.

(** X19.  When every enabled CompactLogix tag has an address, the
    per-address reads of [read_compactlogix_tags] pair each tag id with
    the address of that same tag.  (The two lists are built apart and
    zipped, so the condition is needed.) *)
Theorem compact_reads_aligned ts :
  (forall t, In t (plc_tags "compactlogix" ts) -> truthy (address t) = true) ->
  compact_reads ts
  = map (fun t => (tag_id t, address t)) (plc_tags "compactlogix" ts).
Proof.
  intros H. unfold compact_reads, addresses, tag_ids.
  rewrite (filter_all _ _ H). apply combine_map_same.
Qed.

Lemma compact_reads_aligned_witness :
  compact_reads logix_store
  = map (fun t => (tag_id t, address t)) (plc_tags "compactlogix" logix_store).
Proof.
  apply (compact_reads_aligned logix_store).
  intros t [<-|[<-|[]]]; reflexivity.
Defined.

(** With an address missing the pairing shifts: the address of [b] is
    read for [a]. *)
Example compact_reads_shifted :
  compact_reads logix_store_gap = [(VStr "a", VStr "B")].
Proof. reflexivity. Qed.

Import Gateway BackoffFacts HealthFacts.

(** *** The backoff delay *)

(** X20.  With a non-negative base, [compute_backoff_delay] returns for
    failure counts from 1 to 1024, never exceeds [RECONNECT_MAX], and
    does not decrease when the failure count grows. *)
Theorem backoff_delay_monotone (B M : Q) (n m : Z) :
  (0 <= B)%Q -> 1 <= n -> n <= m -> m <= 1024 ->
  exists dn dm,
    compute_backoff_delay B M n = Ret dn
    /\ compute_backoff_delay B M m = Ret dm
    /\ (dn <= dm)%Q /\ (dm <= M)%Q.
Proof.
  intros HB Hn Hnm Hm.
  rewrite (compute_backoff_delay_in_range B M n) by lia.
  rewrite (compute_backoff_delay_in_range B M m) by lia.
  eexists _, _. split; [reflexivity|]. split; [reflexivity|]. split.
  - apply Q.min_le_compat_r.
    rewrite !(Qmult_comm B). apply Qmult_le_compat_r; [|exact HB].
    rewrite <- Zle_Qle. apply Z.pow_le_mono_r; lia.
  - apply Q.le_min_r.
Qed.

Lemma backoff_delay_monotone_witness :
  exists dn dm,
    compute_backoff_delay 1 60 3 = Ret dn
    /\ compute_backoff_delay 1 60 9 = Ret dm
    /\ (dn <= dm)%Q /\ (dm <= 60)%Q.
Proof. apply (backoff_delay_monotone 1 60 3 9); [discriminate | lia | lia | lia]. Defined.

Lemma insert_same (t : gmap string PLCHealth) key h :
  t !! key = Some h -> <[key := h]> t = t.
Proof. apply insert_id. Qed.

Lemma Qle_bool_false x y : (y < x)%Q -> Qle_bool x y = false.
Proof.
  intros H. destruct (Qle_bool x y) eqn:E; [|reflexivity].
  apply Qle_bool_iff in E. exfalso. apply (Qlt_not_le _ _ H), E.
Qed.

Lemma Qle_bool_true x y : (x <= y)%Q -> Qle_bool x y = true.
Proof. apply Qle_bool_iff. Qed.

Lemma reconnect_gate_closed B Mx mf mp clk drv cls key
    (t : gmap string PLCHealth) h :
  t !! key = Some h ->
  (clk 0%nat < next_attempt h)%Q ->
  try_reconnect_helper B Mx mf mp clk drv cls key t = (t, drv, Ret drv).
Proof.
  intros Hk Hgate. unfold try_reconnect_helper, at_key. rewrite Hk.
  unfold reconnect_body, mtry, mbind, time_time, health_get, current_driver.
  cbn. rewrite (Qle_bool_false _ _ Hgate). cbn.
  rewrite (insert_same _ _ _ Hk). reflexivity.
Qed.

Lemma reconnect_connected_run B Mx mf mp clk drv cls key
    (t : gmap string PLCHealth) h :
  t !! key = Some h ->
  (next_attempt h <= clk 0%nat)%Q ->
  is_connected drv = true ->
  try_reconnect_helper B Mx mf mp clk drv cls key t
  = (<[key := connected_entry h]> t, drv, Ret drv).
Proof.
  intros Hk Hgate Hc. unfold try_reconnect_helper, at_key. rewrite Hk.
  unfold reconnect_body, mtry, mbind, time_time, health_get, current_driver.
  cbn. rewrite (Qle_bool_true _ _ Hgate). cbn.
  destruct drv as [d|]; [|discriminate Hc]. cbn in Hc |- *.
  rewrite andb_false_r. cbn. rewrite Hc. reflexivity.
Qed.

Lemma reconnect_opened_run B Mx mf mp clk d cls key
    (t : gmap string PLCHealth) h :
  t !! key = Some h ->
  (next_attempt h <= clk 0%nat)%Q ->
  connected d = false -> has_open d = true -> connected_after_open d = true ->
  try_reconnect_helper B Mx mf mp clk (Some d) cls key t
  = (<[key := connected_entry h]> t, Some (driver_open d),
     Ret (Some (driver_open d))).
Proof.
  intros Hk Hgate Hc Ho Ha. unfold try_reconnect_helper, at_key. rewrite Hk.
  unfold reconnect_body, mtry, mbind, time_time, health_get, current_driver,
    open_current_driver, mmodify.
  cbn. rewrite (Qle_bool_true _ _ Hgate). cbn.
  rewrite andb_false_r. cbn. rewrite Hc, Ho. cbn. rewrite Ha. reflexivity.
Qed.

Lemma reconnect_recreate_run B Mx mf mp clk drv cls key
    (t : gmap string PLCHealth) h :
  t !! key = Some h ->
  (next_attempt h <= clk 0%nat)%Q ->
  mf && is_None drv && negb mp = false ->
  is_connected drv = false ->
  is_connected (after_open drv) = false ->
  match cls with
  | Ret _ => True
  | Raise _ => (0 <= fail_count h <= 1023)%Z
  end ->
  try_reconnect_helper B Mx mf mp clk drv cls key t
  = match cls with
    | Ret nd =>
        (<[key := if connected (opened nd) then connected_entry h else h]> t,
         after_open drv, Ret (Some (opened nd)))
    | Raise e =>
        (<[key := failed_entry B Mx clk ("recreate error: " ++ exn_msg e) h]> t,
         after_open drv, Ret (after_open drv))
    end.
Proof.
  intros Hk Hgate Hm Hc Ha Hfc. unfold try_reconnect_helper, at_key. rewrite Hk.
  unfold reconnect_body, mtry, mbind, time_time, health_get, current_driver,
    open_current_driver, mmodify, mret, lift.
  cbn. rewrite (Qle_bool_true _ _ Hgate). cbn.
  rewrite Hm, Hc. unfold after_open in *.
  destruct (can_open drv) eqn:Ho; cbn.
  - rewrite Ha. destruct cls as [nd|e]; cbn.
    + unfold opened. destruct (has_open nd); cbn;
        destruct (connected_after_open nd || false) eqn:E; cbn.
      all: try (destruct (connected_after_open nd); reflexivity).
      all: try (destruct (connected nd); reflexivity).
    + rewrite compute_backoff_delay_in_range by lia.
      replace (fail_count h + 1 - 1)%Z with (fail_count h) by lia. reflexivity.
  - destruct cls as [nd|e]; cbn.
    + unfold opened. destruct (has_open nd); cbn.
      * destruct (connected_after_open nd); reflexivity.
      * destruct (connected nd); reflexivity.
    + rewrite compute_backoff_delay_in_range by lia.
      replace (fail_count h + 1 - 1)%Z with (fail_count h) by lia. reflexivity.
Qed.

(** X21.  While the clock is before [next_attempt],
    [try_reconnect_helper] does nothing: the health table is unchanged,
    the driver is neither opened nor replaced, no driver is constructed,
    and the driver passed in is returned. *)
Theorem reconnect_respects_gate B Mx mf mp clk drv cls key
    (t : gmap string PLCHealth) h :
  t !! key = Some h ->
  (clk 0%nat < next_attempt h)%Q ->
  try_reconnect_helper B Mx mf mp clk drv cls key t = (t, drv, Ret drv).
Proof. apply reconnect_gate_closed. Qed.

Lemma reconnect_respects_gate_witness :
  try_reconnect_helper 1 60 false false clock0 (Some down_driver)
    (Ret up_driver) "compactlogix" after_failed_reconnect
  = (after_failed_reconnect, Some down_driver, Ret (Some down_driver)).
Proof.
  apply (reconnect_respects_gate 1 60 false false clock0 (Some down_driver)
           (Ret up_driver) "compactlogix" after_failed_reconnect health1).
  - vm_compute. reflexivity.
  - vm_compute. reflexivity.
Defined.

(** X22.  With the gate open, a driver that is connected, or that
    connects when opened, is returned by [try_reconnect_helper] without
    a new driver being constructed; [fail_count] and [next_attempt] are
    reset to zero and every other field of the entry, [last_backoff]
    included, is kept. *)
Theorem reconnect_connected_resets B Mx mf mp clk drv cls key
    (t : gmap string PLCHealth) h :
  t !! key = Some h ->
  (next_attempt h <= clk 0%nat)%Q ->
  (is_connected drv = true ->
   try_reconnect_helper B Mx mf mp clk drv cls key t
   = (<[key := connected_entry h]> t, drv, Ret drv))
  /\ (forall d, drv = Some d ->
      connected d = false -> has_open d = true ->
      connected_after_open d = true ->
      try_reconnect_helper B Mx mf mp clk drv cls key t
      = (<[key := connected_entry h]> t, Some (driver_open d),
         Ret (Some (driver_open d)))).
Proof.
  intros Hk Hgate. split.
  - intros Hc. apply reconnect_connected_run; assumption.
  - intros d -> Hc Ho Ha. apply reconnect_opened_run; assumption.
Qed.

Lemma reconnect_connected_resets_witness :
  (is_connected (Some waking_driver) = true ->
   try_reconnect_helper 1 60 false false clock0 (Some waking_driver)
     (Raise boom) "compactlogix" table3
   = (<["compactlogix" := connected_entry health3]> table3,
      Some waking_driver, Ret (Some waking_driver)))
  /\ (forall d, Some waking_driver = Some d ->
      connected d = false -> has_open d = true ->
      connected_after_open d = true ->
      try_reconnect_helper 1 60 false false clock0 (Some waking_driver)
        (Raise boom) "compactlogix" table3
      = (<["compactlogix" := connected_entry health3]> table3,
         Some (driver_open d), Ret (Some (driver_open d)))).
Proof.
  apply (reconnect_connected_resets 1 60 false false clock0
           (Some waking_driver) (Raise boom) "compactlogix" table3 health3).
  - vm_compute. reflexivity.
  - vm_compute. discriminate.
Defined.

(** X23.  With the gate open and a driver that is down and stays down,
    [try_reconnect_helper] returns the newly constructed driver, opened
    when it can be.  The entry is reset when the new driver is
    connected, and left as it was when it is not: a new driver that
    fails to connect without raising counts as no failure. *)
Theorem reconnect_recreates B Mx mf mp clk drv nd key
    (t : gmap string PLCHealth) h :
  t !! key = Some h ->
  (next_attempt h <= clk 0%nat)%Q ->
  mf && is_None drv && negb mp = false ->
  is_connected drv = false ->
  is_connected (after_open drv) = false ->
  try_reconnect_helper B Mx mf mp clk drv (Ret nd) key t
  = (<[key := if connected (opened nd) then connected_entry h else h]> t,
     after_open drv, Ret (Some (opened nd))).
Proof.
  intros Hk Hgate Hm Hc Ha.
  apply (reconnect_recreate_run B Mx mf mp clk drv (Ret nd) key t h);
    (assumption || exact I).
Qed.

Lemma reconnect_recreates_witness :
  try_reconnect_helper 1 60 false false clock0 (Some down_driver)
    (Ret down_driver) "compactlogix" table3
  = (<["compactlogix" := if connected (opened down_driver)
                         then connected_entry health3 else health3]> table3,
     after_open (Some down_driver), Ret (Some (opened down_driver))).
Proof.
  apply (reconnect_recreates 1 60 false false clock0 (Some down_driver)
           down_driver "compactlogix" table3 health3).
  - vm_compute. reflexivity.
  - vm_compute. discriminate.
  - reflexivity.
  - reflexivity.
  - reflexivity.
Defined.

(** X24.  With the gate open, a driver that stays down and a
    constructor that raises, at a failure count of at most 1023 and with
    non-negative base and maximum, [try_reconnect_helper] returns the
    old driver and records the failure: [fail_count] grows by one, the
    message is appended to [recent_errors], [last_backoff] is
    [min(BASE * 2^fail_count, MAX)], [next_attempt] is not before the
    clock, and [ok], [last_success] and [last_error] are kept.  Any call
    made before [next_attempt] then does nothing. *)
Theorem failed_reconnect_backs_off B Mx mf mp clk drv e key
    (t : gmap string PLCHealth) h :
  t !! key = Some h ->
  (next_attempt h <= clk 0%nat)%Q ->
  mf && is_None drv && negb mp = false ->
  is_connected drv = false ->
  is_connected (after_open drv) = false ->
  (0 <= fail_count h <= 1023)%Z ->
  (0 <= B)%Q -> (0 <= Mx)%Q ->
  exists h',
    try_reconnect_helper B Mx mf mp clk drv (Raise e) key t
    = (<[key := h']> t, after_open drv, Ret (after_open drv))
    /\ fail_count h' = fail_count h + 1
    /\ recent_errors h'
       = deque_append 10 (clk 1%nat, ("recreate error: " ++ exn_msg e)%string)
           (recent_errors h)
    /\ last_backoff h' = Some (Qmin (B * inject_Z (2 ^ fail_count h)) Mx)
    /\ (clk 2%nat <= next_attempt h')%Q
    /\ (ok h', last_success h', last_error h')
       = (ok h, last_success h, last_error h)
    /\ (forall clk' drv' cls',
          (clk' 0%nat < next_attempt h')%Q ->
          try_reconnect_helper B Mx mf mp clk' drv' cls' key (<[key := h']> t)
          = (<[key := h']> t, drv', Ret drv')).
Proof.
  intros Hk Hgate Hm Hc Ha Hfc HB HM.
  exists (failed_entry B Mx clk ("recreate error: " ++ exn_msg e) h).
  split.
  { apply (reconnect_recreate_run B Mx mf mp clk drv (Raise e) key t h);
      assumption. }
  split; [reflexivity|]. split; [reflexivity|]. split; [reflexivity|].
  split.
  { cbn [failed_entry next_attempt].
    rewrite <- (Qplus_0_r (clk 2%nat)) at 1.
    apply Qplus_le_r. apply Q.min_glb; [|exact HM].
    apply Qmult_le_0_compat; [exact HB|].
    change 0%Q with (inject_Z 0). rewrite <- Zle_Qle.
    apply Z.pow_nonneg. lia. }
  split; [reflexivity|].
  intros clk' drv' cls' Hlt.
  apply (reconnect_gate_closed B Mx mf mp clk' drv' cls' key _
           (failed_entry B Mx clk ("recreate error: " ++ exn_msg e) h));
    [|exact Hlt].
  apply lookup_insert_eq.
Qed.

Lemma failed_reconnect_backs_off_witness :
  exists h',
    try_reconnect_helper 1 60 false false clock0 (Some down_driver)
      (Raise boom) "compactlogix" table3
    = (<["compactlogix" := h']> table3, after_open (Some down_driver),
       Ret (after_open (Some down_driver)))
    /\ fail_count h' = fail_count health3 + 1
    /\ recent_errors h'
       = deque_append 10 (clock0 1%nat, ("recreate error: " ++ exn_msg boom)%string)
           (recent_errors health3)
    /\ last_backoff h' = Some (Qmin (1 * inject_Z (2 ^ fail_count health3)) 60)
    /\ (clock0 2%nat <= next_attempt h')%Q
    /\ (ok h', last_success h', last_error h')
       = (ok health3, last_success health3, last_error health3)
    /\ (forall clk' drv' cls',
          (clk' 0%nat < next_attempt h')%Q ->
          try_reconnect_helper 1 60 false false clk' drv' cls' "compactlogix"
            (<["compactlogix" := h']> table3)
          = (<["compactlogix" := h']> table3, drv', Ret drv')).
Proof.
  apply (failed_reconnect_backs_off 1 60 false false clock0 (Some down_driver)
           boom "compactlogix" table3 health3).
  - vm_compute. reflexivity.
  - vm_compute. discriminate.
  - reflexivity.
  - reflexivity.
  - reflexivity.
  - cbn. lia.
  - discriminate.
  - discriminate.
Defined.

(** *** Bounds of an entry *)
Lemma deque_append_length {A} (x : A) l :
  (length (deque_append 10 x l) <= 10)%nat.
Proof.
  unfold deque_append. rewrite length_skipn, length_app. cbn. lia.
Qed.

Lemma bounded_inv_record_backoff B Mx clk msg c :
  bounded_inv Mx (health c) ->
  wp (record_backoff B Mx clk msg) (fun _ c' => bounded_inv Mx (health c'))
     (fun _ c' => bounded_inv Mx (health c')) c.
Proof.
  intros (Hfc & Hlen & Hb). unfold wp. rewrite record_backoff_run.
  destruct (compute_backoff_delay B Mx (fail_count (health c) + 1))
    as [delay|e] eqn:Hd; cbn.
  - split; [|split]; cbn; [lia | apply deque_append_length |].
    intros b [= <-].
    destruct (Z_le_gt_dec (fail_count (health c) + 1) 1024) as [Hle|Hgt].
    + rewrite compute_backoff_delay_in_range in Hd by lia.
      injection Hd as <-. apply Q.le_min_r.
    + rewrite compute_backoff_delay_overflow in Hd by lia. discriminate.
  - split; [|split]; cbn; [lia | apply deque_append_length | exact Hb].
Qed.

Lemma bounded_inv_mark_connected Mx c :
  bounded_inv Mx (health c) ->
  wp mark_connected (fun _ c' => bounded_inv Mx (health c'))
     (fun _ c' => bounded_inv Mx (health c')) c.
Proof.
  intros (Hfc & Hlen & Hb). unfold wp. cbn.
  split; [|split]; cbn; [lia | exact Hlen | exact Hb].
Qed.

Lemma bounded_inv_read_body Mx clk stop body c :
  bounded_inv Mx (health c) ->
  wp (read_body_health clk stop body) (fun _ c' => bounded_inv Mx (health c'))
     (fun _ c' => bounded_inv Mx (health c')) c.
Proof.
  intros HJ. unfold read_body_health. apply wp_try.
  destruct stop; [exact HJ|].
  unfold wp. cbn.
  destruct (is_connected (driver_obj c)); cbn; [|exact HJ].
  destruct HJ as (Hfc & Hlen & Hb).
  destruct body; cbn.
  - split; [|split]; assumption.
  - split; [|split]; cbn; [lia | exact Hlen | exact Hb].
  - split; [|split]; cbn; [lia | apply deque_append_length | exact Hb].
Qed.

(** X25.  The reconnect step and the two read functions, on any of
    their paths, keep every entry of the health table within bounds:
    [fail_count] is not negative, [recent_errors] holds at most ten
    entries, and a recorded [last_backoff] does not exceed
    [RECONNECT_MAX]. *)
Theorem bounded_inv_preserved B Mx mf mp clk drv cls key plc stop body
    (plc_health : gmap string PLCHealth) :
  table_inv (bounded_inv Mx) plc_health ->
  table_inv (bounded_inv Mx)
    (try_reconnect_helper B Mx mf mp clk drv cls key plc_health).1.1
  /\ table_inv (bounded_inv Mx)
       (read_compactlogix_tags clk plc stop body plc_health).1.1
  /\ table_inv (bounded_inv Mx)
       (read_slc500_tags clk plc stop body plc_health).1.1.
Proof.
  intros H. split; [|split];
    unfold try_reconnect_helper, read_compactlogix_tags, read_slc500_tags.
  - apply at_key_preserves; [|exact H]. intros c.
    apply reconnect_body_preserves.
    + intros msg c'. apply bounded_inv_record_backoff.
    + intros c'. apply bounded_inv_mark_connected.
  - apply at_key_preserves; [|exact H]. intros c. apply bounded_inv_read_body.
  - apply at_key_preserves; [|exact H]. intros c. apply bounded_inv_read_body.
Qed.

Lemma start_table_bounded Mx a b : table_inv (bounded_inv Mx) (start_table a b).
Proof.
  apply start_table_inv. intros ok.
  split; [|split]; cbn; [lia | lia | discriminate].
Qed.

Lemma bounded_inv_preserved_witness :
  table_inv (bounded_inv 60) (start_table true true)
  /\ (table_inv (bounded_inv 60)
        (try_reconnect_helper 1 60 false false clock0 (Some down_driver)
           (Raise boom) "compactlogix" (start_table true true)).1.1
      /\ table_inv (bounded_inv 60)
           (read_compactlogix_tags clock0 (Some up_driver) false
              (ReadRaised boom) (start_table true true)).1.1
      /\ table_inv (bounded_inv 60)
           (read_slc500_tags clock0 (Some up_driver) false
              (ReadRaised boom) (start_table true true)).1.1).
Proof.
  split; [apply start_table_bounded|].
  apply (bounded_inv_preserved 1 60 false false clock0 (Some down_driver)
           (Raise boom) "compactlogix" (Some up_driver) false
           (ReadRaised boom)).
  apply start_table_bounded.
Defined.

(** *** The outcomes of a read *)

(** X26.  The read functions never raise when the entry of their
    controller exists.  A read that is skipped for shutdown changes
    nothing; on a driver that is not connected it marks the entry not
    ok with [not connected] and counts no failure; a completed read
    marks it ok, stamps [last_success] and clears [fail_count] and
    [next_attempt]; a read that raises marks it not ok, counts one
    failure and records the error, and leaves [next_attempt] and
    [last_backoff] alone. *)
Theorem read_outcomes clk key plc body (t : gmap string PLCHealth) h :
  controller key ->
  t !! key = Some h ->
  read_tags clk key plc true body t = (t, plc, Ret tt)
  /\ (is_connected plc = false ->
      read_tags clk key plc false body t
      = (<[key := mkHealth false (last_success h) (Some "not connected")
                    (fail_count h) (recent_errors h) (next_attempt h)
                    (last_backoff h)]> t, plc, Ret tt))
  /\ (is_connected plc = true ->
      read_tags clk key plc false ReadCompleted t
      = (<[key := mkHealth true (clk 0%nat) None 0 (recent_errors h) 0%Q
                    (last_backoff h)]> t, plc, Ret tt))
  /\ (is_connected plc = true -> forall e,
      read_tags clk key plc false (ReadRaised e) t
      = (<[key := mkHealth false (last_success h) (Some (exn_msg e))
                    (fail_count h + 1)
                    (deque_append 10 (clk 0%nat, exn_msg e) (recent_errors h))
                    (next_attempt h) (last_backoff h)]> t, plc, Ret tt)).
Proof.
  intros Hkey Hk. rewrite !read_tags_at_key by exact Hkey.
  unfold at_key. rewrite Hk. split; [|split; [|split]].
  - cbn. rewrite (insert_same _ _ _ Hk). reflexivity.
  - intros Hc. unfold read_body_health, mtry, mbind, current_driver. cbn.
    rewrite Hc. reflexivity.
  - intros Hc. unfold read_body_health, mtry, mbind, current_driver. cbn.
    rewrite Hc. reflexivity.
  - intros Hc e. rewrite read_tags_at_key by exact Hkey. unfold at_key.
    rewrite Hk. unfold read_body_health, mtry, mbind, current_driver. cbn.
    rewrite Hc. reflexivity.
Qed.

Lemma read_outcomes_witness :
  read_tags clock0 "slc500" (Some up_driver) true ReadCompleted table3
  = (table3, Some up_driver, Ret tt)
  /\ (is_connected (Some up_driver) = false ->
      read_tags clock0 "slc500" (Some up_driver) false ReadCompleted table3
      = (<["slc500" := mkHealth false (last_success (set_ok true health_init))
                    (Some "not connected")
                    (fail_count (set_ok true health_init))
                    (recent_errors (set_ok true health_init))
                    (next_attempt (set_ok true health_init))
                    (last_backoff (set_ok true health_init))]> table3,
         Some up_driver, Ret tt))
  /\ (is_connected (Some up_driver) = true ->
      read_tags clock0 "slc500" (Some up_driver) false ReadCompleted table3
      = (<["slc500" := mkHealth true (clock0 0%nat) None 0
                    (recent_errors (set_ok true health_init)) 0%Q
                    (last_backoff (set_ok true health_init))]> table3,
         Some up_driver, Ret tt))
  /\ (is_connected (Some up_driver) = true -> forall e,
      read_tags clock0 "slc500" (Some up_driver) false (ReadRaised e) table3
      = (<["slc500" := mkHealth false (last_success (set_ok true health_init))
                    (Some (exn_msg e))
                    (fail_count (set_ok true health_init) + 1)
                    (deque_append 10 (clock0 0%nat, exn_msg e)
                       (recent_errors (set_ok true health_init)))
                    (next_attempt (set_ok true health_init))
                    (last_backoff (set_ok true health_init))]> table3,
         Some up_driver, Ret tt)).
Proof.
  apply (read_outcomes clock0 "slc500" (Some up_driver) ReadCompleted table3
           (set_ok true health_init)).
  - right. reflexivity.
  - vm_compute. reflexivity.
Defined.


End GatewayFacts.
